(** * Baseball statistics analysis: a shallow embedding of
      [baseball_analysys.py] and proofs about its ranking pipeline.

    Python values are embedded as follows.
    - A row read by [csv.DictReader], and an aggregate record built by
      [aggregate_by_player_id], is a finite map from column names to
      values; a value is a string (raw CSV text) or an integer (a summed
      field).
    - A Python [str] is held as its UTF-8 encoding; [int] and [float]
      read it as CPython 3.11 does, Unicode white space and decimal
      digits included.
    - A Python [float] is an IEEE-754 binary64 number, taken from the
      standard library's [SpecFloat] with precision 53 and maximal
      exponent 1024; Python integers are [Z].
    - An exception is a value of [exn]; a computation that may raise is a
      [result]. *)

From Stdlib Require Import ZArith QArith Qpower String Ascii List Lia.
From Stdlib Require Import Floats.SpecFloat DecimalString.
From stdpp Require Import gmap strings list sorting.

Local Open Scope Z_scope.
Set Warnings "-clear-no-such-hyp".


(** ** Exceptions *)

Inductive exn : Type :=
  | KeyError
  | ValueError
  | TypeError
  | OverflowError
  | ZeroDivisionError
  | OSError.

Inductive result (A : Type) : Type :=
  | Ok (a : A)
  | Raise (e : exn).
Arguments Ok {A} a.
Arguments Raise {A} e.

#[global] Instance result_ret : MRet result := fun A a => Ok a.
#[global] Instance result_bind : MBind result := fun A B f m =>
  match m with
  | Ok a => f a
  | Raise e => Raise e
  end.
#[global] Instance result_fmap : FMap result := fun A B f m =>
  match m with
  | Ok a => Ok (f a)
  | Raise e => Raise e
  end.

(** [for x in xs: ys.append(f(x))], stopping at the first exception. *)
Fixpoint for_each {A B : Type} (f : A -> result B) (xs : list A)
  : result (list B) :=
  match xs with
  | [] => Ok []
  | x :: xs' => y ← f x; ys ← for_each f xs'; Ok (y :: ys)
  end.

(** [for x in xs: acc = f(acc, x)], stopping at the first exception. *)
Fixpoint for_fold {A S : Type} (f : S -> A -> result S) (acc : S)
  (xs : list A) : result S :=
  match xs with
  | [] => Ok acc
  | x :: xs' => acc' ← f acc x; for_fold f acc' xs'
  end.

(** ** Python builtins used by the module *)

Module Py.

(** Binary64. *)
Definition prec : Z := 53.
Definition emax : Z := 1024.
Definition float : Type := spec_float.

Definition fadd : float -> float -> float := SFadd prec emax.
Definition fsub : float -> float -> float := SFsub prec emax.
Definition fmul : float -> float -> float := SFmul prec emax.
Definition fdiv : float -> float -> float := SFdiv prec emax.

Definition is_zero (f : float) : bool :=
  match f with
  | S754_zero _ => true
  | _ => false
  end.

Definition is_nan (f : float) : bool :=
  match f with
  | S754_nan => true
  | _ => false
  end.

Definition is_finite (f : float) : bool :=
  match f with
  | S754_zero _ | S754_finite _ _ _ => true
  | _ => false
  end.

(** [a / b] on floats: division by a zero raises. *)
Definition truediv (a b : float) : result float :=
  if is_zero b then Raise ZeroDivisionError else Ok (fdiv a b).

(** [float(n)] for an integer [n]: round to nearest even; too large an
    integer raises [OverflowError]. *)
Definition float_of_int (z : Z) : result float :=
  match binary_normalize prec emax z 0 false with
  | S754_infinity _ => Raise OverflowError
  | f => Ok f
  end.

(** The float of a small integer literal ([2 * doubles]). *)
Definition float_lit (z : Z) : float := binary_normalize prec emax z 0 false.

(** *** Text

    A Python [str] is a sequence of Unicode code points.  It is held as
    its UTF-8 encoding, which is also what a string literal denotes. *)

(** White space as [int] and [float] skip it around a number
    ([Py_ISSPACE]): tab, line feed, vertical tab, form feed, carriage
    return and space. *)
Definition is_space (c : ascii) : bool :=
  let n := nat_of_ascii c in
  (((9 <=? n) && (n <=? 13)) || (n =? 32))%nat.

(** The code points of a UTF-8 text, [None] when the bytes are no UTF-8.
    [need] continuation bytes are awaited for the code point begun with
    [acc], whose shortest encoding has this length when it is at least
    [low]. *)
Fixpoint code_points_from (need : nat) (acc low : N) (cs : list ascii)
  : option (list N) :=
  match cs with
  | [] => match need with O => Some [] | S _ => None end
  | c :: cs' =>
      let b := N_of_ascii c in
      match need with
      | O =>
          if (b <? 128)%N then cons b <$> code_points_from 0 0 0 cs'
          else if ((192 <=? b) && (b <? 224))%N
          then code_points_from 1 (b - 192) 128 cs'
          else if ((224 <=? b) && (b <? 240))%N
          then code_points_from 2 (b - 224) 2048 cs'
          else if ((240 <=? b) && (b <? 248))%N
          then code_points_from 3 (b - 240) 65536 cs'
          else None
      | S n =>
          if ((128 <=? b) && (b <? 192))%N
          then
            let acc' := (acc * 64 + (b - 128))%N in
            match n with
            | O =>
                if ((low <=? acc') && (acc' <=? 1114111) &&
                    negb ((55296 <=? acc') && (acc' <=? 57343)))%N
                then cons acc' <$> code_points_from 0 0 0 cs'
                else None
            | S _ => code_points_from n acc' low cs'
            end
          else None
      end
  end.

Definition code_points (cs : list ascii) : option (list N) :=
  code_points_from 0 0 0 cs.

(** White space beyond ASCII ([Py_UNICODE_ISSPACE]): next line,
    no-break space, ogham space mark, the spaces of general punctuation,
    line and paragraph separators, narrow no-break space, medium
    mathematical space and ideographic space. *)
Definition is_unicode_space (cp : N) : bool :=
  ((cp =? 133) || (cp =? 160) || (cp =? 5760) ||
   ((8192 <=? cp) && (cp <=? 8202)) || (cp =? 8232) || (cp =? 8233) ||
   (cp =? 8239) || (cp =? 8287) || (cp =? 12288))%N.

(** The digit zero of every script with decimal digits (category Nd of
    Unicode 14.0, the character database of CPython 3.11); the digits
    one to nine of the script follow it. *)
Definition decimal_zeros : list N :=
  [1632; 1776; 1984; 2406; 2534; 2662; 2790; 2918; 3046; 3174; 3302; 3430;
   3558; 3664; 3792; 3872; 4160; 4240; 6112; 6160; 6470; 6608; 6784; 6800;
   6992; 7088; 7232; 7248; 42528; 43216; 43264; 43472; 43504; 43600; 44016;
   65296; 66720; 68912; 69734; 69872; 69942; 70096; 70384; 70736; 70864;
   71248; 71360; 71472; 71904; 72016; 72784; 73040; 73120; 92768; 92864;
   93008; 120782; 120792; 120802; 120812; 120822; 123200; 123632; 125264;
   130032]%N.

(** [Py_UNICODE_TODECIMAL] beyond ASCII. *)
Definition unicode_decimal (cp : N) : option N :=
  (fun zero => (cp - zero)%N) <$>
  List.find (fun zero => ((zero <=? cp) && (cp <? zero + 10))%N) decimal_zeros.

(** What [int] and [float] make of a code point before they parse: an
    ASCII character is kept, white space becomes a space, a decimal
    digit becomes the ASCII digit of its value, and any other character
    makes the conversion fail. *)
Definition ascii_of_code_point (cp : N) : option ascii :=
  if (cp <? 128)%N then Some (ascii_of_N cp)
  else if is_unicode_space cp then Some " "%char
  else (fun d => ascii_of_N (48 + d)) <$> unicode_decimal cp.

Definition to_ascii_text (cs : list ascii) : option (list ascii) :=
  cps ← code_points cs; mapM ascii_of_code_point cps.

Fixpoint lstrip (cs : list ascii) : list ascii :=
  match cs with
  | c :: cs' => if is_space c then lstrip cs' else cs
  | [] => []
  end.

Definition strip (cs : list ascii) : list ascii :=
  rev (lstrip (rev (lstrip cs))).

Definition lower (c : ascii) : ascii :=
  let n := nat_of_ascii c in
  if ((65 <=? n) && (n <=? 90))%nat then ascii_of_nat (n + 32) else c.

Definition digit_of (c : ascii) : option Z :=
  let n := nat_of_ascii c in
  if ((48 <=? n) && (n <=? 57))%nat then Some (Z.of_nat n - 48) else None.

Definition is_digit (c : ascii) : bool :=
  match digit_of c with
  | Some _ => true
  | None => false
  end.

(** [digitpart ::= digit (["_"] digit)*]: the digits, most significant
    first.  [after_digit] tells whether the previous character was a
    digit, so that an underscore is accepted only between two digits. *)
Fixpoint digitpart_from (after_digit : bool) (cs : list ascii)
  : option (list Z) :=
  match cs with
  | [] => if after_digit then Some [] else None
  | c :: cs' =>
      match digit_of c with
      | Some d => cons d <$> digitpart_from true cs'
      | None =>
          if (Ascii.eqb c "_" && after_digit)%bool
          then digitpart_from false cs'
          else None
      end
  end.

Definition digitpart (cs : list ascii) : option (list Z) :=
  digitpart_from false cs.

Definition digits_value (ds : list Z) : Z :=
  fold_left (fun acc d => 10 * acc + d) ds 0.

Definition split_sign (cs : list ascii) : bool * list ascii :=
  match cs with
  | "-"%char :: r => (true, r)
  | "+"%char :: r => (false, r)
  | _ => (false, cs)
  end.

(** Split at the first character satisfying [p]; the separator is
    dropped, and [None] is returned for the second part when no
    character satisfies [p]. *)
Fixpoint split_at (p : ascii -> bool) (cs : list ascii)
  : list ascii * option (list ascii) :=
  match cs with
  | [] => ([], None)
  | c :: cs' =>
      if p c then ([], Some cs')
      else let '(a, b) := split_at p cs' in (c :: a, b)
  end.

(** The most digits [int] converts from text
    ([sys.int_info.default_max_str_digits]). *)
Definition max_str_digits : nat := 4300.

(** [int(s)] for a string, base 10: optional surrounding white space,
    optional sign, digits with single underscores between them, and no
    more digits than the limit. *)
Definition int_of_string (s : string) : result Z :=
  match to_ascii_text (list_ascii_of_string s) with
  | Some cs =>
      let '(neg, body) := split_sign (strip cs) in
      match digitpart body with
      | Some ds =>
          if (max_str_digits <? length ds)%nat then Raise ValueError
          else Ok (if neg then - digits_value ds else digits_value ds)
      | None => Raise ValueError
      end
  | None => Raise ValueError
  end.

(** The optional-or-digitpart pieces of [number]. *)
Definition opt_digitpart (cs : list ascii) : option (list Z) :=
  match cs with
  | [] => Some []
  | _ => digitpart cs
  end.

(** [floatnumber ::= number [exponent]]: the decimal mantissa and the
    power of ten, [m * 10^e]. *)
Definition parse_decimal (cs : list ascii) : option (Z * Z) :=
  let '(mant, expo) := split_at (fun c => Ascii.eqb (lower c) "e") cs in
  let '(ip, fp) := split_at (fun c => Ascii.eqb c ".") mant in
  ids ← opt_digitpart ip;
  fds ← match fp with
        | Some fcs => opt_digitpart fcs
        | None => Some []
        end;
  e ← match expo with
      | Some ecs =>
          let '(eneg, ebody) := split_sign ecs in
          eds ← digitpart ebody;
          Some (if eneg then - digits_value eds else digits_value eds)
      | None => Some 0
      end;
  match ids, fds with
  | [], [] => None
  | _, _ => Some (digits_value (ids ++ fds), e - Z.of_nat (length fds))
  end.

(** The binary64 nearest to [± m * 10^e] (ties to even). *)
Definition decimal_to_float (neg : bool) (m e : Z) : float :=
  match m with
  | Zpos p =>
      if 0 <=? e
      then binary_normalize prec emax
             (if neg then - (m * 10 ^ e) else m * 10 ^ e) 0 false
      else fdiv (S754_finite neg p 0)
                (S754_finite false (Z.to_pos (10 ^ (- e))) 0)
  | _ => S754_zero neg
  end.

(** [float(s)] for a string: optional surrounding white space, optional
    sign, then [inf], [infinity] or [nan] in any case, or a decimal
    number with optional fraction and exponent. *)
Definition float_of_string (s : string) : result float :=
  match to_ascii_text (list_ascii_of_string s) with
  | Some cs =>
      let '(neg, body) := split_sign (strip cs) in
      let word := string_of_list_ascii (map lower body) in
      if (String.eqb word "inf" || String.eqb word "infinity")%bool
      then Ok (S754_infinity neg)
      else if String.eqb word "nan" then Ok S754_nan
      else match parse_decimal body with
           | Some (m, e) => Ok (decimal_to_float neg m e)
           | None => Raise ValueError
           end
  | None => Raise ValueError
  end.

(** *** Values held by rows *)

(** A cell holds text (the UTF-8 encoding of a [str]) or an integer. *)
Inductive pyval : Type :=
  | VStr (s : string)
  | VInt (z : Z).

(** [float(v)] *)
Definition to_float (v : pyval) : result float :=
  match v with
  | VStr s => float_of_string s
  | VInt z => float_of_int z
  end.

(** [int(v)] *)
Definition to_int (v : pyval) : result Z :=
  match v with
  | VStr s => int_of_string s
  | VInt z => Ok z
  end.

(** [old + n] for an integer [n]. *)
Definition add_int (old : pyval) (n : Z) : result pyval :=
  match old with
  | VInt z => Ok (VInt (z + n))
  | VStr _ => Raise TypeError
  end.

Definition dec_of_N (n : N) : string :=
  NilZero.string_of_uint (N.to_uint n).

Definition dec_of_Z (z : Z) : string :=
  match z with
  | Zneg p => "-" ++ dec_of_N (Npos p)
  | _ => dec_of_N (Z.to_N z)
  end.

(** [str(v)], as an f-string renders a value. *)
Definition to_str (v : pyval) : string :=
  match v with
  | VStr s => s
  | VInt z => dec_of_Z z
  end.

(** *** Numbers returned by a formula *)

Inductive pynum : Type :=
  | NInt (z : Z)
  | NFloat (f : float).

(** The exact value of a number on the extended real line; a NaN has
    none. *)
Inductive xreal : Type :=
  | XNegInf
  | XFin (q : Q)
  | XPosInf.

Definition float_val (f : float) : option xreal :=
  match f with
  | S754_nan => None
  | S754_infinity s => Some (if s then XNegInf else XPosInf)
  | S754_zero _ => Some (XFin 0)
  | S754_finite s m e =>
      Some (XFin (inject_Z (if s then Zneg m else Zpos m) * Qpower 2 e))
  end.

Definition num_val (n : pynum) : option xreal :=
  match n with
  | NInt z => Some (XFin (inject_Z z))
  | NFloat f => float_val f
  end.

Definition xle (x y : xreal) : bool :=
  match x, y with
  | XNegInf, _ => true
  | _, XPosInf => true
  | XFin p, XFin q => Qle_bool p q
  | _, _ => false
  end.

(** Python compares numbers, integer or float, by their exact values;
    every comparison with a NaN is false. *)
Definition num_le (a b : pynum) : bool :=
  match num_val a, num_val b with
  | Some x, Some y => xle x y
  | _, _ => false
  end.

Definition num_lt (a b : pynum) : bool :=
  match num_val a, num_val b with
  | Some x, Some y => negb (xle y x)
  | _, _ => false
  end.

Definition num_ge (a b : pynum) : bool := num_le b a.

Definition num_eq (a b : pynum) : bool := num_le a b && num_le b a.

(** *** Formatting with [.3f] *)

(** [a / b] rounded to the nearest integer, ties to even ([0 <= a],
    [0 < b]). *)
Definition div_half_even (a b : Z) : Z :=
  let q := a / b in
  match 2 * (a mod b) ?= b with
  | Lt => q
  | Gt => q + 1
  | Eq => if Z.even q then q else q + 1
  end.

(** The absolute value of a finite float in thousandths, rounded to the
    nearest integer, ties to even. *)
Definition thousandths (m : positive) (e : Z) : Z :=
  if 0 <=? e then Zpos m * 2 ^ e * 1000
  else div_half_even (Zpos m * 1000) (2 ^ (- e)).

Definition digit_char (d : Z) : ascii := ascii_of_nat (48 + Z.to_nat d).

Definition fixed3 (neg : bool) (n : Z) : string :=
  ((if neg then "-" else "") ++ dec_of_N (Z.to_N (n / 1000)) ++ "." ++
   String (digit_char (n / 100 mod 10))
     (String (digit_char (n / 10 mod 10))
        (String (digit_char (n mod 10)) EmptyString)))%string.

Definition format_float_3f (f : float) : string :=
  match f with
  | S754_nan => "nan"
  | S754_infinity s => if s then "-inf" else "inf"
  | S754_zero s => fixed3 s 0
  | S754_finite s m e => fixed3 s (thousandths m e)
  end.

(** [f"{x:.3f}"]: an integer is converted to a float first. *)
Definition format_3f (x : pynum) : result string :=
  match x with
  | NFloat f => Ok (format_float_3f f)
  | NInt z => format_float_3f <$> float_of_int z
  end.

(** *** Lists *)

(** Insert [x] before the first element that [x] is less than: after
    every element it is not less than. *)
Fixpoint insert_by {A : Type} (lt : A -> A -> bool) (x : A) (l : list A)
  : list A :=
  match l with
  | [] => [x]
  | y :: l' => if lt x y then x :: l else y :: insert_by lt x l'
  end.

(** A stable ascending sort that uses only [<], as [list.sort] does. *)
Definition sort_by {A : Type} (lt : A -> A -> bool) (l : list A) : list A :=
  fold_left (fun acc x => insert_by lt x acc) l [].

(** [l.sort(key=key, reverse=True)]: the list is reversed, sorted
    ascending and stably by key, and reversed again, which keeps
    elements with equal keys in their original order.  The order of the
    result is that of [list.sort] when no key is a NaN; with a NaN among
    the keys the comparisons are not an order and [list.sort] promises
    no particular outcome, so nothing is stated about the order then. *)
Definition sort_reverse {A : Type} (key : A -> pynum) (l : list A) : list A :=
  reverse (sort_by (fun a b => num_lt (key a) (key b)) (reverse l)).

(** [l[:n]] *)
Definition slice_to {A : Type} (l : list A) (n : Z) : list A :=
  if 0 <=? n then take (Z.to_nat n) l
  else take (length l - Z.to_nat (- n)) l.

End Py.

Import Py.

#[global] Instance pyval_eq_dec : EqDecision pyval.
Proof. solve_decision. Defined.

#[global] Instance pyval_countable : Countable pyval.
Proof.
  refine (inj_countable'
            (fun v => match v with VStr s => inl s | VInt z => inr z end)
            (fun x => match x with inl s => VStr s | inr z => VInt z end) _).
  intros []; reflexivity.
Defined.

(** ** Dictionaries *)

(** [d[k]] on a dictionary whose order does not matter. *)
Definition getitem {K V : Type} `{Countable K} (d : gmap K V) (k : K)
  : result V :=
  match d !! k with
  | Some v => Ok v
  | None => Raise KeyError
  end.

(** A dictionary whose insertion order is observed: the association
    list of its items, in insertion order, with distinct keys. *)
Fixpoint od_lookup {V : Type} (d : list (pyval * V)) (k : pyval) : option V :=
  match d with
  | [] => None
  | (k', v) :: d' => if decide (k' = k) then Some v else od_lookup d' k
  end.

(** [d[k] = v]: a present key keeps its place, a new key goes last. *)
Fixpoint od_store {V : Type} (d : list (pyval * V)) (k : pyval) (v : V)
  : list (pyval * V) :=
  match d with
  | [] => [(k, v)]
  | (k', v') :: d' =>
      if decide (k' = k) then (k, v) :: d' else (k', v') :: od_store d' k v
  end.

Definition od_getitem {V : Type} (d : list (pyval * V)) (k : pyval)
  : result V :=
  match od_lookup d k with
  | Some v => Ok v
  | None => Raise KeyError
  end.

(** ** The module *)

Definition MINIMUM_AB : Z := 500.

(** [float(batting_stats[info[role]])] *)
Definition stat_float (info : gmap string string)
  (batting_stats : gmap string pyval) (role : string) : result float :=
  column ← getitem info role;
  v ← getitem batting_stats column;
  to_float v.

Definition batting_average (info : gmap string string)
  (batting_stats : gmap string pyval) : result pynum :=
  hits ← stat_float info batting_stats "hits";
  at_bats ← stat_float info batting_stats "atbats";
  if num_ge (NFloat at_bats) (NInt MINIMUM_AB)
  then NFloat <$> truediv hits at_bats
  else Ok (NInt 0).

Definition onbase_percentage (info : gmap string string)
  (batting_stats : gmap string pyval) : result pynum :=
  hits ← stat_float info batting_stats "hits";
  at_bats ← stat_float info batting_stats "atbats";
  walks ← stat_float info batting_stats "walks";
  if num_ge (NFloat at_bats) (NInt MINIMUM_AB)
  then NFloat <$> truediv (fadd hits walks) (fadd at_bats walks)
  else Ok (NInt 0).

Definition slugging_percentage (info : gmap string string)
  (batting_stats : gmap string pyval) : result pynum :=
  hits ← stat_float info batting_stats "hits";
  doubles ← stat_float info batting_stats "doubles";
  triples ← stat_float info batting_stats "triples";
  home_runs ← stat_float info batting_stats "homeruns";
  let singles := fsub (fsub (fsub hits doubles) triples) home_runs in
  at_bats ← stat_float info batting_stats "atbats";
  if num_ge (NFloat at_bats) (NInt MINIMUM_AB)
  then
    let total_bases :=
      fadd (fadd (fadd singles (fmul (float_lit 2) doubles))
                 (fmul (float_lit 3) triples))
           (fmul (float_lit 4) home_runs) in
    NFloat <$> truediv total_bases at_bats
  else Ok (NInt 0).

Definition filter_by_year (statistics : list (gmap string pyval)) (year : Z)
  (yearid : string) : result (list (gmap string pyval)) :=
  for_fold
    (fun res stat =>
       v ← getitem stat yearid;
       y ← to_int v;
       Ok (if y =? year then res ++ [stat] else res))
    [] statistics.

Definition top_player_ids (info : gmap string string)
  (statistics : list (gmap string pyval))
  (formula : gmap string string -> gmap string pyval -> result pynum)
  (numplayers : Z) : result (list (pyval * pynum)) :=
  pid_field ← getitem info "playerid";
  scored ← for_fold
             (fun scored stat =>
                score ← formula info stat;
                pid ← getitem stat pid_field;
                Ok (scored ++ [(pid, score)]))
             [] statistics;
  Ok (slice_to (sort_reverse snd scored) numplayers).

Definition aggregate_by_player_id (statistics : list (gmap string pyval))
  (playerid : string) (fields : list string)
  : result (list (pyval * gmap string pyval)) :=
  for_fold
    (fun res stat =>
       pid ← getitem stat playerid;
       res ← match od_lookup res pid with
             | Some _ => Ok res
             | None =>
                 for_fold
                   (fun res field =>
                      record ← od_getitem res pid;
                      Ok (od_store res pid (<[field := VInt 0]> record)))
                   (od_store res pid {[playerid := pid]}) fields
             end;
       for_fold
         (fun res field =>
            record ← od_getitem res pid;
            old ← getitem record field;
            v ← getitem stat field;
            n ← to_int v;
            new ← add_int old n;
            Ok (od_store res pid (<[field := new]> record)))
         res fields)
    [] statistics.

(** The table loader reads files; the rows that [csv.DictReader] yields
    for a file name, a separator and a quote character are a parameter
    of the functions that read. *)
Section Files.

Variable dict_reader :
  string -> string -> string -> result (list (gmap string pyval)).

Definition read_csv_as_list_dict (filename separator quote : string)
  : result (list (gmap string pyval)) :=
  rows ← dict_reader filename separator quote;
  for_fold (fun table row => Ok (table ++ [row])) [] rows.

Definition read_csv_as_nested_dict (filename keyfield separator quote : string)
  : result (gmap pyval (gmap string pyval)) :=
  rows ← dict_reader filename separator quote;
  for_fold
    (fun table row => key ← getitem row keyfield; Ok (<[key := row]> table))
    ∅ rows.

Definition lookup_player_names (info : gmap string string)
  (top_ids_and_stats : list (pyval * pynum)) : result (list string) :=
  filename ← getitem info "masterfile";
  keyfield ← getitem info "playerid";
  separator ← getitem info "separator";
  quote ← getitem info "quote";
  master ← read_csv_as_nested_dict filename keyfield separator quote;
  for_fold
    (fun texts '(pid, stat) =>
       entry ← getitem master pid;
       column ← getitem info "firstname";
       name_first ← getitem entry column;
       entry ← getitem master pid;
       column ← getitem info "lastname";
       name_last ← getitem entry column;
       shown ← format_3f stat;
       let text :=
         (shown ++ " --- " ++ to_str name_first ++ " " ++ to_str name_last)%string in
       Ok (texts ++ [text]))
    [] top_ids_and_stats.

Definition compute_top_stats_year (info : gmap string string)
  (formula : gmap string string -> gmap string pyval -> result pynum)
  (numplayers year : Z) : result (list string) :=
  filename ← getitem info "battingfile";
  separator ← getitem info "separator";
  quote ← getitem info "quote";
  stats ← read_csv_as_list_dict filename separator quote;
  yearid ← getitem info "yearid";
  yearly ← filter_by_year stats year yearid;
  top_ids ← top_player_ids info yearly formula numplayers;
  lookup_player_names info top_ids.

(** [info['battingfields']], the one entry of [info] that is a list, is
    passed as [battingfields]. *)
Definition compute_top_stats_career (info : gmap string string)
  (battingfields : list string)
  (formula : gmap string string -> gmap string pyval -> result pynum)
  (numplayers : Z) : result (list string) :=
  filename ← getitem info "battingfile";
  separator ← getitem info "separator";
  quote ← getitem info "quote";
  stats ← read_csv_as_list_dict filename separator quote;
  pid ← getitem info "playerid";
  agg ← aggregate_by_player_id stats pid battingfields;
  top_ids ← top_player_ids info (map snd agg) formula numplayers;
  lookup_player_names info top_ids.

End Files.

(** ** Vocabulary of the specification *)

#[global] Instance exn_eq_dec : EqDecision exn.
Proof. solve_decision. Defined.

#[global] Instance result_eq_dec {A : Type} `{EqDecision A} :
  EqDecision (result A).
Proof. solve_decision. Defined.

(** The three metric formulas. *)
Inductive metric : Type :=
  | BattingAverage
  | OnBase
  | Slugging.

Definition formula_of (m : metric)
  : gmap string string -> gmap string pyval -> result pynum :=
  match m with
  | BattingAverage => batting_average
  | OnBase => onbase_percentage
  | Slugging => slugging_percentage
  end.

(** The Field Map roles a formula reads, in the order it reads them. *)
Definition required_roles (m : metric) : list string :=
  match m with
  | BattingAverage => ["hits"; "atbats"]
  | OnBase => ["hits"; "atbats"; "walks"]
  | Slugging => ["hits"; "doubles"; "triples"; "homeruns"; "atbats"]
  end.

(** The parsed value of a statistic that parses. *)
Definition parsed (info : gmap string string)
  (batting_stats : gmap string pyval) (role : string) : float :=
  match stat_float info batting_stats role with
  | Ok x => x
  | Raise _ => S754_nan
  end.

(** The ratio of each formula, as the specification words it:
    [hits / at_bats], [(hits + walks) / (at_bats + walks)], and
    [(singles + 2 doubles + 3 triples + 4 home_runs) / at_bats] with
    [singles = hits - doubles - triples - home_runs]. *)
Definition singles_of (info : gmap string string)
  (batting_stats : gmap string pyval) : float :=
  fsub (fsub (fsub (parsed info batting_stats "hits")
                   (parsed info batting_stats "doubles"))
             (parsed info batting_stats "triples"))
       (parsed info batting_stats "homeruns").

Definition numerator (m : metric) (info : gmap string string)
  (batting_stats : gmap string pyval) : float :=
  match m with
  | BattingAverage => parsed info batting_stats "hits"
  | OnBase =>
      fadd (parsed info batting_stats "hits") (parsed info batting_stats "walks")
  | Slugging =>
      fadd (fadd (fadd (singles_of info batting_stats)
                       (fmul (float_lit 2) (parsed info batting_stats "doubles")))
                 (fmul (float_lit 3) (parsed info batting_stats "triples")))
           (fmul (float_lit 4) (parsed info batting_stats "homeruns"))
  end.

Definition denominator (m : metric) (info : gmap string string)
  (batting_stats : gmap string pyval) : float :=
  match m with
  | OnBase =>
      fadd (parsed info batting_stats "atbats") (parsed info batting_stats "walks")
  | _ => parsed info batting_stats "atbats"
  end.

(** Eligibility: [at_bats >= MINIMUM_AB], and its strict failure
    [at_bats < MINIMUM_AB]. *)
Definition eligible (info : gmap string string)
  (batting_stats : gmap string pyval) : bool :=
  num_ge (NFloat (parsed info batting_stats "atbats")) (NInt MINIMUM_AB).

Definition below_threshold (info : gmap string string)
  (batting_stats : gmap string pyval) : bool :=
  num_lt (NFloat (parsed info batting_stats "atbats")) (NInt MINIMUM_AB).

Definition parses (info : gmap string string)
  (batting_stats : gmap string pyval) (role : string) : Prop :=
  exists x, stat_float info batting_stats role = Ok x.

(** A number other than a float NaN. *)
Definition not_nan (x : pynum) : bool :=
  match x with
  | NFloat f => negb (is_nan f)
  | NInt _ => true
  end.

(** [entry] is the scored entry of the row [stat]: its player
    identifier paired with the score the formula returns for it. *)
Definition scored_as (info : gmap string string)
  (formula : gmap string string -> gmap string pyval -> result pynum)
  (pid_field : string) (stat : gmap string pyval) (entry : pyval * pynum)
  : Prop :=
  formula info stat = Ok entry.2 /\ stat !! pid_field = Some entry.1.

(** A score that is a finite float, or an integer that converts to
    one. *)
Definition finite_score (x : pynum) : bool :=
  match x with
  | NFloat f => is_finite f
  | NInt z =>
      match float_of_int z with
      | Ok f => is_finite f
      | Raise _ => false
      end
  end.

(** A rendering with exactly three digits after the decimal point: an
    optional minus sign, one digit or more, a point, three digits. *)
Fixpoint fixed3_tail (seen_digit : bool) (cs : list ascii) : bool :=
  match cs with
  | [] => false
  | c :: rest =>
      if is_digit c then fixed3_tail true rest
      else Ascii.eqb c "." && seen_digit &&
           match rest with
           | [a; b; d] => is_digit a && is_digit b && is_digit d
           | _ => false
           end
  end.

Definition three_decimals (s : string) : bool :=
  match list_ascii_of_string s with
  | [] => false
  | c :: cs =>
      if Ascii.eqb c "-" then fixed3_tail false cs
      else fixed3_tail false (c :: cs)
  end.

(** [line] is the text of a ranked entry: its score rendered with
    [.3f], then [" --- "], the first name, a space and the last name,
    the names being those of the entry's identifier in [master]. *)
Definition line_of (master : gmap pyval (gmap string pyval))
  (first_column last_column : string) (entry : pyval * pynum)
  (line : string) : Prop :=
  exists names first last shown,
    master !! entry.1 = Some names /\
    names !! first_column = Some first /\
    names !! last_column = Some last /\
    format_3f entry.2 = Ok shown /\
    line = (shown ++ " --- " ++ to_str first ++ " " ++ to_str last)%string.

(** [0 <= x] for a float [x], as Python evaluates it. *)
Definition nonnegative (x : float) : bool := num_le (NInt 0) (NFloat x).

(** A float whose sign bit is clear, or a zero: the structural form of
    [nonnegative]. *)
Definition sign_clear (x : float) : bool :=
  match x with
  | S754_zero _ | S754_finite false _ _ | S754_infinity false => true
  | _ => false
  end.

(** [int(stat[yearid])] *)
Definition year_of (yearid : string) (stat : gmap string pyval) : result Z :=
  v ← getitem stat yearid;
  to_int v.

(** The distinct elements of a list, in order of first appearance. *)
Fixpoint first_seen (l : list pyval) : list pyval :=
  match l with
  | [] => []
  | x :: l' => x :: filter (fun y => y <> x) (first_seen l')
  end.

(** The player identifiers of the rows, in row order. *)
Definition player_ids (statistics : list (gmap string pyval))
  (playerid : string) : list pyval :=
  omap (fun stat => stat !! playerid) statistics.

(** The integer a row holds in a field; 0 when it holds none. *)
Definition int_field (stat : gmap string pyval) (field : string) : Z :=
  match stat !! field with
  | Some v =>
      match to_int v with
      | Ok n => n
      | Raise _ => 0
      end
  | None => 0
  end.

Definition sum_list (l : list Z) : Z := foldr Z.add 0 l.

(** The rows of one player, and the sum of a field over them. *)
Definition rows_of (statistics : list (gmap string pyval))
  (playerid : string) (pid : pyval) : list (gmap string pyval) :=
  filter (fun stat => stat !! playerid = Some pid) statistics.

Definition field_sum (statistics : list (gmap string pyval))
  (playerid : string) (pid : pyval) (field : string) : Z :=
  sum_list (map (fun stat => int_field stat field)
              (rows_of statistics playerid pid)).

(** A row that [aggregate_by_player_id] can process: it has the player
    column, and each named field holds an integer or integer text. *)
Definition summable (playerid : string) (fields : list string)
  (stat : gmap string pyval) : Prop :=
  is_Some (stat !! playerid) /\
  Forall (fun field => exists v n, stat !! field = Some v /\ to_int v = Ok n)
         fields.

(** The closed forms of the two inner loops of
    [aggregate_by_player_id] on the record of one player. *)
Definition zero_fields (fields : list string) (record : gmap string pyval)
  : gmap string pyval :=
  fold_left (fun r field => <[field := VInt 0]> r) fields record.

Definition held_int (record : gmap string pyval) (field : string) : Z :=
  match record !! field with
  | Some (VInt z) => z
  | _ => 0
  end.

Definition add_fields (stat : gmap string pyval) (fields : list string)
  (record : gmap string pyval) : gmap string pyval :=
  fold_left
    (fun r field => <[field := VInt (held_int r field + int_field stat field)]> r)
    fields record.

(** ** Sample data *)

Definition sample_info : gmap string string :=
  list_to_map
    [("hits", "H"); ("atbats", "AB"); ("walks", "BB"); ("doubles", "2B");
     ("triples", "3B"); ("homeruns", "HR"); ("playerid", "playerID");
     ("yearid", "yearID"); ("firstname", "nameFirst");
     ("lastname", "nameLast"); ("masterfile", "Master.csv");
     ("battingfile", "Batting.csv"); ("separator", ","); ("quote", "'")].

Definition batting_row (pid year ab h bb d t hr : string)
  : gmap string pyval :=
  list_to_map
    [("playerID", VStr pid); ("yearID", VStr year); ("AB", VStr ab);
     ("H", VStr h); ("BB", VStr bb); ("2B", VStr d); ("3B", VStr t);
     ("HR", VStr hr)].

Definition master_row (pid first last : string) : gmap string pyval :=
  list_to_map
    [("playerID", VStr pid); ("nameFirst", VStr first);
     ("nameLast", VStr last)].

Definition sample_batting : list (gmap string pyval) :=
  [batting_row "p1" "2001" "600" "200" "50" "30" "5" "20";
   batting_row "p2" "2001" "400" "300" "0" "0" "0" "0";
   batting_row "p1" "2002" "300" "100" "10" "4" "1" "3";
   batting_row "p3" "2001" "550" "110" "40" "20" "2" "8"].

Definition sample_master : list (gmap string pyval) :=
  [master_row "p1" "Ann" "Lee"; master_row "p2" "Bo" "Ray";
   master_row "p3" "Cy" "Orr"].

Definition sample_reader (filename separator quote : string)
  : result (list (gmap string pyval)) :=
  if String.eqb filename "Master.csv" then Ok sample_master
  else if String.eqb filename "Batting.csv" then Ok sample_batting
  else Raise OSError.

(** The scored entries of [sample_batting] under [batting_average], in
    input order. *)
Definition sample_scored : list (pyval * pynum) :=
  [(VStr "p1", NFloat (fdiv (float_lit 200) (float_lit 600)));
   (VStr "p2", NInt 0);
   (VStr "p1", NInt 0);
   (VStr "p3", NFloat (fdiv (float_lit 110) (float_lit 550)))].

(** A master file whose header names its columns [first] and [last],
    not the [nameFirst] and [nameLast] of [sample_info]. *)
Definition other_header_reader (filename separator quote : string)
  : result (list (gmap string pyval)) :=
  if String.eqb filename "Master.csv"
  then Ok [list_to_map [("playerID", VStr "p1"); ("first", VStr "Ann");
                        ("last", VStr "Lee")]]
  else Raise OSError.

(** A ranked list over the sample master table. *)
Definition sample_ranked : list (pyval * pynum) :=
  [(VStr "p1", NFloat (fdiv (float_lit 200) (float_lit 600)));
   (VStr "p3", NFloat (fdiv (float_lit 110) (float_lit 550)));
   (VStr "p2", NInt 0)].

Definition sample_master_table : gmap pyval (gmap string pyval) :=
  list_to_map
    [(VStr "p1", master_row "p1" "Ann" "Lee");
     (VStr "p2", master_row "p2" "Bo" "Ray");
     (VStr "p3", master_row "p3" "Cy" "Orr")].

(** A ranked list whose second identifier is not in the sample master
    table. *)
Definition sample_ranked_missing : list (pyval * pynum) :=
  [(VStr "p1", NInt 0); (VStr "p7", NInt 0)].

(** The text with the given UTF-8 bytes. *)
Definition text_of_bytes (bytes : list Z) : string :=
  string_of_list_ascii (map (fun b => ascii_of_N (Z.to_N b)) bytes).

(** ** Vocabulary of the further properties *)

(** The rows of a table whose key column holds [key], in file order. *)
Definition rows_keyed (keyfield : string) (key : pyval)
  (rows : list (gmap string pyval)) : list (gmap string pyval) :=
  filter (fun row => row !! keyfield = Some key) rows.

(** The number of times a field is named. *)
Definition times_named (field : string) (fields : list string) : Z :=
  Z.of_nat (length (filter (fun g => g = field) fields)).

(** The sum of a field over all the rows. *)
Definition field_total (statistics : list (gmap string pyval))
  (field : string) : Z :=
  sum_list (map (fun stat => int_field stat field) statistics).

(** The error of the first statistic, in reading order, whose
    conversion fails. *)
Fixpoint first_error (info : gmap string string)
  (batting_stats : gmap string pyval) (roles : list string) : option exn :=
  match roles with
  | [] => None
  | role :: roles' =>
      match stat_float info batting_stats role with
      | Ok _ => first_error info batting_stats roles'
      | Raise e => Some e
      end
  end.

(** The columns a formula reads: those the Field Map gives for its
    roles. *)
Definition columns_read (m : metric) (info : gmap string string)
  : list string :=
  omap (fun role => info !! role) (required_roles m).

(** A master file that lists the identifier p1 twice. *)
Definition repeated_master : list (gmap string pyval) :=
  [master_row "p1" "Ann" "Lee"; master_row "p2" "Bo" "Ray";
   master_row "p1" "Anna" "Leigh"].

Definition repeated_reader (filename separator quote : string)
  : result (list (gmap string pyval)) :=
  if String.eqb filename "Master.csv" then Ok repeated_master
  else Raise OSError.

(** * Proofs *)

(** ** The result monad *)

Lemma bind_Ok {A B : Type} (m : result A) (f : A -> result B) (b : B) :
  m ≫= f = Ok b <-> exists a, m = Ok a /\ f a = Ok b.
Proof.
  destruct m as [a|e]; simpl; split.
  - intros H; exists a; auto.
  - intros (a' & Ha & Hf); congruence.
  - discriminate.
  - intros (a' & Ha & _); discriminate.
Qed.

Lemma fmap_Ok {A B : Type} (m : result A) (f : A -> B) (b : B) :
  f <$> m = Ok b <-> exists a, m = Ok a /\ b = f a.
Proof.
  destruct m as [a|e]; simpl; split.
  - intros H; exists a; split; congruence.
  - intros (a' & Ha & Hf); congruence.
  - discriminate.
  - intros (a' & Ha & _); discriminate.
Qed.

Lemma getitem_Ok {K V : Type} `{Countable K} (d : gmap K V) (k : K) (v : V) :
  getitem d k = Ok v <-> d !! k = Some v.
Proof. unfold getitem; destruct (d !! k); split; congruence. Qed.

Lemma getitem_Raise {K V : Type} `{Countable K} (d : gmap K V) (k : K) e :
  getitem d k = Raise e <-> d !! k = None /\ e = KeyError.
Proof.
  unfold getitem; destruct (d !! k); split; try congruence.
  - intros [? _]; congruence.
  - intros [=]; auto.
  - intros [_ ->]; reflexivity.
Qed.

(** ** The order on numbers *)

Lemma xle_refl x : xle x x = true.
Proof. destruct x; simpl; auto. apply Qle_bool_iff, Qle_refl. Qed.

Lemma xle_trans x y z : xle x y = true -> xle y z = true -> xle x z = true.
Proof.
  destruct x, y, z; simpl; auto; try discriminate.
  rewrite !Qle_bool_iff. apply Qle_trans.
Qed.

Lemma xle_total x y : xle x y = true \/ xle y x = true.
Proof.
  destruct x, y; simpl; auto.
  rewrite !Qle_bool_iff.
  destruct (Qlt_le_dec q q0) as [Hlt|Hle]; auto using Qlt_le_weak.
Qed.

Lemma num_le_val a b x y :
  num_val a = Some x -> num_val b = Some y -> num_le a b = xle x y.
Proof. unfold num_le; intros -> ->; reflexivity. Qed.

Lemma num_lt_val a b x y :
  num_val a = Some x -> num_val b = Some y -> num_lt a b = negb (xle y x).
Proof. unfold num_lt; intros -> ->; reflexivity. Qed.

Lemma num_le_comparable a b :
  num_le a b = true -> is_Some (num_val a) /\ is_Some (num_val b).
Proof.
  unfold num_le. destruct (num_val a), (num_val b); try discriminate; eauto.
Qed.

Lemma num_le_trans a b c :
  num_le a b = true -> num_le b c = true -> num_le a c = true.
Proof.
  unfold num_le.
  destruct (num_val a), (num_val b), (num_val c); try discriminate.
  apply xle_trans.
Qed.

Lemma num_lt_false_ge a b :
  is_Some (num_val a) -> is_Some (num_val b) ->
  num_lt a b = false -> num_le b a = true.
Proof.
  intros [x Hx] [y Hy]. rewrite (num_lt_val _ _ _ _ Hx Hy), (num_le_val _ _ _ _ Hy Hx).
  destruct (xle y x); auto.
Qed.

Lemma num_lt_true_le a b :
  num_lt a b = true -> num_le a b = true /\ num_le b a = false.
Proof.
  unfold num_lt, num_le.
  destruct (num_val a) as [x|], (num_val b) as [y|]; try discriminate.
  destruct (xle y x) eqn:E; try discriminate. intros _.
  destruct (xle_total x y); auto; congruence.
Qed.

(** ** Stable insertion sort *)

Lemma insert_by_perm {A : Type} (lt : A -> A -> bool) x l :
  insert_by lt x l ≡ₚ x :: l.
Proof.
  induction l as [|y l IH]; simpl; auto.
  destruct (lt x y); auto.
  rewrite IH. apply Permutation_swap.
Qed.

Lemma sort_by_acc_perm {A : Type} (lt : A -> A -> bool) l acc :
  fold_left (fun acc x => insert_by lt x acc) l acc ≡ₚ acc ++ l.
Proof.
  revert acc; induction l as [|x l IH]; intros acc; simpl.
  - by rewrite app_nil_r.
  - rewrite IH, insert_by_perm. simpl. apply Permutation_middle.
Qed.

Lemma sort_by_perm {A : Type} (lt : A -> A -> bool) l : sort_by lt l ≡ₚ l.
Proof. unfold sort_by. by rewrite sort_by_acc_perm. Qed.

Lemma sort_reverse_perm {A : Type} (key : A -> pynum) l :
  sort_reverse key l ≡ₚ l.
Proof.
  unfold sort_reverse. by rewrite reverse_Permutation, sort_by_perm, reverse_Permutation.
Qed.

Lemma filter_none {A : Type} (P : A -> Prop) `{forall x, Decision (P x)} l :
  Forall (fun x => ~ P x) l -> filter P l = [].
Proof.
  induction 1 as [|x l Hx Hl IH]; [reflexivity|].
  by rewrite filter_cons_False.
Qed.

Section StableSort.
Context {A : Type} (lt : A -> A -> bool) (le : A -> A -> Prop).
Context (dom : A -> Prop).
Hypothesis le_trans : forall x y z, le x y -> le y z -> le x z.
Hypothesis lt_false : forall x y, dom x -> dom y -> lt x y = false -> le y x.
Hypothesis lt_true :
  forall x y, dom x -> dom y -> lt x y = true -> le x y /\ ~ le y x.

Lemma insert_by_sorted x l :
  dom x -> Forall dom l -> StronglySorted le l ->
  StronglySorted le (insert_by lt x l).
Proof.
  intros Hx Hl Hs. induction Hs as [|y l Hs IH Hy]; simpl.
  - repeat constructor.
  - apply Forall_cons in Hl as [Hdy Hl].
    destruct (lt x y) eqn:E.
    + apply lt_true in E as [Hxy _]; auto.
      constructor; [by constructor|].
      constructor; auto.
      eapply Forall_impl; [exact Hy|]. intros z Hz. eauto.
    + apply lt_false in E; auto.
      constructor; auto.
      rewrite insert_by_perm. by constructor.
Qed.

(** A class of mutually equal elements: [P] holds of elements that are
    below one another. *)
Context (P : A -> Prop) `{forall x, Decision (P x)}.
Hypothesis P_le : forall x z, P x -> P z -> le z x.

Lemma insert_by_filter x l :
  dom x -> Forall dom l -> StronglySorted le l ->
  filter P (insert_by lt x l) = filter P l ++ filter P [x].
Proof.
  intros Hx Hl Hs. induction Hs as [|y l Hs IH Hy]; simpl; auto.
  apply Forall_cons in Hl as [Hdy Hl].
  destruct (lt x y) eqn:E.
  - apply lt_true in E as [Hxy Hyx]; auto.
    rewrite (filter_cons P x (y :: l)), (filter_cons P x []), filter_nil.
    destruct (decide (P x)) as [Px|Px]; [|by rewrite app_nil_r].
    assert (Hnone : filter P (y :: l) = []).
    { apply filter_none. constructor.
      - intros Py. apply Hyx. by apply P_le.
      - eapply Forall_impl; [exact Hy|]. intros z Hz Pz.
        apply Hyx. apply le_trans with z; auto. }
    by rewrite Hnone.
  - rewrite !(filter_cons P y). destruct (decide (P y)); simpl; rewrite IH; auto.
Qed.

Lemma sort_by_acc_spec l acc :
  Forall dom l -> Forall dom acc -> StronglySorted le acc ->
  StronglySorted le (fold_left (fun acc x => insert_by lt x acc) l acc) /\
  filter P (fold_left (fun acc x => insert_by lt x acc) l acc)
  = filter P acc ++ filter P l.
Proof.
  revert acc; induction l as [|x l IH]; intros acc Hl Hacc Hs; simpl.
  - by rewrite app_nil_r.
  - apply Forall_cons in Hl as [Hx Hl].
    destruct (IH (insert_by lt x acc)) as [IH1 IH2]; auto.
    + rewrite insert_by_perm. by constructor.
    + by apply insert_by_sorted.
    + split; auto. rewrite IH2, insert_by_filter; auto.
      rewrite <- app_assoc. f_equal.
      change (x :: l) with ([x] ++ l). by rewrite filter_app.
Qed.

Lemma sort_by_spec l :
  Forall dom l ->
  StronglySorted le (sort_by lt l) /\ filter P (sort_by lt l) = filter P l.
Proof.
  intros Hl. destruct (sort_by_acc_spec l []) as [H1 H2]; auto; constructor.
Qed.
End StableSort.

Lemma StronglySorted_reverse {A : Type} (R : A -> A -> Prop) l :
  StronglySorted R l -> StronglySorted (flip R) (reverse l).
Proof.
  induction 1 as [|x l Hs IH Hx]; [constructor|].
  rewrite reverse_cons. apply StronglySorted_app_2; auto.
  - intros y z Hy Hz. apply list_elem_of_singleton in Hz as ->.
    rewrite elem_of_reverse in Hy. unfold flip.
    rewrite Forall_forall in Hx. auto.
  - repeat constructor.
Qed.

(** ** The metric formulas *)

Lemma parsed_Ok info row role x :
  stat_float info row role = Ok x -> parsed info row role = x.
Proof. unfold parsed; intros ->; reflexivity. Qed.

Lemma below_threshold_not_eligible info row :
  below_threshold info row = true -> eligible info row = false.
Proof.
  unfold below_threshold, eligible, num_ge. intros H.
  by apply num_lt_true_le in H as [_ H].
Qed.

(** At-bats of at least 500 are not zero. *)
Lemma eligible_nonzero info row :
  eligible info row = true -> is_zero (parsed info row "atbats") = false.
Proof.
  unfold eligible. destruct (parsed info row "atbats"); try reflexivity.
  intros H; vm_compute in H; discriminate H.
Qed.

Ltac parse_roles H :=
  repeat match type of H with
    | Forall _ (_ :: _) =>
        let Hx := fresh "Hrole" in
        apply Forall_cons in H as [[? Hx] H];
        try rewrite (parsed_Ok _ _ _ _ Hx) in *
    end.

Ltac show_parses :=
  match goal with
  | |- parses ?i ?r ?role => exists (parsed i r role); vm_compute; reflexivity
  end.

Ltac each_role tac :=
  unfold required_roles;
  repeat (apply List.Forall_cons; [tac|]); apply List.Forall_nil.

(** With all its statistics parsed, a formula is the gate on at-bats
    followed by the division of its ratio. *)
Lemma formula_of_parsed (m : metric) info row :
  Forall (parses info row) (required_roles m) ->
  formula_of m info row
  = if eligible info row
    then NFloat <$> truediv (numerator m info row) (denominator m info row)
    else Ok (NInt 0).
Proof.
  intros Hparse.
  destruct m; simpl in Hparse;
    unfold eligible, numerator, denominator, singles_of;
    parse_roles Hparse; simpl;
    unfold batting_average, onbase_percentage, slugging_percentage;
    repeat match goal with
      | Hx : stat_float _ _ _ = Ok _ |- _ => rewrite Hx; clear Hx
      end; simpl; reflexivity.
Qed.

(** C1 (amended).  For every row whose required statistics all parse:
    with parsed at-bats below 500 each of the three formulas returns
    exactly the integer 0; with parsed at-bats of at least 500 it returns
    the float ratio of the formula, the denominator of batting average
    and slugging percentage then being non-zero, while on-base
    percentage raises [ZeroDivisionError] when [at_bats + walks] is
    zero. *)
Theorem formula_threshold (m : metric) info row :
  Forall (parses info row) (required_roles m) ->
  (below_threshold info row = true -> formula_of m info row = Ok (NInt 0)) /\
  (eligible info row = true ->
   (m <> OnBase -> is_zero (denominator m info row) = false) /\
   (is_zero (denominator m info row) = false ->
    formula_of m info row
    = Ok (NFloat (fdiv (numerator m info row) (denominator m info row)))) /\
   (is_zero (denominator m info row) = true ->
    formula_of m info row = Raise ZeroDivisionError)).
Proof.
  intros Hparse. rewrite (formula_of_parsed m info row Hparse). split.
  - intros Hlow. by rewrite (below_threshold_not_eligible _ _ Hlow).
  - intros Hel. rewrite Hel.
    split; [destruct m; simpl; auto using eligible_nonzero; congruence|].
    unfold truediv. split; intros ->; reflexivity.
Qed.

Lemma formula_threshold_witness :
  Forall (parses sample_info
            (batting_row "p1" "2001" "600" "200" "50" "30" "5" "20"))
         (required_roles OnBase) /\
  onbase_percentage sample_info
    (batting_row "p1" "2001" "600" "200" "50" "30" "5" "20")
  = Ok (NFloat (S754_finite false 6928614811339225 (-54))).
Proof.
  assert (Hp : Forall (parses sample_info
                         (batting_row "p1" "2001" "600" "200" "50" "30" "5" "20"))
                      (required_roles OnBase)).
  { each_role ltac:(idtac; show_parses). }
  split; [exact Hp|].
  destruct (formula_threshold OnBase _ _ Hp) as [_ Hge].
  destruct Hge as (_ & Hratio & _); [vm_compute; reflexivity|].
  simpl in Hratio. rewrite Hratio; [|vm_compute; reflexivity].
  vm_compute. reflexivity.
Defined.

(** C1 as stated fails: a row below the threshold whose hits do not
    parse makes [batting_average] raise instead of returning 0, and a
    row with 600 at-bats and -600 walks makes [onbase_percentage] raise
    instead of returning a ratio. *)
Lemma formula_threshold_counterexample :
  below_threshold sample_info
    (batting_row "p9" "2001" "100" "n/a" "0" "0" "0" "0") = true /\
  batting_average sample_info
    (batting_row "p9" "2001" "100" "n/a" "0" "0" "0" "0") = Raise ValueError /\
  eligible sample_info
    (batting_row "p9" "2001" "600" "1" "-600" "0" "0" "0") = true /\
  onbase_percentage sample_info
    (batting_row "p9" "2001" "600" "1" "-600" "0" "0" "0")
  = Raise ZeroDivisionError.
Proof. vm_compute. repeat split. Qed.

(** C10.  Each formula converts all the statistics it needs before it
    tests eligibility: when the conversion of any needed statistic
    fails, the formula fails, whatever the at-bats are; and when every
    needed statistic either parses or is unparseable text, the failure
    is [ValueError]. *)
Theorem formula_parses_before_gate (m : metric) info row :
  Exists (fun role => exists e, stat_float info row role = Raise e)
         (required_roles m) ->
  (exists e, formula_of m info row = Raise e) /\
  (Forall (fun role => parses info row role \/
                       stat_float info row role = Raise ValueError)
          (required_roles m) ->
   formula_of m info row = Raise ValueError).
Proof.
  intros Hex. split.
  - destruct m; simpl in *;
      unfold batting_average, onbase_percentage, slugging_percentage;
      repeat match goal with
        | |- context [stat_float info row ?r] =>
            destruct (stat_float info row r) as [?|?] eqn:?; simpl; [|by eauto]
        end;
      exfalso;
      repeat match goal with
        | H : Exists _ (_ :: _) |- _ => apply Exists_cons in H as [[? H]|H]
        | H : Exists _ [] |- _ => by apply Exists_nil in H
        end; congruence.
  - intros Hall.
    destruct m; simpl in *;
      unfold batting_average, onbase_percentage, slugging_percentage;
      repeat match goal with
        | H : Forall _ (_ :: _) |- _ => apply Forall_cons in H as [? H]
        end;
      repeat match goal with
        | H : parses _ _ _ \/ _ |- _ => destruct H as [[? H]|H]
        end;
      repeat match goal with
        | H : stat_float _ _ ?r = _ |- context [stat_float _ _ ?r] => rewrite H
        end; simpl; try reflexivity;
      exfalso;
      repeat match goal with
        | H : Exists _ (_ :: _) |- _ => apply Exists_cons in H as [[? H]|H]
        | H : Exists _ [] |- _ => by apply Exists_nil in H
        end; congruence.
Qed.

Lemma formula_parses_before_gate_witness :
  below_threshold sample_info
    (batting_row "p9" "2001" "100" "20" "0" "two" "0" "0") = true /\
  Exists (fun role =>
            exists e,
              stat_float sample_info
                (batting_row "p9" "2001" "100" "20" "0" "two" "0" "0") role
              = Raise e)
         (required_roles Slugging) /\
  slugging_percentage sample_info
    (batting_row "p9" "2001" "100" "20" "0" "two" "0" "0") = Raise ValueError.
Proof.
  assert (Hex : Exists (fun role =>
                   exists e,
                     stat_float sample_info
                       (batting_row "p9" "2001" "100" "20" "0" "two" "0" "0") role
                     = Raise e)
                  (required_roles Slugging)).
  { apply Exists_cons_tl, Exists_cons_hd. exists ValueError.
    vm_compute. reflexivity. }
  split; [vm_compute; reflexivity|]. split; [exact Hex|].
  apply (formula_parses_before_gate Slugging _ _ Hex).
  each_role
    ltac:(idtac; first [right; vm_compute; reflexivity | left; show_parses]).
Defined.

(** ** The year filter *)

Lemma filter_by_year_acc (year : Z) (yearid : string)
  (stats acc : list (gmap string pyval)) :
  Forall (fun stat => exists y, year_of yearid stat = Ok y) stats ->
  for_fold
    (fun res stat =>
       v ← getitem stat yearid;
       y ← to_int v;
       Ok (if y =? year then res ++ [stat] else res))
    acc stats
  = Ok (acc ++ filter (fun stat => year_of yearid stat = Ok year) stats).
Proof.
  intros Hall. revert acc.
  induction Hall as [|stat stats [y Hy] Hall IH]; intros acc; simpl.
  - by rewrite app_nil_r.
  - rewrite filter_cons. rewrite Hy.
    unfold year_of in Hy. apply bind_Ok in Hy as (v & Hv & Hint).
    rewrite Hv; simpl. rewrite Hint; simpl. rewrite IH.
    destruct (Z.eqb_spec y year) as [->|Hne].
    + rewrite decide_True by reflexivity. by rewrite <- app_assoc.
    + rewrite decide_False by congruence. reflexivity.
Qed.

(** C7.  When the year column of every row parses as an integer,
    [filter_by_year] returns exactly the rows whose parsed year equals
    the target year, in their original order. *)
Theorem filter_by_year_subsequence (stats : list (gmap string pyval))
  (year : Z) (yearid : string) :
  Forall (fun stat => exists y, year_of yearid stat = Ok y) stats ->
  filter_by_year stats year yearid
  = Ok (filter (fun stat => year_of yearid stat = Ok year) stats).
Proof. intros Hall. unfold filter_by_year. by rewrite filter_by_year_acc. Qed.

Lemma filter_by_year_subsequence_witness :
  Forall (fun stat => exists y, year_of "yearID" stat = Ok y) sample_batting /\
  filter_by_year sample_batting 2001 "yearID"
  = Ok [batting_row "p1" "2001" "600" "200" "50" "30" "5" "20";
        batting_row "p2" "2001" "400" "300" "0" "0" "0" "0";
        batting_row "p3" "2001" "550" "110" "40" "20" "2" "8"].
Proof.
  assert (Hp : Forall (fun stat => exists y, year_of "yearID" stat = Ok y)
                 sample_batting).
  { repeat (apply List.Forall_cons;
            [first [by exists 2001 | by exists 2002]|]).
    apply List.Forall_nil. }
  split; [exact Hp|].
  rewrite (filter_by_year_subsequence _ 2001 _ Hp). reflexivity.
Defined.

(** ** The ranker *)

Lemma not_nan_val x : not_nan x = true <-> is_Some (num_val x).
Proof.
  destruct x as [z|[]]; simpl; split; eauto; try discriminate.
  intros [? [=]].
Qed.

Lemma num_eq_le (a b : pynum) :
  num_eq a b = true <-> num_le a b = true /\ num_le b a = true.
Proof. unfold num_eq. apply andb_true_iff. Qed.

(** Sorting with [reverse=True] on keys that are not NaN: the result is
    non-increasing, and the elements of each class of equal keys keep
    their order. *)
Lemma sort_reverse_spec {A : Type} (key : A -> pynum) (l : list A) :
  Forall (fun x => not_nan (key x) = true) l ->
  StronglySorted (fun a b => num_ge (key a) (key b) = true) (sort_reverse key l) /\
  forall k, filter (fun x => num_eq (key x) k = true) (sort_reverse key l)
            = filter (fun x => num_eq (key x) k = true) l.
Proof.
  intros Hl. unfold sort_reverse.
  assert (Hrev : Forall (fun x => is_Some (num_val (key x))) (reverse l)).
  { apply Forall_reverse. eapply Forall_impl; [exact Hl|].
    intros x Hx. by apply not_nan_val. }
  pose (le := fun a b : A => num_le (key a) (key b) = true).
  assert (Hspec : forall k,
             StronglySorted le
               (sort_by (fun a b => num_lt (key a) (key b)) (reverse l)) /\
             filter (fun x => num_eq (key x) k = true)
               (sort_by (fun a b => num_lt (key a) (key b)) (reverse l))
             = filter (fun x => num_eq (key x) k = true) (reverse l)).
  { intros k.
    apply (sort_by_spec _ le (fun x => is_Some (num_val (key x)))); auto.
    - intros x y z. apply num_le_trans.
    - intros x y Hx Hy. by apply num_lt_false_ge.
    - intros x y _ _ Hlt. apply num_lt_true_le in Hlt as [H1 H2].
      split; [exact H1|]. unfold le. congruence.
    - intros x z Hx%num_eq_le Hz%num_eq_le. unfold le.
      apply num_le_trans with k; tauto. }
  split.
  - destruct (Hspec (NInt 0)) as [Hs _].
    apply StronglySorted_reverse in Hs. exact Hs.
  - intros k. destruct (Hspec k) as [_ Hf].
    by rewrite filter_reverse, Hf, <- filter_reverse, reverse_involutive.
Qed.

Lemma slice_to_take {A : Type} (l : list A) (n : Z) :
  exists k, slice_to l n = take k l.
Proof. unfold slice_to. destruct (0 <=? n); eauto. Qed.

Lemma scoring_loop info formula pid_field
  (stats : list (gmap string pyval)) (scored acc : list (pyval * pynum)) :
  Forall2 (scored_as info formula pid_field) stats scored ->
  for_fold
    (fun scored stat =>
       score ← formula info stat;
       pid ← getitem stat pid_field;
       Ok (scored ++ [(pid, score)]))
    acc stats
  = Ok (acc ++ scored).
Proof.
  intros Hall. revert acc.
  induction Hall as [|stat [pid score] stats scored [Hs Hp] Hall IH];
    intros acc; simpl in *.
  - by rewrite app_nil_r.
  - rewrite Hs; simpl. apply getitem_Ok in Hp. rewrite Hp; simpl.
    rewrite IH. by rewrite <- app_assoc.
Qed.

Lemma top_player_ids_Ok info pid_field stats formula scored n :
  info !! "playerid" = Some pid_field ->
  Forall2 (scored_as info formula pid_field) stats scored ->
  top_player_ids info stats formula n
  = Ok (slice_to (sort_reverse snd scored) n).
Proof.
  intros Hi Hall. unfold top_player_ids.
  apply getitem_Ok in Hi. rewrite Hi; simpl.
  by rewrite (scoring_loop _ _ _ _ scored).
Qed.

(** C2 (amended).  When every row is scored and no score is a NaN, the
    list returned by [top_player_ids] is non-increasing by score, and
    for each score the returned entries with that score are, in order,
    the first of the input's entries with that score. *)
Theorem top_player_ids_sorted_stable info pid_field stats formula scored n :
  info !! "playerid" = Some pid_field ->
  Forall2 (scored_as info formula pid_field) stats scored ->
  Forall (fun entry => not_nan entry.2 = true) scored ->
  exists ranked,
    top_player_ids info stats formula n = Ok ranked /\
    StronglySorted (fun a b => num_ge a.2 b.2 = true) ranked /\
    forall s,
      filter (fun entry => num_eq entry.2 s = true) ranked
      `prefix_of` filter (fun entry => num_eq entry.2 s = true) scored.
Proof.
  intros Hi Hall Hnan.
  exists (slice_to (sort_reverse snd scored) n).
  split; [by apply top_player_ids_Ok with pid_field|].
  destruct (sort_reverse_spec snd scored Hnan) as [Hsorted Hstable].
  destruct (slice_to_take (sort_reverse snd scored) n) as [k ->].
  split.
  - rewrite <- (take_drop k (sort_reverse snd scored)) in Hsorted.
    by apply StronglySorted_app_1_l in Hsorted.
  - intros s. rewrite <- Hstable.
    rewrite <- (take_drop k (sort_reverse snd scored)) at 2.
    rewrite filter_app. by apply prefix_app_r.
Qed.

Lemma sample_playerid : sample_info !! "playerid" = Some "playerID".
Proof. vm_compute. reflexivity. Defined.

Lemma sample_scored_as :
  Forall2 (scored_as sample_info batting_average "playerID")
    sample_batting sample_scored.
Proof.
  repeat (apply List.Forall2_cons; [split; vm_compute; reflexivity|]).
  apply List.Forall2_nil.
Defined.

Lemma top_player_ids_sorted_stable_witness :
  sample_info !! "playerid" = Some "playerID" /\
  Forall2 (scored_as sample_info batting_average "playerID")
    sample_batting sample_scored /\
  Forall (fun entry => not_nan entry.2 = true) sample_scored /\
  exists ranked,
    top_player_ids sample_info sample_batting batting_average 3 = Ok ranked /\
    StronglySorted (fun a b => num_ge a.2 b.2 = true) ranked /\
    forall s,
      filter (fun entry => num_eq entry.2 s = true) ranked
      `prefix_of` filter (fun entry => num_eq entry.2 s = true) sample_scored.
Proof.
  assert (Hnan : Forall (fun entry => not_nan entry.2 = true) sample_scored).
  { repeat (apply List.Forall_cons; [vm_compute; reflexivity|]).
    apply List.Forall_nil. }
  split; [exact sample_playerid|].
  split; [exact sample_scored_as|].
  split; [exact Hnan|].
  exact (top_player_ids_sorted_stable _ _ _ _ _ 3
           sample_playerid sample_scored_as Hnan).
Defined.

(** C2 as stated fails: a row whose hits are the text [nan] gets a NaN
    score, and the returned list is then not non-increasing, in whatever
    order its two entries are put. *)
Lemma top_player_ids_sorted_counterexample :
  top_player_ids sample_info
    [batting_row "p1" "2001" "600" "200" "0" "0" "0" "0";
     batting_row "p2" "2001" "600" "nan" "0" "0" "0" "0"]
    batting_average 2
  = Ok [(VStr "p1", NFloat (S754_finite false 6004799503160661 (-54)));
        (VStr "p2", NFloat S754_nan)] /\
  num_ge (NFloat (S754_finite false 6004799503160661 (-54))) (NFloat S754_nan)
  = false /\
  num_ge (NFloat S754_nan) (NFloat (S754_finite false 6004799503160661 (-54)))
  = false.
Proof. vm_compute. repeat split. Qed.

Lemma length_sort_reverse {A : Type} (key : A -> pynum) (l : list A) :
  length (sort_reverse key l) = length l.
Proof. apply Permutation_length, sort_reverse_perm. Qed.

(** C3 (amended).  When every row is scored and the count [n] is not
    negative, [top_player_ids] returns [min n (number of scored entries)]
    entries, one scored entry being made per row; it returns the empty
    list for [n = 0] and all the scored entries, each as often as it was
    scored, when [n] is at least the number of rows. *)
Theorem top_player_ids_length info pid_field stats formula scored n :
  info !! "playerid" = Some pid_field ->
  Forall2 (scored_as info formula pid_field) stats scored ->
  0 <= n ->
  exists ranked,
    top_player_ids info stats formula n = Ok ranked /\
    length scored = length stats /\
    Z.of_nat (length ranked) = Z.min n (Z.of_nat (length scored)) /\
    (n = 0 -> ranked = []) /\
    (Z.of_nat (length stats) <= n -> ranked ≡ₚ scored).
Proof.
  intros Hi Hall Hn.
  exists (slice_to (sort_reverse snd scored) n).
  split; [by apply top_player_ids_Ok with pid_field|].
  pose proof (Forall2_length _ _ _ Hall) as Hlen.
  split; [by symmetry|].
  unfold slice_to. apply Z.leb_le in Hn as Hn'. rewrite Hn'.
  split; [|split].
  - rewrite length_take, length_sort_reverse. lia.
  - intros ->. reflexivity.
  - intros Hbig. rewrite take_ge by (rewrite length_sort_reverse; lia).
    apply sort_reverse_perm.
Qed.

Lemma top_player_ids_length_witness :
  sample_info !! "playerid" = Some "playerID" /\
  Forall2 (scored_as sample_info batting_average "playerID")
    sample_batting sample_scored /\
  0 <= 3 /\
  exists ranked,
    top_player_ids sample_info sample_batting batting_average 3 = Ok ranked /\
    length sample_scored = length sample_batting /\
    Z.of_nat (length ranked) = Z.min 3 (Z.of_nat (length sample_scored)) /\
    (3 = 0 -> ranked = []) /\
    (Z.of_nat (length sample_batting) <= 3 -> ranked ≡ₚ sample_scored).
Proof.
  split; [exact sample_playerid|].
  split; [exact sample_scored_as|].
  split; [lia|].
  apply (top_player_ids_length _ _ _ _ _ 3 sample_playerid sample_scored_as).
  lia.
Defined.

(** C3 as stated fails: it speaks of every input collection, but a
    collection with a row that cannot be scored (here the hits are no
    number) makes [top_player_ids] raise, also for the count 0, where
    the empty list is claimed. *)
Lemma top_player_ids_length_counterexample :
  top_player_ids sample_info
    [batting_row "p1" "2001" "600" "200" "0" "0" "0" "0";
     batting_row "p2" "2001" "600" "n/a" "0" "0" "0" "0"]
    batting_average 0
  = Raise ValueError /\
  top_player_ids sample_info
    [batting_row "p1" "2001" "600" "200" "0" "0" "0" "0";
     batting_row "p2" "2001" "600" "n/a" "0" "0" "0" "0"]
    batting_average 0
  <> Ok [].
Proof. vm_compute. split; [reflexivity|discriminate]. Qed.

(** C9 (amended).  When every row is scored, no score is a NaN and the
    count [n] is negative, [top_player_ids] returns the sorted scored
    entries without their last [|n|] entries: the returned entries
    followed by [min |n| (number of entries)] dropped ones are the
    scored entries, each as often as it was scored, in non-increasing
    order of score, the entries of equal score in their input order.
    With more than [|n|] rows the result is not empty. *)
Theorem top_player_ids_negative_count info pid_field stats formula scored n :
  info !! "playerid" = Some pid_field ->
  Forall2 (scored_as info formula pid_field) stats scored ->
  Forall (fun entry => not_nan entry.2 = true) scored ->
  n < 0 ->
  exists ranked dropped,
    top_player_ids info stats formula n = Ok ranked /\
    ranked ++ dropped ≡ₚ scored /\
    StronglySorted (fun a b => num_ge a.2 b.2 = true) (ranked ++ dropped) /\
    (forall s,
       filter (fun entry => num_eq entry.2 s = true) (ranked ++ dropped)
       = filter (fun entry => num_eq entry.2 s = true) scored) /\
    Z.of_nat (length dropped) = Z.min (- n) (Z.of_nat (length scored)) /\
    (- n < Z.of_nat (length stats) -> ranked <> []).
Proof.
  intros Hi Hall Hnan Hn.
  pose proof (Forall2_length _ _ _ Hall) as Hlen.
  destruct (sort_reverse_spec snd scored Hnan) as [Hsorted Hstable].
  pose proof (sort_reverse_perm snd scored) as Hperm.
  pose proof (length_sort_reverse snd scored) as Hls.
  revert Hsorted Hstable Hperm Hls.
  generalize (top_player_ids_Ok info pid_field stats formula scored n Hi Hall).
  generalize (sort_reverse snd scored). intros sorted Hok Hsorted Hstable Hperm Hls.
  set (k := (length sorted - Z.to_nat (- n))%nat).
  exists (take k sorted), (drop k sorted).
  assert (Hsl : slice_to sorted n = take k sorted).
  { unfold slice_to. destruct (Z.leb_spec 0 n); [lia|reflexivity]. }
  rewrite take_drop.
  split; [by rewrite <- Hsl|].
  split; [exact Hperm|].
  split; [exact Hsorted|].
  split; [exact Hstable|].
  split.
  - rewrite length_drop. unfold k. lia.
  - intros Hmore Hnil. apply (f_equal length) in Hnil.
    rewrite length_take in Hnil. simpl in Hnil. unfold k in Hnil. lia.
Qed.

Lemma top_player_ids_negative_count_witness :
  sample_info !! "playerid" = Some "playerID" /\
  Forall2 (scored_as sample_info batting_average "playerID")
    sample_batting sample_scored /\
  Forall (fun entry => not_nan entry.2 = true) sample_scored /\
  -1 < 0 /\
  exists ranked dropped,
    top_player_ids sample_info sample_batting batting_average (-1)
    = Ok ranked /\
    ranked ++ dropped ≡ₚ sample_scored /\
    StronglySorted (fun a b => num_ge a.2 b.2 = true) (ranked ++ dropped) /\
    (forall s,
       filter (fun entry => num_eq entry.2 s = true) (ranked ++ dropped)
       = filter (fun entry => num_eq entry.2 s = true) sample_scored) /\
    Z.of_nat (length dropped) = Z.min (- -1) (Z.of_nat (length sample_scored)) /\
    (- -1 < Z.of_nat (length sample_batting) -> ranked <> []).
Proof.
  assert (Hnan : Forall (fun entry => not_nan entry.2 = true) sample_scored).
  { repeat (apply List.Forall_cons; [vm_compute; reflexivity|]).
    apply List.Forall_nil. }
  split; [exact sample_playerid|].
  split; [exact sample_scored_as|].
  split; [exact Hnan|].
  split; [lia|].
  apply (top_player_ids_negative_count _ _ _ _ _ (-1)
           sample_playerid sample_scored_as Hnan).
  lia.
Defined.

(** C9 as stated fails: it speaks of every input collection.  A row
    that cannot be scored makes [top_player_ids] raise; and a row whose
    hits are the text [nan] is scored with a NaN, which compares with no
    score, so that the entries returned for the count -1 begin with the
    NaN entry and are in no order of score. *)
Lemma top_player_ids_negative_count_counterexample :
  top_player_ids sample_info
    [batting_row "p1" "2001" "600" "200" "0" "0" "0" "0";
     batting_row "p2" "2001" "600" "n/a" "0" "0" "0" "0"]
    batting_average (-1)
  = Raise ValueError /\
  top_player_ids sample_info
    [batting_row "p1" "2001" "600" "nan" "0" "0" "0" "0";
     batting_row "p2" "2001" "600" "120" "0" "0" "0" "0";
     batting_row "p3" "2001" "600" "200" "0" "0" "0" "0"]
    batting_average (-1)
  = Ok [(VStr "p1", NFloat S754_nan);
        (VStr "p3", NFloat (S754_finite false 6004799503160661 (-54)))] /\
  num_ge (NFloat S754_nan) (NFloat (S754_finite false 6004799503160661 (-54)))
  = false.
Proof. vm_compute. repeat split. Qed.

Example top_player_ids_negative_count_sample :
  top_player_ids sample_info sample_batting batting_average (-1)
  = Ok [(VStr "p1", NFloat (S754_finite false 6004799503160661 (-54)));
        (VStr "p3", NFloat (S754_finite false 7205759403792794 (-55)));
        (VStr "p2", NInt 0)].
Proof. vm_compute. reflexivity. Qed.

(** ** Loops that append *)

Lemma for_fold_snoc {A B : Type} (f : list B -> A -> result (list B))
  (R : A -> B -> Prop) (xs : list A) (ys acc : list B) :
  (forall acc x y, R x y -> f acc x = Ok (acc ++ [y])) ->
  Forall2 R xs ys ->
  for_fold f acc xs = Ok (acc ++ ys).
Proof.
  intros Hf Hall. revert acc.
  induction Hall as [|x y xs ys Hxy Hall IH]; intros acc; simpl.
  - by rewrite app_nil_r.
  - rewrite (Hf _ _ _ Hxy); simpl. rewrite IH. by rewrite <- app_assoc.
Qed.

Lemma for_fold_raise {A S : Type} (f : S -> A -> result S)
  (bad : A -> Prop) (e : exn) (xs : list A) (acc : S) :
  (forall acc x, bad x -> f acc x = Raise e) ->
  (forall acc x, ~ bad x -> In x xs -> exists acc', f acc x = Ok acc') ->
  (forall x, bad x \/ ~ bad x) ->
  Exists bad xs ->
  for_fold f acc xs = Raise e.
Proof.
  intros Hbad Hgood Hdec Hex. revert acc.
  induction xs as [|x xs IH]; intros acc.
  - by apply Exists_nil in Hex.
  - simpl. destruct (Hdec x) as [Hx|Hx].
    + by rewrite Hbad.
    + destruct (Hgood acc x Hx) as [acc' Hacc]; [by left|].
      rewrite Hacc; simpl. apply IH.
      * intros acc0 x0 Hx0 Hin. apply Hgood; auto. by right.
      * apply Exists_cons in Hex as [Hex|Hex]; [contradiction|exact Hex].
Qed.

(** ** Rendering with three decimals *)

Lemma list_ascii_of_string_app (s t : string) :
  list_ascii_of_string (s ++ t)
  = list_ascii_of_string s ++ list_ascii_of_string t.
Proof. induction s as [|c s IH]; simpl; [reflexivity|by rewrite IH]. Qed.

Lemma digits_of_uint (d : Decimal.uint) :
  Forall (fun c => is_digit c = true)
    (list_ascii_of_string (NilEmpty.string_of_uint d)).
Proof. induction d; simpl; constructor; auto. Qed.

Lemma dec_of_N_digits (n : N) :
  Forall (fun c => is_digit c = true) (list_ascii_of_string (dec_of_N n)) /\
  list_ascii_of_string (dec_of_N n) <> [].
Proof.
  unfold dec_of_N, NilZero.string_of_uint.
  destruct (N.to_uint n); (split; [|discriminate]);
    first [apply digits_of_uint | repeat constructor].
Qed.

Lemma is_digit_not_minus (c : ascii) :
  is_digit c = true -> Ascii.eqb c "-" = false.
Proof.
  intros Hc. destruct (Ascii.eqb_spec c "-") as [->|]; [discriminate|reflexivity].
Qed.

Lemma is_digit_digit_char (d : Z) :
  0 <= d < 10 -> is_digit (digit_char d) = true.
Proof.
  intros Hd.
  assert (Hcase : d = 0 \/ d = 1 \/ d = 2 \/ d = 3 \/ d = 4 \/ d = 5 \/ d = 6 \/
                  d = 7 \/ d = 8 \/ d = 9) by lia.
  repeat destruct Hcase as [->|Hcase]; try subst d; reflexivity.
Qed.

Lemma fixed3_tail_digits (ds : list ascii) (a b d : ascii) (seen : bool) :
  Forall (fun c => is_digit c = true) ds ->
  seen = true \/ ds <> [] ->
  is_digit a = true -> is_digit b = true -> is_digit d = true ->
  fixed3_tail seen (ds ++ "."%char :: [a; b; d]) = true.
Proof.
  intros Hds. revert seen.
  induction Hds as [|c ds Hc Hds IH]; intros seen Hseen Ha Hb Hd; simpl.
  - destruct Hseen as [->|]; [|congruence]. by rewrite Ha, Hb, Hd.
  - rewrite Hc. apply IH; auto.
Qed.

Lemma three_decimals_fixed3 (neg : bool) (n : Z) :
  0 <= n -> three_decimals (fixed3 neg n) = true.
Proof.
  intros Hn. unfold three_decimals, fixed3.
  rewrite !list_ascii_of_string_app.
  destruct (dec_of_N_digits (Z.to_N (n / 1000))) as [Hds Hne].
  assert (Htail : fixed3_tail false
            (list_ascii_of_string (dec_of_N (Z.to_N (n / 1000))) ++
             "."%char :: [digit_char (n / 100 mod 10);
                          digit_char (n / 10 mod 10); digit_char (n mod 10)])
            = true).
  { apply fixed3_tail_digits; auto;
      apply is_digit_digit_char, Z.mod_pos_bound; lia. }
  destruct neg; simpl.
  - exact Htail.
  - destruct (list_ascii_of_string (dec_of_N (Z.to_N (n / 1000))))
      as [|c cs] eqn:E; [congruence|].
    simpl. apply Forall_cons in Hds as [Hc _].
    rewrite (is_digit_not_minus _ Hc). exact Htail.
Qed.

Lemma thousandths_nonneg (m : positive) (e : Z) : 0 <= thousandths m e.
Proof.
  unfold thousandths. destruct (0 <=? e) eqn:E.
  - apply Z.leb_le in E. pose proof (Z.pow_nonneg 2 e). nia.
  - unfold div_half_even.
    assert (0 < 2 ^ (- e)) by (apply Z.pow_pos_nonneg; lia).
    assert (0 <= Z.pos m * 1000 / 2 ^ (- e)) by (apply Z.div_pos; lia).
    destruct (2 * ((Z.pos m * 1000) mod 2 ^ (- e)) ?= 2 ^ (- e)); try lia.
    destruct (Z.even _); lia.
Qed.

Lemma three_decimals_finite (f : float) :
  is_finite f = true -> three_decimals (format_float_3f f) = true.
Proof.
  destruct f; simpl; try discriminate; intros _.
  - by apply three_decimals_fixed3.
  - apply three_decimals_fixed3, thousandths_nonneg.
Qed.

Lemma three_decimals_score (x : pynum) :
  finite_score x = true ->
  exists shown, format_3f x = Ok shown /\ three_decimals shown = true.
Proof.
  destruct x as [z|f]; simpl.
  - destruct (float_of_int z) as [f|]; [|discriminate].
    intros Hf. eexists; split; [reflexivity|by apply three_decimals_finite].
  - intros Hf. eexists; split; [reflexivity|by apply three_decimals_finite].
Qed.

(** ** The name resolver *)

Lemma Forall_Forall2_exists {A B : Type} (R : A -> B -> Prop) (xs : list A) :
  Forall (fun x => exists y, R x y) xs -> exists ys, Forall2 R xs ys.
Proof.
  induction 1 as [|x xs [y Hy] _ [ys IH]].
  - exists []. constructor.
  - exists (y :: ys). by constructor.
Qed.

Section Resolver.
Variable reader :
  string -> string -> string -> result (list (gmap string pyval)).
Variables (info : gmap string string) (master : gmap pyval (gmap string pyval)).
Variables filename keyfield separator quote fcol lcol : string.
Hypothesis Hfile : info !! "masterfile" = Some filename.
Hypothesis Hkey : info !! "playerid" = Some keyfield.
Hypothesis Hsep : info !! "separator" = Some separator.
Hypothesis Hquote : info !! "quote" = Some quote.
Hypothesis Hfirst : info !! "firstname" = Some fcol.
Hypothesis Hlast : info !! "lastname" = Some lcol.
Hypothesis Hmaster :
  read_csv_as_nested_dict reader filename keyfield separator quote = Ok master.

Lemma lookup_player_names_loop ranked :
  exists step,
    lookup_player_names reader info ranked = for_fold step [] ranked /\
    (forall acc entry line,
        line_of master fcol lcol entry line ->
        step acc entry = Ok (acc ++ [line])) /\
    (forall acc entry, master !! entry.1 = None -> step acc entry = Raise KeyError).
Proof.
  unfold lookup_player_names.
  apply getitem_Ok in Hfile, Hkey, Hsep, Hquote, Hfirst, Hlast.
  rewrite Hfile; simpl. rewrite Hkey; simpl. rewrite Hsep; simpl.
  rewrite Hquote; simpl. rewrite Hmaster; simpl.
  eexists; split; [reflexivity|]. split.
  - intros acc [pid stat] line (names & first & last & shown & Hn & Hf & Hl & Hs & ->).
    simpl in *. apply getitem_Ok in Hn, Hf, Hl.
    rewrite Hn; simpl. rewrite Hfirst; simpl. rewrite Hf; simpl.
    rewrite Hlast; simpl. rewrite Hl; simpl. rewrite Hs; simpl. reflexivity.
  - intros acc [pid stat] Hnone. simpl in *.
    assert (getitem master pid = Raise KeyError) as ->
      by (unfold getitem; by rewrite Hnone).
    reflexivity.
Qed.

Lemma lookup_player_names_Ok ranked lines :
  Forall2 (line_of master fcol lcol) ranked lines ->
  lookup_player_names reader info ranked = Ok lines.
Proof.
  intros Hall. destruct (lookup_player_names_loop ranked) as (step & -> & Hok & _).
  by rewrite (for_fold_snoc step _ ranked lines [] Hok Hall).
Qed.

Lemma line_of_exists entry :
  (exists names, master !! entry.1 = Some names /\
                 is_Some (names !! fcol) /\ is_Some (names !! lcol)) ->
  (exists shown, format_3f entry.2 = Ok shown) ->
  exists line, line_of master fcol lcol entry line.
Proof.
  intros (names & Hn & [first Hf] & [last Hl]) [shown Hs].
  eexists. exists names, first, last, shown. eauto.
Qed.
End Resolver.

(** C6 (amended).  When the Field Map names the master file and the
    name columns, every identifier of the ranked list is in the name
    lookup table with both names, and every score is finite,
    [lookup_player_names] returns one line per entry, in the same
    order: the score with exactly three digits after the decimal point,
    then [" --- "], the first name, a space and the last name. *)
Theorem lookup_player_names_lines reader info master
  filename keyfield separator quote fcol lcol ranked :
  info !! "masterfile" = Some filename ->
  info !! "playerid" = Some keyfield ->
  info !! "separator" = Some separator ->
  info !! "quote" = Some quote ->
  info !! "firstname" = Some fcol ->
  info !! "lastname" = Some lcol ->
  read_csv_as_nested_dict reader filename keyfield separator quote = Ok master ->
  Forall (fun entry : pyval * pynum =>
            exists names, master !! entry.1 = Some names /\
                          is_Some (names !! fcol) /\ is_Some (names !! lcol))
         ranked ->
  Forall (fun entry : pyval * pynum => finite_score entry.2 = true) ranked ->
  exists lines,
    lookup_player_names reader info ranked = Ok lines /\
    Forall2 (fun entry line =>
               line_of master fcol lcol entry line /\
               exists shown, format_3f entry.2 = Ok shown /\
                             three_decimals shown = true)
            ranked lines.
Proof.
  intros Hfile Hkey Hsep Hquote Hfirst Hlast Hmaster Hids Hfin.
  assert (Hall : Forall (fun entry : pyval * pynum =>
                    exists line,
                      line_of master fcol lcol entry line /\
                      exists shown, format_3f entry.2 = Ok shown /\
                                    three_decimals shown = true) ranked).
  { rewrite Forall_forall in Hids, Hfin. apply Forall_forall.
    intros entry Hin.
    destruct (three_decimals_score _ (Hfin _ Hin)) as (shown & Hs & H3).
    destruct (line_of_exists master fcol lcol entry (Hids _ Hin)) as [line Hl];
      eauto. }
  apply Forall_Forall2_exists in Hall as [lines Hlines].
  exists lines. split; [|exact Hlines].
  eapply lookup_player_names_Ok; eauto.
  eapply Forall2_impl; [exact Hlines|]. by intros ? ? [? _].
Qed.

Lemma sample_master_read :
  read_csv_as_nested_dict sample_reader "Master.csv" "playerID" "," "'"
  = Ok sample_master_table.
Proof. vm_compute. reflexivity. Defined.

Ltac show_is_Some :=
  match goal with
  | |- is_Some ?o =>
      let v := eval vm_compute in o in
      match v with
      | Some ?x => exists x; vm_compute; reflexivity
      end
  end.

Ltac show_named :=
  match goal with
  | |- exists names, ?m !! ?k = Some names /\ _ =>
      let v := eval vm_compute in (m !! k) in
      match v with
      | Some ?x =>
          exists x; split; [vm_compute; reflexivity|split; show_is_Some]
      end
  end.

Lemma sample_ranked_named :
  Forall (fun entry : pyval * pynum =>
            exists names, sample_master_table !! entry.1 = Some names /\
                          is_Some (names !! "nameFirst") /\
                          is_Some (names !! "nameLast"))
         sample_ranked.
Proof.
  unfold sample_ranked.
  repeat (apply List.Forall_cons; [simpl; show_named|]).
  apply List.Forall_nil.
Defined.

Lemma lookup_player_names_lines_witness :
  sample_info !! "masterfile" = Some "Master.csv" /\
  sample_info !! "playerid" = Some "playerID" /\
  sample_info !! "separator" = Some "," /\
  sample_info !! "quote" = Some "'" /\
  sample_info !! "firstname" = Some "nameFirst" /\
  sample_info !! "lastname" = Some "nameLast" /\
  read_csv_as_nested_dict sample_reader "Master.csv" "playerID" "," "'"
  = Ok sample_master_table /\
  Forall (fun entry : pyval * pynum => finite_score entry.2 = true)
    sample_ranked /\
  exists lines,
    lookup_player_names sample_reader sample_info sample_ranked = Ok lines /\
    Forall2 (fun entry line =>
               line_of sample_master_table "nameFirst" "nameLast" entry line /\
               exists shown, format_3f entry.2 = Ok shown /\
                             three_decimals shown = true)
            sample_ranked lines.
Proof.
  assert (Hfin : Forall (fun entry : pyval * pynum => finite_score entry.2 = true)
                   sample_ranked).
  { repeat (apply List.Forall_cons; [vm_compute; reflexivity|]).
    apply List.Forall_nil. }
  repeat (split; [first [exact sample_master_read | exact Hfin
                        | vm_compute; reflexivity]|]).
  apply (lookup_player_names_lines sample_reader sample_info sample_master_table
           "Master.csv" "playerID" "," "'" "nameFirst" "nameLast");
    first [exact sample_master_read | exact sample_ranked_named | exact Hfin
          | vm_compute; reflexivity].
Defined.

Example lookup_player_names_sample :
  lookup_player_names sample_reader sample_info sample_ranked
  = Ok ["0.333 --- Ann Lee"; "0.200 --- Cy Orr"; "0.000 --- Bo Ray"].
Proof. vm_compute. reflexivity. Qed.

(** C6 as stated fails: a NaN score is rendered [nan], an infinite one
    [inf], with no digit after a decimal point. *)
Lemma lookup_player_names_lines_counterexample :
  lookup_player_names sample_reader sample_info
    [(VStr "p1", NFloat S754_nan); (VStr "p2", NFloat (S754_infinity false))]
  = Ok ["nan --- Ann Lee"; "inf --- Bo Ray"] /\
  three_decimals "nan" = false /\
  three_decimals "inf" = false.
Proof. vm_compute. repeat split. Qed.

(** C8 (amended).  When the Field Map names the master file and the
    name columns, every row of the name lookup table has both name
    columns and every score can be rendered, [lookup_player_names]
    raises [KeyError] if and only if some identifier of the ranked list
    is absent from the name lookup table, and otherwise returns the
    formatted lines. *)
Theorem lookup_player_names_key_error reader info master
  filename keyfield separator quote fcol lcol ranked :
  info !! "masterfile" = Some filename ->
  info !! "playerid" = Some keyfield ->
  info !! "separator" = Some separator ->
  info !! "quote" = Some quote ->
  info !! "firstname" = Some fcol ->
  info !! "lastname" = Some lcol ->
  read_csv_as_nested_dict reader filename keyfield separator quote = Ok master ->
  (forall pid names, master !! pid = Some names ->
                     is_Some (names !! fcol) /\ is_Some (names !! lcol)) ->
  Forall (fun entry : pyval * pynum => exists shown, format_3f entry.2 = Ok shown)
    ranked ->
  (lookup_player_names reader info ranked = Raise KeyError <->
   Exists (fun entry : pyval * pynum => master !! entry.1 = None) ranked) /\
  (~ Exists (fun entry : pyval * pynum => master !! entry.1 = None) ranked ->
   exists lines,
     lookup_player_names reader info ranked = Ok lines /\
     Forall2 (line_of master fcol lcol) ranked lines).
Proof.
  intros Hfile Hkey Hsep Hquote Hfirst Hlast Hmaster Hnames Hfmt.
  assert (Hpresent :
            ~ Exists (fun entry : pyval * pynum => master !! entry.1 = None) ranked ->
            exists lines,
              lookup_player_names reader info ranked = Ok lines /\
              Forall2 (line_of master fcol lcol) ranked lines).
  { intros Hno.
    assert (Hall : Forall (fun entry => exists line,
                             line_of master fcol lcol entry line) ranked).
    { rewrite Forall_forall in Hfmt. apply Forall_forall. intros entry Hin.
      apply line_of_exists; [|by apply Hfmt].
      destruct (master !! entry.1) as [names|] eqn:E.
      - exists names. split; [reflexivity|]. by apply Hnames with entry.1.
      - exfalso. apply Hno. apply Exists_exists. eauto. }
    apply Forall_Forall2_exists in Hall as [lines Hlines].
    exists lines. split; [|exact Hlines].
    eapply lookup_player_names_Ok; eauto. }
  split; [|exact Hpresent].
  split.
  - intros Hraise.
    destruct (decide (Exists (fun entry : pyval * pynum =>
                                master !! entry.1 = None) ranked))
      as [Hex|Hno]; [exact Hex|].
    destruct (Hpresent Hno) as (lines & Hok & _). congruence.
  - intros Hex.
    destruct (lookup_player_names_loop reader info master filename keyfield
                separator quote fcol lcol Hfile Hkey Hsep Hquote Hfirst Hlast
                Hmaster ranked) as (step & -> & Hok & Hbad).
    apply (for_fold_raise step
             (fun entry : pyval * pynum => master !! entry.1 = None));
      auto.
    + intros acc entry Hsome Hin.
      destruct (master !! entry.1) as [names|] eqn:E; [|congruence].
      rewrite Forall_forall in Hfmt.
      destruct (line_of_exists master fcol lcol entry) as [line Hline].
      * exists names. split; [exact E|]. by apply Hnames with entry.1.
      * apply Hfmt. by apply list_elem_of_In.
      * exists (acc ++ [line]). by apply Hok.
    + intros entry. destruct (master !! entry.1); [right|left]; congruence.
Qed.

Lemma sample_master_names pid names :
  sample_master_table !! pid = Some names ->
  is_Some (names !! "nameFirst") /\ is_Some (names !! "nameLast").
Proof.
  intros Hin. apply elem_of_list_to_map_2 in Hin.
  repeat (apply elem_of_cons in Hin as [[= -> ->]|Hin];
          [split; show_is_Some|]).
  by apply elem_of_nil in Hin.
Defined.

Lemma lookup_player_names_key_error_witness :
  sample_info !! "masterfile" = Some "Master.csv" /\
  sample_info !! "playerid" = Some "playerID" /\
  sample_info !! "separator" = Some "," /\
  sample_info !! "quote" = Some "'" /\
  sample_info !! "firstname" = Some "nameFirst" /\
  sample_info !! "lastname" = Some "nameLast" /\
  read_csv_as_nested_dict sample_reader "Master.csv" "playerID" "," "'"
  = Ok sample_master_table /\
  Forall (fun entry : pyval * pynum => exists shown, format_3f entry.2 = Ok shown)
    sample_ranked_missing /\
  Exists (fun entry : pyval * pynum => sample_master_table !! entry.1 = None)
    sample_ranked_missing /\
  lookup_player_names sample_reader sample_info sample_ranked_missing
  = Raise KeyError.
Proof.
  assert (Hfmt : Forall (fun entry : pyval * pynum =>
                           exists shown, format_3f entry.2 = Ok shown)
                   sample_ranked_missing).
  { repeat (apply List.Forall_cons; [by exists "0.000"|]).
    apply List.Forall_nil. }
  assert (Hex : Exists (fun entry : pyval * pynum =>
                          sample_master_table !! entry.1 = None)
                  sample_ranked_missing).
  { apply Exists_cons_tl, Exists_cons_hd. vm_compute. reflexivity. }
  repeat (split; [first [exact sample_master_read | exact Hfmt | exact Hex
                        | vm_compute; reflexivity]|]).
  apply (lookup_player_names_key_error sample_reader sample_info
           sample_master_table "Master.csv" "playerID" "," "'"
           "nameFirst" "nameLast" sample_ranked_missing);
    first [exact sample_master_read | exact sample_master_names | exact Hfmt
          | exact Hex | vm_compute; reflexivity].
Defined.

(** C8 as stated fails: with a master file whose header lacks the
    configured first-name column, the only identifier of the ranked
    list is in the name lookup table and [lookup_player_names] raises
    [KeyError] all the same. *)
Lemma lookup_player_names_key_error_counterexample :
  (master ← read_csv_as_nested_dict other_header_reader
              "Master.csv" "playerID" "," "'";
   Ok (bool_decide (is_Some (master !! VStr "p1")))) = Ok true /\
  lookup_player_names other_header_reader sample_info [(VStr "p1", NInt 0)]
  = Raise KeyError.
Proof. vm_compute. split; reflexivity. Qed.

(** ** Insertion-ordered dictionaries *)

Section OrderedDict.
Context {V : Type}.
Implicit Types (d : list (pyval * V)) (k : pyval) (v : V).

Lemma od_lookup_store d k v k' :
  od_lookup (od_store d k v) k'
  = if decide (k = k') then Some v else od_lookup d k'.
Proof.
  induction d as [|[k0 v0] d IH]; simpl.
  - destruct (decide (k = k')); reflexivity.
  - destruct (decide (k0 = k)) as [->|Hne]; simpl.
    + destruct (decide (k = k')); reflexivity.
    + rewrite IH. destruct (decide (k0 = k')) as [->|]; [|reflexivity].
      by rewrite decide_False by congruence.
Qed.

Lemma od_store_store d k v v' :
  od_store (od_store d k v) k v' = od_store d k v'.
Proof.
  induction d as [|[k0 v0] d IH]; simpl.
  - by rewrite decide_True.
  - destruct (decide (k0 = k)) as [->|Hne]; simpl.
    + by rewrite decide_True.
    + rewrite decide_False by done. by rewrite IH.
Qed.

Lemma od_store_id d k v : od_lookup d k = Some v -> od_store d k v = d.
Proof.
  induction d as [|[k0 v0] d IH]; simpl; [discriminate|].
  destruct (decide (k0 = k)) as [->|Hne].
  - by intros [= ->].
  - intros H. by rewrite IH.
Qed.

Lemma od_lookup_None d k : od_lookup d k = None <-> k ∉ d.*1.
Proof.
  induction d as [|[k0 v0] d IH]; simpl.
  - split; [intros _; apply not_elem_of_nil|reflexivity].
  - rewrite not_elem_of_cons.
    destruct (decide (k0 = k)) as [->|Hne]; split; try discriminate.
    + intros [? _]; congruence.
    + intros H. split; [congruence|by apply IH].
    + intros [_ H]. by apply IH.
Qed.

Lemma od_store_keys d k v :
  (od_store d k v).*1
  = match od_lookup d k with
    | Some _ => d.*1
    | None => d.*1 ++ [k]
    end.
Proof.
  induction d as [|[k0 v0] d IH]; [reflexivity|].
  cbn [od_store od_lookup].
  destruct (decide (k0 = k)) as [->|Hne]; [reflexivity|].
  rewrite !fmap_cons, IH. by destruct (od_lookup d k).
Qed.

Lemma od_lookup_elem d k v :
  NoDup d.*1 -> (k, v) ∈ d -> od_lookup d k = Some v.
Proof.
  induction d as [|[k0 v0] d IH]; simpl; intros Hnd Hin.
  - by apply elem_of_nil in Hin.
  - apply NoDup_cons in Hnd as [Hk0 Hnd].
    apply elem_of_cons in Hin as [[= -> ->]|Hin].
    + by rewrite decide_True.
    + destruct (decide (k0 = k)) as [->|Hne]; [|by apply IH].
      exfalso. apply Hk0. apply list_elem_of_fmap. by exists (k, v).
Qed.
Lemma od_getitem_Ok d k v : od_lookup d k = Some v -> od_getitem d k = Ok v.
Proof. unfold od_getitem. by intros ->. Qed.
End OrderedDict.

(** ** First appearances *)

Lemma first_seen_elem (l : list pyval) (x : pyval) :
  x ∈ first_seen l <-> x ∈ l.
Proof.
  induction l as [|y l IH]; simpl; [reflexivity|].
  rewrite !elem_of_cons, list_elem_of_filter, IH.
  destruct (decide (x = y)); tauto.
Qed.

Lemma first_seen_NoDup (l : list pyval) : NoDup (first_seen l).
Proof.
  induction l as [|y l IH]; simpl; constructor.
  - rewrite list_elem_of_filter. intros [Hne _]. by apply Hne.
  - by apply NoDup_filter.
Qed.

Lemma first_seen_snoc (l : list pyval) (x : pyval) :
  first_seen (l ++ [x])
  = if decide (x ∈ l) then first_seen l else first_seen l ++ [x].
Proof.
  induction l as [|y l IH].
  - destruct (decide (x ∈ [])) as [Hin|_]; [|reflexivity].
    by apply elem_of_nil in Hin.
  - cbn [app first_seen]. rewrite IH.
    destruct (decide (x ∈ l)) as [Hin|Hnin];
      destruct (decide (x ∈ y :: l)) as [Hin'|Hnin'];
      rewrite ?elem_of_cons in *; try reflexivity.
    + exfalso. apply Hnin'. by right.
    + destruct Hin' as [->|]; [|contradiction].
      rewrite filter_app, filter_cons, filter_nil.
      rewrite decide_False by (intros H; by apply H).
      by rewrite app_nil_r.
    + rewrite filter_app, filter_cons, filter_nil.
      rewrite decide_True by (intros ->; apply Hnin'; by left).
      reflexivity.
Qed.

Lemma first_seen_length (l : list pyval) :
  length (first_seen l) = size (list_to_set (C := gset pyval) l).
Proof.
  rewrite <- (size_list_to_set (C := gset pyval) (first_seen l))
    by apply first_seen_NoDup.
  f_equal. apply set_eq. intros x.
  by rewrite !elem_of_list_to_set, first_seen_elem.
Qed.

(** ** The aggregator *)

Lemma zero_fields_lookup (fields : list string) (record : gmap string pyval)
  (field : string) :
  zero_fields fields record !! field
  = if decide (field ∈ fields) then Some (VInt 0) else record !! field.
Proof.
  unfold zero_fields. revert record.
  induction fields as [|g fields IH]; intros record; simpl.
  - destruct (decide (field ∈ [])) as [Hin|_]; [|reflexivity].
    by apply elem_of_nil in Hin.
  - rewrite IH.
    destruct (decide (field ∈ fields)) as [Hin|Hnin];
      destruct (decide (field ∈ g :: fields)) as [Hin'|Hnin'];
      rewrite ?elem_of_cons in *; try reflexivity.
    + exfalso. apply Hnin'. by right.
    + destruct Hin' as [->|]; [|contradiction]. by rewrite lookup_insert_eq.
    + rewrite lookup_insert_ne; [reflexivity|].
      intros ->. apply Hnin'. by left.
Qed.

Lemma add_fields_lookup (stat : gmap string pyval) (fields : list string)
  (record : gmap string pyval) (field : string) :
  NoDup fields ->
  add_fields stat fields record !! field
  = if decide (field ∈ fields)
    then Some (VInt (held_int record field + int_field stat field))
    else record !! field.
Proof.
  unfold add_fields. intros Hnd. revert record.
  induction Hnd as [|g fields Hg Hnd IH]; intros record; simpl.
  - destruct (decide (field ∈ [])) as [Hin|_]; [|reflexivity].
    by apply elem_of_nil in Hin.
  - rewrite IH.
    destruct (decide (field ∈ fields)) as [Hin|Hnin];
      destruct (decide (field ∈ g :: fields)) as [Hin'|Hnin'];
      rewrite ?elem_of_cons in *; try reflexivity.
    + assert (g <> field) by (intros ->; contradiction).
      unfold held_int. by rewrite lookup_insert_ne.
    + exfalso. apply Hnin'. by right.
    + destruct Hin' as [->|]; [|contradiction]. by rewrite lookup_insert_eq.
    + rewrite lookup_insert_ne; [reflexivity|].
      intros ->. apply Hnin'. by left.
Qed.

Lemma zero_fields_dom (fields : list string) (record : gmap string pyval) :
  dom (zero_fields fields record) = list_to_set fields ∪ dom record.
Proof.
  unfold zero_fields. revert record.
  induction fields as [|g fields IH]; intros record; simpl.
  - set_solver.
  - rewrite IH, dom_insert_L. set_solver.
Qed.

Lemma add_fields_dom (stat : gmap string pyval) (fields : list string)
  (record : gmap string pyval) :
  dom (add_fields stat fields record) = list_to_set fields ∪ dom record.
Proof.
  unfold add_fields. revert record.
  induction fields as [|g fields IH]; intros record; simpl.
  - set_solver.
  - rewrite IH, dom_insert_L. set_solver.
Qed.

Lemma zero_loop (pid : pyval) (fields : list string)
  (d : list (pyval * gmap string pyval)) (record : gmap string pyval) :
  od_lookup d pid = Some record ->
  for_fold
    (fun res field =>
       record ← od_getitem res pid;
       Ok (od_store res pid (<[field := VInt 0]> record)))
    d fields
  = Ok (od_store d pid (zero_fields fields record)).
Proof.
  revert d record. induction fields as [|g fields IH]; intros d record Hd; simpl.
  - by rewrite od_store_id.
  - rewrite (od_getitem_Ok _ _ _ Hd); simpl.
    rewrite (IH _ (<[g := VInt 0]> record)).
    + by rewrite od_store_store.
    + rewrite od_lookup_store. by rewrite decide_True.
Qed.

Lemma add_loop (stat : gmap string pyval) (pid : pyval) (fields : list string)
  (d : list (pyval * gmap string pyval)) (record : gmap string pyval) :
  od_lookup d pid = Some record ->
  Forall (fun field => exists v n, stat !! field = Some v /\ to_int v = Ok n)
         fields ->
  Forall (fun field => exists z, record !! field = Some (VInt z)) fields ->
  for_fold
    (fun res field =>
       record ← od_getitem res pid;
       old ← getitem record field;
       v ← getitem stat field;
       n ← to_int v;
       new ← add_int old n;
       Ok (od_store res pid (<[field := new]> record)))
    d fields
  = Ok (od_store d pid (add_fields stat fields record)).
Proof.
  intros Hd Hstat. revert d record Hd.
  induction Hstat as [|g fields (v & n & Hv & Hn) Hstat IH];
    intros d record Hd Hrec; simpl.
  - by rewrite od_store_id.
  - apply Forall_cons in Hrec as [[z Hz] Hrec].
    rewrite (od_getitem_Ok _ _ _ Hd); simpl.
    apply getitem_Ok in Hz as Hz', Hv as Hv'.
    rewrite Hz'; simpl. rewrite Hv'; simpl. rewrite Hn; simpl.
    assert (Hstep : held_int record g + int_field stat g = z + n).
    { unfold held_int, int_field. by rewrite Hz, Hv, Hn. }
    unfold add_fields; simpl. rewrite Hstep.
    rewrite (IH _ (<[g := VInt (z + n)]> record)).
    + by rewrite od_store_store.
    + rewrite od_lookup_store. by rewrite decide_True.
    + eapply Forall_impl; [exact Hrec|]. intros f [zf Hf].
      destruct (decide (g = f)) as [->|Hne].
      * rewrite lookup_insert_eq. eauto.
      * rewrite lookup_insert_ne by done. eauto.
Qed.

(** The record a row is added to: the player's record so far, or a
    fresh one with every field at 0. *)
Lemma aggregate_by_player_id_step (playerid : string) (fields : list string)
  (statistics : list (gmap string pyval)) :
  exists step,
    aggregate_by_player_id statistics playerid fields
    = for_fold step [] statistics /\
    forall res stat pid,
      stat !! playerid = Some pid ->
      Forall (fun field => exists v n, stat !! field = Some v /\ to_int v = Ok n)
             fields ->
      (forall record,
          od_lookup res pid = Some record ->
          Forall (fun field => exists z, record !! field = Some (VInt z)) fields) ->
      step res stat
      = Ok (od_store res pid
              (add_fields stat fields
                 (match od_lookup res pid with
                  | Some record => record
                  | None => zero_fields fields {[playerid := pid]}
                  end))).
Proof.
  eexists. split; [reflexivity|].
  intros res stat pid Hpid Hstat Hint. cbv beta.
  apply getitem_Ok in Hpid. rewrite Hpid; simpl.
  destruct (od_lookup res pid) as [record|] eqn:Hres; simpl.
  - by apply add_loop; auto.
  - rewrite (zero_loop pid fields _ {[playerid := pid]}); simpl.
    + rewrite (add_loop stat pid fields _ (zero_fields fields {[playerid := pid]}));
        auto.
      * by rewrite !od_store_store.
      * rewrite od_lookup_store. by rewrite decide_True.
      * apply Forall_forall. intros f Hf. exists 0.
        rewrite zero_fields_lookup. by rewrite decide_True.
    + rewrite od_lookup_store. by rewrite decide_True.
Qed.

Lemma for_fold_invariant {A S : Type} (f : S -> A -> result S)
  (I : list A -> S -> Prop) (xs : list A) (acc : S) :
  I [] acc ->
  (forall done x acc,
      I done acc -> x ∈ xs ->
      exists acc', f acc x = Ok acc' /\ I (done ++ [x]) acc') ->
  exists r, for_fold f acc xs = Ok r /\ I xs r.
Proof.
  intros Hinit Hstep.
  assert (Hgen : forall rest done acc,
             I done acc -> (forall x, x ∈ rest -> x ∈ xs) ->
             exists r, for_fold f acc rest = Ok r /\ I (done ++ rest) r).
  { induction rest as [|x rest IH]; intros done acc0 Hacc Hsub; simpl.
    - exists acc0. by rewrite app_nil_r.
    - destruct (Hstep done x acc0 Hacc) as (acc' & Hf & Hacc').
      { apply Hsub. by left. }
      rewrite Hf; simpl.
      destruct (IH (done ++ [x]) acc' Hacc') as (r & Hr & HI).
      { intros y Hy. apply Hsub. by right. }
      exists r. split; [exact Hr|]. by rewrite <- app_assoc in HI. }
  apply (Hgen xs [] acc Hinit). auto.
Qed.

Lemma sum_list_app (l1 l2 : list Z) :
  sum_list (l1 ++ l2) = sum_list l1 + sum_list l2.
Proof. unfold sum_list. induction l1; simpl; lia. Qed.

Lemma player_ids_snoc (done : list (gmap string pyval)) (playerid : string)
  (stat : gmap string pyval) (pid : pyval) :
  stat !! playerid = Some pid ->
  player_ids (done ++ [stat]) playerid = player_ids done playerid ++ [pid].
Proof. intros H. unfold player_ids. rewrite omap_app. simpl. by rewrite H. Qed.

Lemma rows_of_absent (done : list (gmap string pyval)) (playerid : string)
  (pid : pyval) :
  pid ∉ player_ids done playerid -> rows_of done playerid pid = [].
Proof.
  intros Hnin. apply filter_none. apply Forall_forall. intros stat Hin Hpid.
  apply Hnin. apply list_elem_of_omap. eauto.
Qed.

Lemma field_sum_snoc (done : list (gmap string pyval)) (playerid : string)
  (stat : gmap string pyval) (pid pid' : pyval) (field : string) :
  stat !! playerid = Some pid ->
  field_sum (done ++ [stat]) playerid pid' field
  = field_sum done playerid pid' field
    + (if decide (pid = pid') then int_field stat field else 0).
Proof.
  intros H. unfold field_sum, rows_of.
  rewrite filter_app, map_app, sum_list_app. f_equal.
  rewrite filter_cons, filter_nil.
  destruct (decide (pid = pid')) as [->|Hne].
  - rewrite decide_True by done. unfold sum_list; simpl. lia.
  - rewrite decide_False by congruence. reflexivity.
Qed.

(** C4 (amended).  For a list of distinct field names and rows that all
    have the player column and hold integers in the named fields,
    [aggregate_by_player_id] returns one record per distinct player
    identifier, in order of first appearance; each record has exactly
    the player-id key and the named fields, each named field holding
    the sum of that field over the rows of that player, and the
    player-id key holding the identifier unless it is itself a named
    field. *)
Theorem aggregate_by_player_id_sums (statistics : list (gmap string pyval))
  (playerid : string) (fields : list string) :
  NoDup fields ->
  Forall (summable playerid fields) statistics ->
  exists res,
    aggregate_by_player_id statistics playerid fields = Ok res /\
    res.*1 = first_seen (player_ids statistics playerid) /\
    length res
    = size (list_to_set (C := gset pyval) (player_ids statistics playerid)) /\
    forall pid record,
      (pid, record) ∈ res ->
      dom record = {[playerid]} ∪ list_to_set fields /\
      (forall field,
          field ∈ fields ->
          record !! field
          = Some (VInt (field_sum statistics playerid pid field))) /\
      (playerid ∉ fields -> record !! playerid = Some pid).
Proof.
  intros Hnd Hall.
  destruct (aggregate_by_player_id_step playerid fields statistics)
    as (step & -> & Hstep).
  pose (I := fun (done : list (gmap string pyval))
                 (res : list (pyval * gmap string pyval)) =>
               res.*1 = first_seen (player_ids done playerid) /\
               forall pid record,
                 od_lookup res pid = Some record ->
                 dom record = {[playerid]} ∪ list_to_set fields /\
                 (forall field,
                     field ∈ fields ->
                     record !! field
                     = Some (VInt (field_sum done playerid pid field))) /\
                 (playerid ∉ fields -> record !! playerid = Some pid)).
  destruct (for_fold_invariant step I statistics []) as (res & Hres & Hkeys & Hrec).
  { split; [reflexivity|]. intros pid record [=]. }
  { intros done stat res [Hkeys Hrec] Hin.
    rewrite Forall_forall in Hall. destruct (Hall _ Hin) as [[pid Hpid] Hstat].
    eexists. split.
    - apply Hstep; [exact Hpid|exact Hstat|].
      intros record Hlook. apply Forall_forall. intros f Hf.
      destruct (Hrec _ _ Hlook) as (_ & Hsum & _). eauto.
    - assert (Hfresh : od_lookup res pid = None <->
                       pid ∉ player_ids done playerid).
      { rewrite od_lookup_None, Hkeys, first_seen_elem. reflexivity. }
      split.
      + rewrite od_store_keys, (player_ids_snoc _ _ _ _ Hpid), first_seen_snoc.
        rewrite Hkeys.
        destruct (od_lookup res pid) eqn:E.
        * rewrite decide_True; [reflexivity|].
          destruct (decide (pid ∈ player_ids done playerid)); [done|].
          apply Hfresh in n. congruence.
        * rewrite decide_False; [reflexivity|]. by apply Hfresh.
      + intros pid' record'. rewrite od_lookup_store.
        destruct (decide (pid = pid')) as [<-|Hne].
        * intros [= <-].
          destruct (od_lookup res pid) as [record|] eqn:E.
          -- destruct (Hrec _ _ E) as (Hdom & Hsum & Hid).
             split; [rewrite add_fields_dom, Hdom; set_solver|].
             split.
             ++ intros f Hf. rewrite add_fields_lookup by done.
                rewrite decide_True by done.
                rewrite (field_sum_snoc _ _ _ _ _ _ Hpid), decide_True by done.
                unfold held_int. by rewrite (Hsum _ Hf).
             ++ intros Hnf. rewrite add_fields_lookup by done.
                rewrite decide_False by done. by apply Hid.
          -- assert (Hnew : pid ∉ player_ids done playerid) by (by apply Hfresh).
             split; [rewrite add_fields_dom, zero_fields_dom, dom_singleton_L;
                     set_solver|].
             split.
             ++ intros f Hf. rewrite add_fields_lookup by done.
                rewrite decide_True by done.
                rewrite (field_sum_snoc _ _ _ _ _ _ Hpid), decide_True by done.
                unfold held_int. rewrite zero_fields_lookup, decide_True by done.
                unfold field_sum. by rewrite rows_of_absent.
             ++ intros Hnf. rewrite add_fields_lookup by done.
                rewrite decide_False by done.
                rewrite zero_fields_lookup, decide_False by done.
                by rewrite lookup_singleton_eq.
        * intros Hlook. destruct (Hrec _ _ Hlook) as (Hdom & Hsum & Hid).
          split; [exact Hdom|]. split; [|exact Hid].
          intros f Hf. rewrite (field_sum_snoc _ _ _ _ _ _ Hpid).
          rewrite decide_False by done. rewrite Z.add_0_r. by apply Hsum. }
  exists res. split; [exact Hres|]. split; [exact Hkeys|].
  split.
  - rewrite <- first_seen_length, <- Hkeys. by rewrite length_fmap.
  - intros pid record Hin. apply Hrec. apply od_lookup_elem; [|exact Hin].
    rewrite Hkeys. apply first_seen_NoDup.
Qed.

Ltac show_int_field :=
  match goal with
  | |- exists v n, ?stat !! ?field = Some v /\ to_int v = Ok n =>
      let v := eval vm_compute in (stat !! field) in
      match v with
      | Some ?x =>
          let n := eval vm_compute in (to_int x) in
          match n with
          | Ok ?z => exists x, z; split; vm_compute; reflexivity
          end
      end
  end.

Ltac show_summable :=
  split;
  [show_is_Some
  |repeat (apply List.Forall_cons; [show_int_field|]); apply List.Forall_nil].

Lemma sample_summable :
  Forall (summable "playerID" ["AB"; "H"]) sample_batting.
Proof.
  unfold sample_batting.
  repeat (apply List.Forall_cons; [show_summable|]).
  apply List.Forall_nil.
Defined.

Lemma sample_fields_NoDup : NoDup ["AB"; "H"]%string.
Proof. apply (bool_decide_unpack _). vm_compute. exact I. Defined.

Lemma aggregate_by_player_id_sums_witness :
  NoDup ["AB"; "H"]%string /\
  Forall (summable "playerID" ["AB"; "H"]) sample_batting /\
  exists res,
    aggregate_by_player_id sample_batting "playerID" ["AB"; "H"] = Ok res /\
    res.*1 = first_seen (player_ids sample_batting "playerID") /\
    length res
    = size (list_to_set (C := gset pyval)
              (player_ids sample_batting "playerID")) /\
    forall pid record,
      (pid, record) ∈ res ->
      dom record = {["playerID"]} ∪ list_to_set ["AB"; "H"] /\
      (forall field,
          field ∈ ["AB"; "H"] ->
          record !! field
          = Some (VInt (field_sum sample_batting "playerID" pid field))) /\
      ("playerID" ∉ ["AB"; "H"] -> record !! "playerID" = Some pid).
Proof.
  split; [exact sample_fields_NoDup|].
  split; [exact sample_summable|].
  exact (aggregate_by_player_id_sums sample_batting "playerID" ["AB"; "H"]
           sample_fields_NoDup sample_summable).
Defined.

Example aggregate_by_player_id_sample :
  aggregate_by_player_id sample_batting "playerID" ["AB"; "H"]
  = Ok [(VStr "p1",
         list_to_map [("playerID", VStr "p1"); ("AB", VInt 900); ("H", VInt 300)]);
        (VStr "p2",
         list_to_map [("playerID", VStr "p2"); ("AB", VInt 400); ("H", VInt 300)]);
        (VStr "p3",
         list_to_map [("playerID", VStr "p3"); ("AB", VInt 550); ("H", VInt 110)])].
Proof. vm_compute. reflexivity. Qed.

(** C4 as stated fails: a field named twice is added twice for every
    row, so the record holds twice the sum of the field. *)
Lemma aggregate_by_player_id_sums_counterexample :
  (res ← aggregate_by_player_id
           [batting_row "p1" "2001" "600" "200" "50" "30" "5" "20"]
           "playerID" ["H"; "H"];
   record ← od_getitem res (VStr "p1");
   getitem record "H") = Ok (VInt 400) /\
  field_sum [batting_row "p1" "2001" "600" "200" "50" "30" "5" "20"]
    "playerID" (VStr "p1") "H" = 200.
Proof. vm_compute. split; reflexivity. Qed.

(** ** Signs of binary64 results *)

Lemma shr_1_nonneg (mrs : shr_record) :
  0 <= shr_m mrs -> 0 <= shr_m (shr_1 mrs).
Proof. destruct mrs as [[|[p|p|]|p] r s]; simpl; lia. Qed.

Lemma iter_shr_1_nonneg (p : positive) (mrs : shr_record) :
  0 <= shr_m mrs -> 0 <= shr_m (SpecFloat.iter_pos shr_1 p mrs).
Proof.
  revert mrs. induction p as [p IH|p IH|]; intros mrs H; simpl.
  - apply IH, IH. by apply shr_1_nonneg.
  - by apply IH, IH.
  - by apply shr_1_nonneg.
Qed.

Lemma shr_nonneg (mrs : shr_record) (e n : Z) :
  0 <= shr_m mrs -> 0 <= shr_m (shr mrs e n).1.
Proof.
  intros H. unfold shr. destruct n; simpl; auto.
  by apply iter_shr_1_nonneg.
Qed.

Lemma shr_fexp_nonneg (m e : Z) (l : location) :
  0 <= m -> 0 <= shr_m (shr_fexp prec emax m e l).1.
Proof.
  intros H. unfold shr_fexp. apply shr_nonneg.
  by destruct l as [|[]].
Qed.

Lemma round_nearest_even_nonneg (m : Z) (l : location) :
  0 <= m -> 0 <= round_nearest_even m l.
Proof.
  intros H. destruct l as [|[]]; simpl; try lia.
  destruct (Z.even m); lia.
Qed.

(** Rounding a non-negative mantissa gives a zero, a finite number or
    an infinity of the given sign, never a NaN. *)
Lemma binary_round_aux_sign (s : bool) (m e : Z) (l : location) :
  0 <= m ->
  match binary_round_aux prec emax s m e l with
  | S754_zero s' | S754_finite s' _ _ | S754_infinity s' => s' = s
  | S754_nan => False
  end.
Proof.
  intros Hm. unfold binary_round_aux.
  pose proof (shr_fexp_nonneg m e l Hm) as H1.
  destruct (shr_fexp prec emax m e l) as [mrs' e']. simpl in H1.
  pose proof (shr_fexp_nonneg _ e' loc_Exact
                (round_nearest_even_nonneg _ (loc_of_shr_record mrs') H1)) as H2.
  destruct (shr_fexp prec emax _ e' loc_Exact) as [mrs'' e'']. simpl in H2.
  destruct (shr_m mrs'') as [|p|p]; [reflexivity| |lia].
  by destruct (e'' <=? emax - prec).
Qed.

Lemma binary_round_sign (s : bool) (m : positive) (e : Z) :
  match binary_round prec emax s m e with
  | S754_zero s' | S754_finite s' _ _ | S754_infinity s' => s' = s
  | S754_nan => False
  end.
Proof.
  unfold binary_round. destruct (shl_align _ _ _) as [mz ez].
  by apply binary_round_aux_sign.
Qed.

Lemma sign_clear_round_aux (m e : Z) (l : location) :
  0 <= m -> sign_clear (binary_round_aux prec emax false m e l) = true.
Proof.
  intros Hm. pose proof (binary_round_aux_sign false m e l Hm) as H.
  destruct (binary_round_aux prec emax false m e l) as [s'|s'| |s' m' e'];
    simpl in H |- *; try subst s'; try reflexivity; contradiction.
Qed.

Lemma sign_clear_fadd (x y : float) :
  sign_clear x = true -> sign_clear y = true -> sign_clear (fadd x y) = true.
Proof.
  destruct x as [sx|[]| |[] mx ex], y as [sy|[]| |[] my ey];
    try discriminate; intros _ _; try reflexivity.
  - by destruct sx, sy.
  - unfold fadd, SFadd. cbn [cond_Zopp].
    destruct (shl_align mx ex (Z.min ex ey)) as [mx' ex'].
    destruct (shl_align my ey (Z.min ex ey)) as [my' ey'].
    cbn [fst Z.add binary_normalize].
    pose proof (binary_round_sign false (mx' + my') (Z.min ex ey)) as H.
    change (binary_normalize prec emax (Z.pos mx' + Z.pos my') (Z.min ex ey) false)
      with (binary_round prec emax false (mx' + my') (Z.min ex ey)).
    destruct (binary_round prec emax false (mx' + my') (Z.min ex ey))
      as [s'|s'| |s' m' e']; simpl in H |- *; try subst s'; try reflexivity;
      contradiction.
Qed.

Lemma sign_clear_fmul (x y : float) :
  sign_clear x = true -> sign_clear y = true ->
  is_finite x = true -> is_zero x = false ->
  sign_clear (fmul x y) = true.
Proof.
  destruct x as [sx|[]| |[] mx ex], y as [sy|[]| |[] my ey];
    try discriminate; intros _ _ _ _; try reflexivity.
  unfold fmul, SFmul. cbn [xorb]. by apply sign_clear_round_aux.
Qed.

Lemma sign_clear_fdiv (x y : float) :
  sign_clear x = true -> sign_clear y = true -> is_zero y = false ->
  sign_clear (fdiv x y) = true \/ fdiv x y = S754_nan.
Proof.
  destruct x as [sx|[]| |[] mx ex], y as [sy|[]| |[] my ey];
    try discriminate; intros _ _ _; auto.
  left. unfold fdiv, SFdiv, SFdiv_core_binary.
  set (e' := Z.min _ _). set (m' := match _ with Z0 => _ | _ => _ end).
  assert (Hm' : 0 <= m').
  { unfold m'. destruct (ex - ey - e'); try lia. by apply Z.shiftl_nonneg. }
  pose proof (Z.div_pos m' (Z.pos my) Hm' ltac:(lia)) as Hq.
  unfold Z.div in Hq. destruct (Z.div_eucl m' (Z.pos my)) as [q r].
  cbn [xorb]. by apply sign_clear_round_aux.
Qed.

Lemma two_power_pos (e : Z) : (0 < 2 ^ e)%Q.
Proof. by apply Qpower_0_lt. Qed.

Lemma nonnegative_sign_clear (x : float) : nonnegative x = sign_clear x.
Proof.
  unfold nonnegative, num_le.
  destruct x as [s|[]| |[] m e]; simpl; try reflexivity.
  - pose proof (two_power_pos e) as Hp.
    destruct (Qle_bool _ _) eqn:E; [|reflexivity].
    apply Qle_bool_iff in E. exfalso.
    unfold Qle, Qlt in *. simpl in *. nia.
  - pose proof (two_power_pos e) as Hp.
    apply Qle_bool_iff. unfold Qle, Qlt in *. simpl in *. nia.
Qed.

(** ** The range of a score *)

Lemma sign_clear_lit (k : Z) (x : float) :
  k = 2 \/ k = 3 \/ k = 4 ->
  sign_clear x = true -> sign_clear (fmul (float_lit k) x) = true.
Proof.
  intros Hk Hx.
  apply sign_clear_fmul; auto;
    destruct Hk as [->|[->| ->]]; vm_compute; reflexivity.
Qed.

Lemma sign_clear_numerator (m : metric) info row :
  Forall (fun role => nonnegative (parsed info row role) = true)
         (required_roles m) ->
  (m = Slugging -> nonnegative (singles_of info row) = true) ->
  sign_clear (numerator m info row) = true.
Proof.
  intros Hall Hsingles.
  destruct m; unfold required_roles in Hall;
    repeat match goal with
      | H : Forall _ (_ :: _) |- _ => apply Forall_cons in H as [? H]
      end;
    repeat match goal with
      | H : nonnegative _ = true |- _ => rewrite nonnegative_sign_clear in H
      end; unfold numerator.
  - assumption.
  - by apply sign_clear_fadd.
  - specialize (Hsingles eq_refl). rewrite nonnegative_sign_clear in Hsingles.
    repeat apply sign_clear_fadd; auto; apply sign_clear_lit; auto.
Qed.

Lemma sign_clear_denominator (m : metric) info row :
  Forall (fun role => nonnegative (parsed info row role) = true)
         (required_roles m) ->
  sign_clear (denominator m info row) = true.
Proof.
  intros Hall.
  destruct m; unfold required_roles in Hall;
    repeat match goal with
      | H : Forall _ (_ :: _) |- _ => apply Forall_cons in H as [? H]
      end;
    repeat match goal with
      | H : nonnegative _ = true |- _ => rewrite nonnegative_sign_clear in H
      end; unfold denominator; auto.
  by apply sign_clear_fadd.
Qed.

(** At-bats of at least 500 are not negative. *)
Lemma eligible_nonnegative info row :
  eligible info row = true -> nonnegative (parsed info row "atbats") = true.
Proof.
  unfold eligible, num_ge, nonnegative. intros H.
  apply num_le_trans with (NInt MINIMUM_AB); [vm_compute; reflexivity|exact H].
Qed.

(** C5 (amended).  For every Field Map and row whose required
    statistics all parse, each formula returns exactly the integer 0
    when the player is not eligible.  For an eligible player, a score
    that is returned and is not a NaN is at least 0 whenever the
    numerator of the formula (hits; hits plus walks; the total bases) is
    not negative and, for on-base percentage, at-bats plus walks are not
    negative either; negative singles do not matter as long as the total
    bases are not negative.  Non-negative statistics make numerator and
    denominator non-negative for batting average and on-base percentage,
    and for slugging percentage when the singles are not negative.  The
    statistics are not validated, and other rows give negative
    scores. *)
Theorem formula_range (m : metric) info row :
  Forall (parses info row) (required_roles m) ->
  (eligible info row = false -> formula_of m info row = Ok (NInt 0)) /\
  (eligible info row = true ->
   nonnegative (numerator m info row) = true ->
   (m = OnBase -> nonnegative (denominator m info row) = true) ->
   forall s,
     formula_of m info row = Ok s ->
     not_nan s = true -> num_le (NInt 0) s = true) /\
  (Forall (fun role => nonnegative (parsed info row role) = true)
          (required_roles m) ->
   (m = Slugging -> nonnegative (singles_of info row) = true) ->
   nonnegative (numerator m info row) = true /\
   nonnegative (denominator m info row) = true).
Proof.
  intros Hparse. rewrite (formula_of_parsed m info row Hparse).
  split; [|split].
  - by intros ->.
  - intros Hel Hnum Hden' s Hs Hnan. rewrite Hel in Hs.
    assert (Hden : nonnegative (denominator m info row) = true).
    { destruct m; auto; simpl; by apply eligible_nonnegative. }
    rewrite nonnegative_sign_clear in Hnum, Hden.
    unfold truediv in Hs.
    destruct (is_zero (denominator m info row)) eqn:Hz; [discriminate|].
    simpl in Hs. injection Hs as <-.
    destruct (sign_clear_fdiv _ _ Hnum Hden Hz) as [Hq|Hq].
    + change (nonnegative (fdiv (numerator m info row) (denominator m info row))
              = true).
      by rewrite nonnegative_sign_clear.
    + simpl in Hnan. rewrite Hq in Hnan. discriminate.
  - intros Hall Hsingles. rewrite !nonnegative_sign_clear.
    split; [by apply sign_clear_numerator|by apply sign_clear_denominator].
Qed.

Lemma formula_range_witness :
  Forall (parses sample_info
            (batting_row "p1" "2001" "600" "10" "0" "0" "0" "30"))
         (required_roles Slugging) /\
  eligible sample_info
    (batting_row "p1" "2001" "600" "10" "0" "0" "0" "30") = true /\
  nonnegative (singles_of sample_info
                 (batting_row "p1" "2001" "600" "10" "0" "0" "0" "30")) = false /\
  nonnegative (numerator Slugging sample_info
                 (batting_row "p1" "2001" "600" "10" "0" "0" "0" "30")) = true /\
  slugging_percentage sample_info
    (batting_row "p1" "2001" "600" "10" "0" "0" "0" "30")
  = Ok (NFloat (S754_finite false 6004799503160661 (-55))) /\
  num_le (NInt 0) (NFloat (S754_finite false 6004799503160661 (-55))) = true.
Proof.
  assert (Hp : Forall (parses sample_info
                         (batting_row "p1" "2001" "600" "10" "0" "0" "0" "30"))
                      (required_roles Slugging)).
  { each_role ltac:(idtac; show_parses). }
  assert (Hs : slugging_percentage sample_info
                 (batting_row "p1" "2001" "600" "10" "0" "0" "0" "30")
               = Ok (NFloat (S754_finite false 6004799503160661 (-55)))).
  { vm_compute. reflexivity. }
  split; [exact Hp|]. split; [vm_compute; reflexivity|].
  split; [vm_compute; reflexivity|]. split; [vm_compute; reflexivity|].
  split; [exact Hs|].
  destruct (formula_range Slugging _ _ Hp) as (_ & Hrange & _).
  apply (Hrange ltac:(vm_compute; reflexivity)); try exact Hs.
  - vm_compute. reflexivity.
  - discriminate.
  - reflexivity.
Defined.

(** C5 as stated fails: an eligible row with negative hits gets the
    batting average -1.0, which is below 0 and is not the integer 0; and
    an eligible row with 900 hits, 600 at-bats and -700 walks has a
    non-negative numerator over negative at-bats plus walks, and gets
    the on-base percentage -2.0. *)
Lemma formula_range_counterexample :
  eligible sample_info
    (batting_row "p9" "2001" "600" "-600" "0" "0" "0" "0") = true /\
  batting_average sample_info
    (batting_row "p9" "2001" "600" "-600" "0" "0" "0" "0")
  = Ok (NFloat (S754_finite true 4503599627370496 (-52))) /\
  num_le (NInt 0) (NFloat (S754_finite true 4503599627370496 (-52))) = false /\
  num_lt (NFloat (S754_finite true 4503599627370496 (-52))) (NInt 0) = true /\
  eligible sample_info
    (batting_row "p9" "2001" "600" "900" "-700" "0" "0" "0") = true /\
  onbase_percentage sample_info
    (batting_row "p9" "2001" "600" "900" "-700" "0" "0" "0")
  = Ok (NFloat (S754_finite true 4503599627370496 (-51))) /\
  num_lt (NFloat (S754_finite true 4503599627370496 (-51))) (NInt 0) = true.
Proof. vm_compute. repeat split. Qed.

(** ** Further facts and the scenarios of the specification *)

Lemma scoring_loop_inv info formula pid_field
  (stats : list (gmap string pyval)) (acc out : list (pyval * pynum)) :
  for_fold
    (fun scored stat =>
       score ← formula info stat;
       pid ← getitem stat pid_field;
       Ok (scored ++ [(pid, score)]))
    acc stats
  = Ok out ->
  exists scored,
    Forall2 (scored_as info formula pid_field) stats scored /\
    out = acc ++ scored.
Proof.
  revert acc. induction stats as [|stat stats IH]; intros acc; simpl.
  - intros [= <-]. exists []. split; [constructor|by rewrite app_nil_r].
  - destruct (formula info stat) as [score|] eqn:Hs; simpl; [|discriminate].
    destruct (getitem stat pid_field) as [pid|] eqn:Hp; simpl; [|discriminate].
    intros Hrest. apply IH in Hrest as (scored & Hall & ->).
    exists ((pid, score) :: scored). split.
    + constructor; [|exact Hall]. split; [exact Hs|by apply getitem_Ok].
    + by rewrite <- app_assoc.
Qed.

(** [top_player_ids] returns a list exactly when the Field Map names
    the player column and every row is scored. *)
Lemma top_player_ids_returns info stats formula n :
  (exists ranked, top_player_ids info stats formula n = Ok ranked) <->
  (exists pid_field scored,
      info !! "playerid" = Some pid_field /\
      Forall2 (scored_as info formula pid_field) stats scored).
Proof.
  split.
  - intros [ranked Hr]. unfold top_player_ids in Hr.
    destruct (getitem info "playerid") as [pid_field|] eqn:Hi; simpl in Hr;
      [|discriminate].
    apply bind_Ok in Hr as (out & Hout & _).
    apply scoring_loop_inv in Hout as (scored & Hall & _).
    exists pid_field, scored. split; [by apply getitem_Ok|exact Hall].
  - intros (pid_field & scored & Hi & Hall).
    eexists. by apply top_player_ids_Ok with pid_field.
Qed.

(** An infinite numerator over an infinite denominator: the score is a
    NaN although no statistic is negative. *)
Example batting_average_nan_sample :
  batting_average sample_info
    (batting_row "p9" "2001" "inf" "inf" "0" "0" "0" "0")
  = Ok (NFloat S754_nan).
Proof. vm_compute. reflexivity. Qed.

(** The season scenario: the best batting average of 2001. *)
Example compute_top_stats_year_sample :
  compute_top_stats_year sample_reader sample_info batting_average 1 2001
  = Ok ["0.333 --- Ann Lee"].
Proof. vm_compute. reflexivity. Qed.

(** The career scenario: the fields are summed per player before the
    ranking. *)
Example compute_top_stats_career_sample :
  compute_top_stats_career sample_reader sample_info ["AB"; "H"]
    batting_average 2
  = Ok ["0.333 --- Ann Lee"; "0.200 --- Cy Orr"].
Proof. vm_compute. reflexivity. Qed.

(** The formatting scenario: 0.3005 is rendered [0.300]. *)
Example format_3f_sample :
  (x ← float_of_string "0.3005"; format_3f (NFloat x)) = Ok "0.300".
Proof. vm_compute. reflexivity. Qed.

(** Conversions of text.  A unit separator (byte 31) is no white space
    for [int] and [float]; a no-break space (U+00A0) after a number and
    the fullwidth digits (U+FF10 to U+FF19) are accepted; white space
    inside a number, a fraction for [int] and a character that is
    neither white space nor a digit are not. *)
Example text_conversion_samples :
  int_of_string (text_of_bytes [49; 48; 48; 31]) = Raise ValueError /\
  float_of_string (text_of_bytes [50; 48; 31]) = Raise ValueError /\
  int_of_string (text_of_bytes [54; 48; 48; 194; 160]) = Ok 600 /\
  float_of_string (text_of_bytes [54; 48; 48; 194; 160]) = Ok (float_lit 600) /\
  int_of_string
    (text_of_bytes [239; 188; 146; 239; 188; 144; 239; 188; 144; 239; 188; 145])
  = Ok 2001 /\
  float_of_string (text_of_bytes [54; 194; 160; 48]) = Raise ValueError /\
  float_of_string (text_of_bytes [54; 48; 194; 176]) = Raise ValueError /\
  int_of_string " +1_000 " = Ok 1000 /\
  int_of_string "12.0" = Raise ValueError /\
  float_of_string "-Infinity" = Ok (S754_infinity true) /\
  float_of_string "1e400" = Ok (S754_infinity false).
Proof. vm_compute. repeat split. Qed.

(** [int] converts 4300 digits and refuses 4301; [float] has no such
    limit. *)
Example int_of_string_digit_limit :
  int_of_string (string_of_list_ascii (repeat "1"%char 4300))
  = Ok (digits_value (repeat 1 4300)) /\
  int_of_string (string_of_list_ascii (repeat "1"%char 4301)) = Raise ValueError /\
  float_of_string (string_of_list_ascii (repeat "0"%char 4301))
  = Ok (S754_zero false).
Proof. vm_compute. repeat split. Qed.

(** * Further properties *)

(** ** The table loader *)

Lemma for_fold_Ok_Forall {A S : Type} (f : S -> A -> result S)
  (P : A -> Prop) (xs : list A) (acc r : S) :
  (forall acc x acc', f acc x = Ok acc' -> P x) ->
  for_fold f acc xs = Ok r -> Forall P xs.
Proof.
  intros Hf. revert acc. induction xs as [|x xs IH]; intros acc; simpl.
  - constructor.
  - destruct (f acc x) as [acc'|] eqn:E; simpl; [|discriminate].
    intros Hr. constructor; [by eapply Hf|by eapply IH].
Qed.

Lemma list_dict_loop (rows : list (gmap string pyval)) :
  for_fold (fun table row => Ok (table ++ [row])) [] rows = Ok rows.
Proof.
  rewrite (for_fold_snoc _ eq rows rows []); [reflexivity| |].
  - by intros acc x y ->.
  - induction rows; by constructor.
Qed.

(** X1.  [read_csv_as_list_dict] returns exactly the rows the reader
    yields, in the reader's order, and fails exactly as the reader
    fails. *)
Theorem read_csv_as_list_dict_rows reader (filename separator quote : string) :
  read_csv_as_list_dict reader filename separator quote
  = reader filename separator quote.
Proof.
  unfold read_csv_as_list_dict.
  destruct (reader filename separator quote) as [rows|e]; simpl; [|reflexivity].
  apply list_dict_loop.
Qed.

Lemma last_filter_snoc {A : Type} (P : A -> Prop) `{forall x, Decision (P x)}
  (l : list A) (x : A) :
  last (filter P (l ++ [x])) = if decide (P x) then Some x else last (filter P l).
Proof.
  rewrite filter_app, filter_cons, filter_nil.
  destruct (decide (P x)); [by rewrite last_snoc|by rewrite app_nil_r].
Qed.

Lemma nested_dict_loop (keyfield : string) (rows : list (gmap string pyval)) :
  Forall (fun row => is_Some (row !! keyfield)) rows ->
  exists table,
    for_fold
      (fun table row => key ← getitem row keyfield; Ok (<[key := row]> table))
      (∅ : gmap pyval (gmap string pyval)) rows
    = Ok table /\
    forall key, table !! key = last (rows_keyed keyfield key rows).
Proof.
  intros Hall.
  apply (for_fold_invariant _
           (fun done (table : gmap pyval (gmap string pyval)) =>
              forall key, table !! key = last (rows_keyed keyfield key done))).
  - intros key. apply lookup_empty.
  - intros done row table Hinv Hin.
    rewrite Forall_forall in Hall. destruct (Hall _ Hin) as [k Hk].
    apply getitem_Ok in Hk as Hk'. rewrite Hk'; simpl.
    eexists. split; [reflexivity|].
    intros key. unfold rows_keyed. rewrite last_filter_snoc.
    destruct (decide (k = key)) as [->|Hne].
    + rewrite lookup_insert_eq. by rewrite decide_True.
    + rewrite lookup_insert_ne by done.
      rewrite decide_False by congruence. apply Hinv.
Qed.

(** X2.  When every row the reader yields has the key column,
    [read_csv_as_nested_dict] returns a table in which each key is
    bound to the last row of the file with that key, and a key no row
    has is unbound. *)
Theorem read_csv_as_nested_dict_last reader
  (filename keyfield separator quote : string)
  (rows : list (gmap string pyval)) :
  reader filename separator quote = Ok rows ->
  Forall (fun row => is_Some (row !! keyfield)) rows ->
  exists table,
    read_csv_as_nested_dict reader filename keyfield separator quote = Ok table /\
    forall key, table !! key = last (rows_keyed keyfield key rows).
Proof.
  intros Hread Hall. unfold read_csv_as_nested_dict. rewrite Hread; simpl.
  by apply nested_dict_loop.
Qed.

Lemma read_csv_as_nested_dict_last_witness :
  repeated_reader "Master.csv" "," "'" = Ok repeated_master /\
  Forall (fun row => is_Some (row !! "playerID")) repeated_master /\
  exists table,
    read_csv_as_nested_dict repeated_reader "Master.csv" "playerID" "," "'"
    = Ok table /\
    forall key, table !! key = last (rows_keyed "playerID" key repeated_master).
Proof.
  assert (Hall : Forall (fun row => is_Some (row !! "playerID")) repeated_master).
  { unfold repeated_master.
    repeat (apply List.Forall_cons; [show_is_Some|]). apply List.Forall_nil. }
  split; [reflexivity|]. split; [exact Hall|].
  apply (read_csv_as_nested_dict_last repeated_reader "Master.csv" "playerID"
           "," "'" repeated_master eq_refl Hall).
Defined.

Example read_csv_as_nested_dict_repeated :
  (table ← read_csv_as_nested_dict repeated_reader "Master.csv" "playerID"
             "," "'";
   getitem table (VStr "p1")) = Ok (master_row "p1" "Anna" "Leigh").
Proof. vm_compute. reflexivity. Qed.

(** X3.  When the reader yields rows and some row lacks the key column,
    [read_csv_as_nested_dict] raises [KeyError]; when the reader fails,
    it fails with the reader's error. *)
Theorem read_csv_as_nested_dict_errors reader
  (filename keyfield separator quote : string) :
  (forall rows,
      reader filename separator quote = Ok rows ->
      Exists (fun row => row !! keyfield = None) rows ->
      read_csv_as_nested_dict reader filename keyfield separator quote
      = Raise KeyError) /\
  (forall e,
      reader filename separator quote = Raise e ->
      read_csv_as_nested_dict reader filename keyfield separator quote
      = Raise e).
Proof.
  unfold read_csv_as_nested_dict. split.
  - intros rows -> Hex. simpl.
    apply (for_fold_raise _ (fun row => row !! keyfield = None)); auto.
    + intros acc row Hnone. unfold getitem. by rewrite Hnone.
    + intros acc row Hsome _.
      destruct (row !! keyfield) as [k|] eqn:E; [|congruence].
      apply getitem_Ok in E. rewrite E; simpl. eauto.
    + intros row. destruct (row !! keyfield); [right|left]; congruence.
  - by intros e ->.
Qed.

Lemma read_csv_as_nested_dict_errors_witness :
  sample_reader "Master.csv" "," "'" = Ok sample_master /\
  Exists (fun row => row !! "yearID" = None) sample_master /\
  read_csv_as_nested_dict sample_reader "Master.csv" "yearID" "," "'"
  = Raise KeyError /\
  read_csv_as_nested_dict sample_reader "Nowhere.csv" "playerID" "," "'"
  = Raise OSError.
Proof.
  assert (Hex : Exists (fun row => row !! "yearID" = None) sample_master).
  { apply Exists_cons_hd. vm_compute. reflexivity. }
  split; [reflexivity|]. split; [exact Hex|].
  destruct (read_csv_as_nested_dict_errors sample_reader "Master.csv" "yearID"
              "," "'") as [Hkey _].
  destruct (read_csv_as_nested_dict_errors sample_reader "Nowhere.csv"
              "playerID" "," "'") as [_ Hread].
  split; [exact (Hkey _ eq_refl Hex)|exact (Hread _ eq_refl)].
Defined.

(** ** The year filter, further *)

Lemma filter_by_year_parses (stats res : list (gmap string pyval))
  (year : Z) (yearid : string) :
  filter_by_year stats year yearid = Ok res ->
  Forall (fun stat => exists y, year_of yearid stat = Ok y) stats.
Proof.
  unfold filter_by_year. apply for_fold_Ok_Forall.
  intros acc stat acc' Hstep.
  apply bind_Ok in Hstep as (v & Hv & Hstep).
  apply bind_Ok in Hstep as (y & Hy & _).
  exists y. unfold year_of. rewrite Hv; simpl. exact Hy.
Qed.

Lemma filter_by_year_inv (stats res : list (gmap string pyval))
  (year : Z) (yearid : string) :
  filter_by_year stats year yearid = Ok res ->
  res = filter (fun stat => year_of yearid stat = Ok year) stats.
Proof.
  intros Hres. pose proof (filter_by_year_parses _ _ _ _ Hres) as Hall.
  unfold filter_by_year in Hres.
  rewrite (filter_by_year_acc year yearid stats [] Hall) in Hres.
  by injection Hres as <-.
Qed.

(** X4.  [filter_by_year] returns a list exactly when the year column
    of every row parses as an integer: one row without a usable year,
    of whatever season, makes the whole call fail. *)
Theorem filter_by_year_returns (stats : list (gmap string pyval))
  (year : Z) (yearid : string) :
  (exists res, filter_by_year stats year yearid = Ok res) <->
  Forall (fun stat => exists y, year_of yearid stat = Ok y) stats.
Proof.
  split.
  - intros [res Hres]. by eapply filter_by_year_parses.
  - intros Hall. eexists. unfold filter_by_year.
    by rewrite filter_by_year_acc.
Qed.

(** X5.  Filtering is idempotent: every row [filter_by_year] returns
    has the target year, filtering its result again for the same year
    returns it unchanged, and filtering it for another year returns the
    empty list. *)
Theorem filter_by_year_again (stats res : list (gmap string pyval))
  (year : Z) (yearid : string) :
  filter_by_year stats year yearid = Ok res ->
  Forall (fun stat => year_of yearid stat = Ok year) res /\
  filter_by_year res year yearid = Ok res /\
  forall other, other <> year -> filter_by_year res other yearid = Ok [].
Proof.
  intros Hres. apply filter_by_year_inv in Hres as ->.
  set (kept := filter (fun stat => year_of yearid stat = Ok year) stats).
  assert (Hkept : Forall (fun stat => year_of yearid stat = Ok year) kept).
  { apply Forall_forall. intros stat Hin.
    by apply list_elem_of_filter in Hin as [Hy _]. }
  assert (Hparse : Forall (fun stat => exists y, year_of yearid stat = Ok y) kept).
  { eapply Forall_impl; [exact Hkept|]. intros stat Hy. by exists year. }
  split; [exact Hkept|]. unfold filter_by_year. split.
  - rewrite (filter_by_year_acc year yearid kept [] Hparse). simpl. f_equal.
    clear Hparse. induction Hkept as [|stat kept' Hy _ IH]; [reflexivity|].
    by rewrite filter_cons_True, IH.
  - intros other Hne.
    rewrite (filter_by_year_acc other yearid kept [] Hparse). simpl. f_equal.
    apply filter_none. eapply Forall_impl; [exact Hkept|].
    intros stat Hy Hother. rewrite Hy in Hother. congruence.
Qed.

Lemma filter_by_year_again_witness :
  filter_by_year sample_batting 2001 "yearID"
  = Ok [batting_row "p1" "2001" "600" "200" "50" "30" "5" "20";
        batting_row "p2" "2001" "400" "300" "0" "0" "0" "0";
        batting_row "p3" "2001" "550" "110" "40" "20" "2" "8"] /\
  filter_by_year
    [batting_row "p1" "2001" "600" "200" "50" "30" "5" "20";
     batting_row "p2" "2001" "400" "300" "0" "0" "0" "0";
     batting_row "p3" "2001" "550" "110" "40" "20" "2" "8"] 2002 "yearID"
  = Ok [].
Proof.
  assert (H : filter_by_year sample_batting 2001 "yearID"
              = Ok [batting_row "p1" "2001" "600" "200" "50" "30" "5" "20";
                    batting_row "p2" "2001" "400" "300" "0" "0" "0" "0";
                    batting_row "p3" "2001" "550" "110" "40" "20" "2" "8"]).
  { vm_compute. reflexivity. }
  split; [exact H|].
  destruct (filter_by_year_again _ _ _ _ H) as (_ & _ & Hother).
  apply Hother. lia.
Defined.

(** ** The ranker, further *)

Lemma for_fold_app {A S : Type} (f : S -> A -> result S) (xs ys : list A)
  (acc : S) :
  for_fold f acc (xs ++ ys) = acc' ← for_fold f acc xs; for_fold f acc' ys.
Proof.
  revert acc. induction xs as [|x xs IH]; intros acc; simpl; [reflexivity|].
  destruct (f acc x); simpl; [apply IH|reflexivity].
Qed.

(** X6.  Whatever the count, [top_player_ids] returns entries of the
    input and nothing else: the returned list followed by the entries
    it leaves out is a permutation of the scored entries, and every
    returned entry is the scored entry of some input row. *)
Theorem top_player_ids_entries info pid_field stats formula scored n :
  info !! "playerid" = Some pid_field ->
  Forall2 (scored_as info formula pid_field) stats scored ->
  exists ranked dropped,
    top_player_ids info stats formula n = Ok ranked /\
    ranked ++ dropped ≡ₚ scored /\
    forall entry,
      entry ∈ ranked ->
      exists stat, stat ∈ stats /\ scored_as info formula pid_field stat entry.
Proof.
  intros Hi Hall.
  destruct (slice_to_take (sort_reverse snd scored) n) as [k Hk].
  exists (take k (sort_reverse snd scored)), (drop k (sort_reverse snd scored)).
  split; [rewrite <- Hk; by apply top_player_ids_Ok with pid_field|].
  split; [rewrite take_drop; apply sort_reverse_perm|].
  intros entry Hin.
  assert (Hsc : entry ∈ scored).
  { rewrite <- (sort_reverse_perm snd scored).
    rewrite <- (take_drop k (sort_reverse snd scored)).
    apply elem_of_app. by left. }
  apply list_elem_of_lookup in Hsc as [i Hi'].
  destruct (Forall2_lookup_r _ _ _ _ _ Hall Hi') as (stat & Hstat & Hsa).
  exists stat. split; [|exact Hsa].
  apply list_elem_of_lookup. eauto.
Qed.

Lemma top_player_ids_entries_witness :
  sample_info !! "playerid" = Some "playerID" /\
  Forall2 (scored_as sample_info batting_average "playerID")
    sample_batting sample_scored /\
  exists ranked dropped,
    top_player_ids sample_info sample_batting batting_average 2 = Ok ranked /\
    ranked ++ dropped ≡ₚ sample_scored /\
    forall entry,
      entry ∈ ranked ->
      exists stat,
        stat ∈ sample_batting /\
        scored_as sample_info batting_average "playerID" stat entry.
Proof.
  split; [exact sample_playerid|]. split; [exact sample_scored_as|].
  exact (top_player_ids_entries _ _ _ _ _ 2 sample_playerid sample_scored_as).
Defined.

(** X7.  A longer ranking extends a shorter one: for counts
    [0 <= n <= n'] the list returned for [n] is a prefix of the list
    returned for [n']. *)
Theorem top_player_ids_prefix info pid_field stats formula scored n n' :
  info !! "playerid" = Some pid_field ->
  Forall2 (scored_as info formula pid_field) stats scored ->
  0 <= n <= n' ->
  exists ranked ranked',
    top_player_ids info stats formula n = Ok ranked /\
    top_player_ids info stats formula n' = Ok ranked' /\
    ranked `prefix_of` ranked'.
Proof.
  intros Hi Hall Hn.
  exists (slice_to (sort_reverse snd scored) n),
         (slice_to (sort_reverse snd scored) n').
  split; [by apply top_player_ids_Ok with pid_field|].
  split; [by apply top_player_ids_Ok with pid_field|].
  unfold slice_to.
  destruct (Z.leb_spec 0 n); [|lia]. destruct (Z.leb_spec 0 n'); [|lia].
  set (l := sort_reverse snd scored).
  exists (take (Z.to_nat n' - Z.to_nat n) (drop (Z.to_nat n) l)).
  replace (Z.to_nat n') with (Z.to_nat n + (Z.to_nat n' - Z.to_nat n))%nat
    at 1 by lia.
  symmetry. apply take_take_drop.
Qed.

Lemma top_player_ids_prefix_witness :
  sample_info !! "playerid" = Some "playerID" /\
  Forall2 (scored_as sample_info batting_average "playerID")
    sample_batting sample_scored /\
  0 <= 1 <= 3 /\
  exists ranked ranked',
    top_player_ids sample_info sample_batting batting_average 1 = Ok ranked /\
    top_player_ids sample_info sample_batting batting_average 3 = Ok ranked' /\
    ranked `prefix_of` ranked'.
Proof.
  split; [exact sample_playerid|]. split; [exact sample_scored_as|].
  split; [lia|].
  apply (top_player_ids_prefix _ _ _ _ _ 1 3 sample_playerid sample_scored_as).
  lia.
Defined.

Lemma num_ge_refl (x : pynum) : not_nan x = true -> num_ge x x = true.
Proof.
  intros [v Hv]%not_nan_val. unfold num_ge.
  rewrite (num_le_val _ _ _ _ Hv Hv). apply xle_refl.
Qed.

(** X8.  With a count of at least 1, rows to rank and no NaN score, the
    first entry [top_player_ids] returns has a score at least as large
    as every scored entry, and among the entries with that score it is
    the first of the input. *)
Theorem top_player_ids_best info pid_field stats formula scored n :
  info !! "playerid" = Some pid_field ->
  Forall2 (scored_as info formula pid_field) stats scored ->
  Forall (fun entry => not_nan entry.2 = true) scored ->
  1 <= n ->
  stats <> [] ->
  exists best rest,
    top_player_ids info stats formula n = Ok (best :: rest) /\
    Forall (fun entry => num_ge best.2 entry.2 = true) scored /\
    head (filter (fun entry => num_eq entry.2 best.2 = true) scored) = Some best.
Proof.
  intros Hi Hall Hnan Hn Hne.
  destruct (sort_reverse_spec snd scored Hnan) as [Hsorted Hstable].
  pose proof (sort_reverse_perm snd scored) as Hperm.
  destruct (sort_reverse snd scored) as [|best tl] eqn:Hs.
  { apply Permutation_nil in Hperm. subst scored.
    apply Forall2_nil_inv_r in Hall. contradiction. }
  assert (Hbest : not_nan best.2 = true).
  { rewrite Forall_forall in Hnan. apply Hnan.
    rewrite <- Hperm. by left. }
  exists best, (take (Z.to_nat n - 1) tl).
  split; [|split].
  - rewrite (top_player_ids_Ok _ pid_field _ _ scored) by done.
    rewrite Hs. unfold slice_to. destruct (Z.leb_spec 0 n); [|lia].
    replace (Z.to_nat n) with (S (Z.to_nat n - 1)) at 1 by lia. reflexivity.
  - rewrite <- Hperm. apply StronglySorted_cons in Hsorted as [Hall' _].
    constructor; [by apply num_ge_refl|exact Hall'].
  - rewrite <- Hstable. rewrite filter_cons_True; [reflexivity|].
    apply num_eq_le. split; by apply num_ge_refl.
Qed.

Lemma top_player_ids_best_witness :
  sample_info !! "playerid" = Some "playerID" /\
  Forall2 (scored_as sample_info batting_average "playerID")
    sample_batting sample_scored /\
  Forall (fun entry => not_nan entry.2 = true) sample_scored /\
  1 <= 2 /\
  sample_batting <> [] /\
  exists best rest,
    top_player_ids sample_info sample_batting batting_average 2
    = Ok (best :: rest) /\
    Forall (fun entry => num_ge best.2 entry.2 = true) sample_scored /\
    head (filter (fun entry => num_eq entry.2 best.2 = true) sample_scored)
    = Some best.
Proof.
  assert (Hnan : Forall (fun entry => not_nan entry.2 = true) sample_scored).
  { repeat (apply List.Forall_cons; [vm_compute; reflexivity|]).
    apply List.Forall_nil. }
  assert (Hne : sample_batting <> []) by discriminate.
  split; [exact sample_playerid|]. split; [exact sample_scored_as|].
  split; [exact Hnan|]. split; [lia|]. split; [exact Hne|].
  apply (top_player_ids_best _ _ _ _ _ 2 sample_playerid sample_scored_as Hnan);
    [lia|exact Hne].
Defined.

(** X9.  [top_player_ids] scores every row before it sorts and cuts:
    when the rows before one are scored and that row's formula raises,
    or its player column is missing, the call raises that error
    whatever the count, even for a count of 0. *)
Theorem top_player_ids_raises info pid_field before stat after formula
  scored e n :
  info !! "playerid" = Some pid_field ->
  Forall2 (scored_as info formula pid_field) before scored ->
  formula info stat = Raise e \/
  ((exists score, formula info stat = Ok score) /\
   stat !! pid_field = None /\ e = KeyError) ->
  top_player_ids info (before ++ stat :: after) formula n = Raise e.
Proof.
  intros Hi Hall Hfail. unfold top_player_ids.
  apply getitem_Ok in Hi. rewrite Hi; simpl.
  rewrite for_fold_app, (scoring_loop _ _ _ _ scored) by done. simpl.
  destruct Hfail as [->|([score ->] & Hnone & ->)]; simpl; [reflexivity|].
  unfold getitem. by rewrite Hnone.
Qed.

Lemma top_player_ids_raises_witness :
  sample_info !! "playerid" = Some "playerID" /\
  Forall2 (scored_as sample_info batting_average "playerID")
    sample_batting sample_scored /\
  batting_average sample_info
    (batting_row "p9" "2001" "100" "n/a" "0" "0" "0" "0") = Raise ValueError /\
  top_player_ids sample_info
    (sample_batting ++
     batting_row "p9" "2001" "100" "n/a" "0" "0" "0" "0" :: [])
    batting_average 0
  = Raise ValueError.
Proof.
  assert (Hf : batting_average sample_info
                 (batting_row "p9" "2001" "100" "n/a" "0" "0" "0" "0")
               = Raise ValueError) by (vm_compute; reflexivity).
  split; [exact sample_playerid|]. split; [exact sample_scored_as|].
  split; [exact Hf|].
  apply (top_player_ids_raises _ _ _ _ _ _ _ _ 0
           sample_playerid sample_scored_as).
  by left.
Defined.

(** ** The metric formulas, further *)

(** X10.  A formula converts its statistics in a fixed order and stops
    at the first failure: when some conversion fails the formula raises
    the error of the first failing statistic in reading order, and
    otherwise every statistic it needs parses. *)
Theorem formula_first_error (m : metric) info row :
  match first_error info row (required_roles m) with
  | Some e => formula_of m info row = Raise e
  | None => Forall (parses info row) (required_roles m)
  end.
Proof.
  destruct m; simpl;
    unfold batting_average, onbase_percentage, slugging_percentage;
    repeat match goal with
      | |- context [stat_float info row ?r] =>
          destruct (stat_float info row r) as [?|?] eqn:?; simpl;
          [|reflexivity]
      end;
    repeat (apply List.Forall_cons; [unfold parses; eauto|]);
    apply List.Forall_nil.
Qed.

Example formula_first_error_sample :
  first_error sample_info
    (batting_row "p9" "2001" "n/a" "20" "0" "two" "0" "0")
    (required_roles Slugging) = Some ValueError /\
  first_error (delete "hits" sample_info)
    (batting_row "p9" "2001" "n/a" "20" "0" "two" "0" "0")
    (required_roles Slugging) = Some KeyError.
Proof. vm_compute. split; reflexivity. Qed.

Lemma stat_float_agree info (row row' : gmap string pyval) (role : string) :
  (forall column, info !! role = Some column -> row !! column = row' !! column) ->
  stat_float info row role = stat_float info row' role.
Proof.
  intros Hagree. unfold stat_float.
  destruct (getitem info role) as [column|] eqn:E; simpl; [|reflexivity].
  apply getitem_Ok in E. unfold getitem. by rewrite (Hagree column E).
Qed.

(** X11.  A formula reads no column but those the Field Map gives for
    its roles: two rows that agree on these columns get the same
    result, score or error. *)
Theorem formula_reads_only (m : metric) info (row row' : gmap string pyval) :
  (forall column, column ∈ columns_read m info ->
                  row !! column = row' !! column) ->
  formula_of m info row = formula_of m info row'.
Proof.
  intros Hagree.
  assert (Hrole : forall role,
             role ∈ required_roles m ->
             stat_float info row role = stat_float info row' role).
  { intros role Hin. apply stat_float_agree. intros column Hc.
    apply Hagree. unfold columns_read. apply list_elem_of_omap. eauto. }
  destruct m; simpl in *;
    unfold batting_average, onbase_percentage, slugging_percentage;
    repeat match goal with
      | |- context [stat_float info row ?r] =>
          rewrite (Hrole r) by (rewrite !elem_of_cons; tauto)
      end; reflexivity.
Qed.

Lemma formula_reads_only_witness :
  (forall column,
      column ∈ columns_read BattingAverage sample_info ->
      batting_row "p1" "2001" "600" "200" "50" "30" "5" "20" !! column
      = batting_row "p7" "1999" "600" "200" "1" "2" "3" "4" !! column) /\
  batting_average sample_info
    (batting_row "p1" "2001" "600" "200" "50" "30" "5" "20")
  = batting_average sample_info
      (batting_row "p7" "1999" "600" "200" "1" "2" "3" "4").
Proof.
  assert (Hagree : forall column,
             column ∈ columns_read BattingAverage sample_info ->
             batting_row "p1" "2001" "600" "200" "50" "30" "5" "20" !! column
             = batting_row "p7" "1999" "600" "200" "1" "2" "3" "4" !! column).
  { intros column Hin. vm_compute in Hin.
    repeat (apply elem_of_cons in Hin as [->|Hin];
            [vm_compute; reflexivity|]).
    by apply elem_of_nil in Hin. }
  split; [exact Hagree|].
  exact (formula_reads_only BattingAverage _ _ _ Hagree).
Defined.

Lemma fadd_zero_r (x w : float) :
  is_zero w = true -> x <> S754_zero true -> fadd x w = x.
Proof.
  destruct w as [sw| | |]; try discriminate. intros _ Hx.
  destruct x as [[]|sx| |sx mx ex]; try reflexivity; [congruence|].
  by destruct sw.
Qed.

(** X12.  Without walks the two rates coincide: when the parsed walks
    are zero and the parsed hits are not the float -0.0,
    [onbase_percentage] returns what [batting_average] returns, score
    or error. *)
Theorem onbase_without_walks info row hits walks :
  stat_float info row "hits" = Ok hits ->
  stat_float info row "walks" = Ok walks ->
  is_zero walks = true ->
  hits <> S754_zero true ->
  onbase_percentage info row = batting_average info row.
Proof.
  intros Hh Hw Hz Hneg. unfold onbase_percentage, batting_average.
  rewrite Hh; simpl.
  destruct (stat_float info row "atbats") as [at_bats|] eqn:Hab; simpl;
    [|reflexivity].
  rewrite Hw; simpl.
  destruct (num_ge (NFloat at_bats) (NInt MINIMUM_AB)) eqn:Hel; [|reflexivity].
  rewrite (fadd_zero_r hits walks Hz Hneg).
  rewrite (fadd_zero_r at_bats walks Hz); [reflexivity|].
  intros ->. vm_compute in Hel. discriminate.
Qed.

Lemma onbase_without_walks_witness :
  stat_float sample_info
    (batting_row "p2" "2001" "700" "300" "0" "0" "0" "0") "hits"
  = Ok (float_lit 300) /\
  stat_float sample_info
    (batting_row "p2" "2001" "700" "300" "0" "0" "0" "0") "walks"
  = Ok (S754_zero false) /\
  onbase_percentage sample_info
    (batting_row "p2" "2001" "700" "300" "0" "0" "0" "0")
  = batting_average sample_info
      (batting_row "p2" "2001" "700" "300" "0" "0" "0" "0").
Proof.
  assert (Hh : stat_float sample_info
                 (batting_row "p2" "2001" "700" "300" "0" "0" "0" "0") "hits"
               = Ok (float_lit 300)) by (vm_compute; reflexivity).
  assert (Hw : stat_float sample_info
                 (batting_row "p2" "2001" "700" "300" "0" "0" "0" "0") "walks"
               = Ok (S754_zero false)) by (vm_compute; reflexivity).
  split; [exact Hh|]. split; [exact Hw|].
  apply (onbase_without_walks _ _ _ _ Hh Hw); [reflexivity|].
  vm_compute. discriminate.
Defined.

(** ** The aggregator, further *)

Lemma times_named_cons (field g : string) (fields : list string) :
  times_named field (g :: fields)
  = (if decide (g = field) then 1 else 0) + times_named field fields.
Proof.
  unfold times_named. rewrite filter_cons.
  destruct (decide (g = field)); simpl length; lia.
Qed.

Lemma times_named_absent (field : string) (fields : list string) :
  field ∉ fields -> times_named field fields = 0.
Proof.
  intros Hnin. unfold times_named. rewrite filter_none; [reflexivity|].
  apply Forall_forall. intros g Hin ->. contradiction.
Qed.

Lemma times_named_NoDup (field : string) (fields : list string) :
  NoDup fields -> field ∈ fields -> times_named field fields = 1.
Proof.
  induction 1 as [|g fields Hg Hnd IH]; intros Hin.
  - by apply elem_of_nil in Hin.
  - rewrite times_named_cons. apply elem_of_cons in Hin as [->|Hin].
    + rewrite decide_True by done. rewrite times_named_absent by done. lia.
    + rewrite decide_False by (intros ->; contradiction).
      rewrite IH by done. lia.
Qed.

Lemma add_fields_lookup_times (stat : gmap string pyval) (fields : list string)
  (record : gmap string pyval) (field : string) :
  add_fields stat fields record !! field
  = if decide (field ∈ fields)
    then Some (VInt (held_int record field
                     + times_named field fields * int_field stat field))
    else record !! field.
Proof.
  unfold add_fields. revert record.
  induction fields as [|g fields IH]; intros record; simpl.
  - destruct (decide (field ∈ [])) as [Hin|_]; [|reflexivity].
    by apply elem_of_nil in Hin.
  - rewrite IH, times_named_cons.
    destruct (decide (g = field)) as [->|Hne].
    + rewrite (decide_True (P := field ∈ field :: fields)) by (by left).
      assert (Hheld : held_int
                        (<[field := VInt (held_int record field
                                          + int_field stat field)]> record)
                        field = held_int record field + int_field stat field).
      { unfold held_int at 1. by rewrite lookup_insert_eq. }
      destruct (decide (field ∈ fields)) as [Hin|Hnin].
      * rewrite Hheld. do 2 f_equal; lia.
      * rewrite lookup_insert_eq, times_named_absent by done.
        do 2 f_equal; lia.
    + assert (Hheld : held_int
                        (<[g := VInt (held_int record g + int_field stat g)]> record)
                        field = held_int record field).
      { unfold held_int at 1 3. by rewrite lookup_insert_ne. }
      rewrite Hheld, lookup_insert_ne by done.
      destruct (decide (field ∈ fields)) as [Hin|Hnin].
      * rewrite decide_True by (by right). do 2 f_equal; lia.
      * rewrite decide_False; [reflexivity|].
        rewrite elem_of_cons. naive_solver.
Qed.

(** The records of [aggregate_by_player_id], for any list of field
    names: a field named several times is added as many times. *)
Lemma aggregate_by_player_id_records (statistics : list (gmap string pyval))
  (playerid : string) (fields : list string) :
  Forall (summable playerid fields) statistics ->
  exists res,
    aggregate_by_player_id statistics playerid fields = Ok res /\
    res.*1 = first_seen (player_ids statistics playerid) /\
    forall pid record,
      od_lookup res pid = Some record ->
      dom record = {[playerid]} ∪ list_to_set fields /\
      (forall field,
          field ∈ fields ->
          record !! field
          = Some (VInt (times_named field fields
                        * field_sum statistics playerid pid field))) /\
      (playerid ∉ fields -> record !! playerid = Some pid).
Proof.
  intros Hall.
  destruct (aggregate_by_player_id_step playerid fields statistics)
    as (step & -> & Hstep).
  apply (for_fold_invariant step
           (fun done res =>
              res.*1 = first_seen (player_ids done playerid) /\
              forall pid record,
                od_lookup res pid = Some record ->
                dom record = {[playerid]} ∪ list_to_set fields /\
                (forall field,
                    field ∈ fields ->
                    record !! field
                    = Some (VInt (times_named field fields
                                  * field_sum done playerid pid field))) /\
                (playerid ∉ fields -> record !! playerid = Some pid))).
  { split; [reflexivity|]. intros pid record [=]. }
  intros done stat res [Hkeys Hrec] Hin.
  rewrite Forall_forall in Hall. destruct (Hall _ Hin) as [[pid Hpid] Hstat].
  eexists. split.
  { apply Hstep; [exact Hpid|exact Hstat|].
    intros record Hlook. apply Forall_forall. intros f Hf.
    destruct (Hrec _ _ Hlook) as (_ & Hsum & _). eauto. }
  assert (Hfresh : od_lookup res pid = None ->
                   pid ∉ player_ids done playerid).
  { rewrite od_lookup_None, Hkeys, first_seen_elem. auto. }
  assert (Hold : forall record, od_lookup res pid = Some record ->
                                pid ∈ player_ids done playerid).
  { intros record Hlook.
    destruct (decide (pid ∈ player_ids done playerid)) as [|Hnin]; [done|].
    rewrite <- first_seen_elem, <- Hkeys, <- od_lookup_None in Hnin.
    congruence. }
  split.
  - rewrite od_store_keys, (player_ids_snoc _ _ _ _ Hpid), first_seen_snoc, Hkeys.
    destruct (od_lookup res pid) as [record|] eqn:E.
    + by rewrite decide_True by (by apply (Hold record)).
    + by rewrite decide_False by (by apply Hfresh).
  - intros pid' record'. rewrite od_lookup_store.
    destruct (decide (pid = pid')) as [<-|Hne].
    + intros [= <-].
      assert (Hbase :
                dom (match od_lookup res pid with
                     | Some record => record
                     | None => zero_fields fields {[playerid := pid]}
                     end) = {[playerid]} ∪ list_to_set fields /\
                (forall f, f ∈ fields ->
                           held_int (match od_lookup res pid with
                                     | Some record => record
                                     | None => zero_fields fields {[playerid := pid]}
                                     end) f
                           = times_named f fields * field_sum done playerid pid f) /\
                (playerid ∉ fields ->
                 match od_lookup res pid with
                 | Some record => record
                 | None => zero_fields fields {[playerid := pid]}
                 end !! playerid = Some pid)).
      { destruct (od_lookup res pid) as [record|] eqn:E.
        - destruct (Hrec _ _ E) as (Hdom & Hsum & Hid).
          split; [exact Hdom|]. split; [|exact Hid].
          intros f Hf. unfold held_int. by rewrite (Hsum _ Hf).
        - split; [rewrite zero_fields_dom, dom_singleton_L; set_solver|].
          split.
          + intros f Hf. unfold held_int.
            rewrite zero_fields_lookup, decide_True by done.
            unfold field_sum. rewrite rows_of_absent by (by apply Hfresh).
            simpl. lia.
          + intros Hnf. rewrite zero_fields_lookup, decide_False by done.
            by rewrite lookup_singleton_eq. }
      destruct Hbase as (Hdom & Hheld & Hid).
      split; [rewrite add_fields_dom, Hdom; set_solver|]. split.
      * intros f Hf. rewrite add_fields_lookup_times, decide_True by done.
        rewrite (Hheld _ Hf), (field_sum_snoc _ _ _ _ _ _ Hpid).
        rewrite decide_True by done. do 2 f_equal; lia.
      * intros Hnf. rewrite add_fields_lookup_times, decide_False by done.
        by apply Hid.
    + intros Hlook. destruct (Hrec _ _ Hlook) as (Hdom & Hsum & Hid).
      split; [exact Hdom|]. split; [|exact Hid].
      intros f Hf. rewrite (field_sum_snoc _ _ _ _ _ _ Hpid).
      rewrite decide_False by done. rewrite Z.add_0_r. by apply Hsum.
Qed.

(** X13.  For any list of field names, repeated or not, and rows that
    all have the player column and hold integers in the named fields,
    each named field of a player's record holds the sum of the field
    over the player's rows multiplied by the number of times the field
    is named. *)
Theorem aggregate_by_player_id_times (statistics : list (gmap string pyval))
  (playerid : string) (fields : list string) :
  Forall (summable playerid fields) statistics ->
  exists res,
    aggregate_by_player_id statistics playerid fields = Ok res /\
    forall pid record field,
      (pid, record) ∈ res ->
      field ∈ fields ->
      record !! field
      = Some (VInt (times_named field fields
                    * field_sum statistics playerid pid field)).
Proof.
  intros Hall.
  destruct (aggregate_by_player_id_records _ _ _ Hall) as (res & Hres & Hkeys & Hrec).
  exists res. split; [exact Hres|].
  intros pid record field Hin Hf.
  assert (Hlook : od_lookup res pid = Some record).
  { apply od_lookup_elem; [|exact Hin]. rewrite Hkeys. apply first_seen_NoDup. }
  destruct (Hrec _ _ Hlook) as (_ & Hsum & _). by apply Hsum.
Qed.

Lemma sample_summable_twice :
  Forall (summable "playerID" ["H"; "AB"; "H"]) sample_batting.
Proof.
  unfold sample_batting.
  repeat (apply List.Forall_cons; [show_summable|]).
  apply List.Forall_nil.
Defined.

Lemma aggregate_by_player_id_times_witness :
  Forall (summable "playerID" ["H"; "AB"; "H"]) sample_batting /\
  exists res,
    aggregate_by_player_id sample_batting "playerID" ["H"; "AB"; "H"] = Ok res /\
    forall pid record field,
      (pid, record) ∈ res ->
      field ∈ ["H"; "AB"; "H"] ->
      record !! field
      = Some (VInt (times_named field ["H"; "AB"; "H"]
                    * field_sum sample_batting "playerID" pid field)).
Proof.
  split; [exact sample_summable_twice|].
  exact (aggregate_by_player_id_times _ _ _ sample_summable_twice).
Defined.

Lemma add_loop_inv (stat : gmap string pyval) (pid : pyval)
  (fields : list string) (d d' : list (pyval * gmap string pyval)) :
  for_fold
    (fun res field =>
       record ← od_getitem res pid;
       old ← getitem record field;
       v ← getitem stat field;
       n ← to_int v;
       new ← add_int old n;
       Ok (od_store res pid (<[field := new]> record)))
    d fields
  = Ok d' ->
  Forall (fun field => exists v n, stat !! field = Some v /\ to_int v = Ok n)
         fields.
Proof.
  apply for_fold_Ok_Forall. intros acc field acc' Hstep.
  apply bind_Ok in Hstep as (record & _ & Hstep).
  apply bind_Ok in Hstep as (old & _ & Hstep).
  apply bind_Ok in Hstep as (v & Hv & Hstep).
  apply bind_Ok in Hstep as (n & Hn & _).
  exists v, n. split; [by apply getitem_Ok|exact Hn].
Qed.

Lemma aggregate_by_player_id_summable (statistics : list (gmap string pyval))
  (playerid : string) (fields : list string)
  (res : list (pyval * gmap string pyval)) :
  aggregate_by_player_id statistics playerid fields = Ok res ->
  Forall (summable playerid fields) statistics.
Proof.
  unfold aggregate_by_player_id. apply for_fold_Ok_Forall.
  intros acc stat acc' Hstep.
  apply bind_Ok in Hstep as (pid & Hpid & Hstep).
  apply bind_Ok in Hstep as (res1 & _ & Hstep).
  split; [exists pid; by apply getitem_Ok|].
  by eapply add_loop_inv.
Qed.

(** X14.  [aggregate_by_player_id] returns records exactly when every
    row has the player column and holds an integer, or integer text, in
    every named field. *)
Theorem aggregate_by_player_id_returns (statistics : list (gmap string pyval))
  (playerid : string) (fields : list string) :
  (exists res, aggregate_by_player_id statistics playerid fields = Ok res) <->
  Forall (summable playerid fields) statistics.
Proof.
  split.
  - intros [res Hres]. by eapply aggregate_by_player_id_summable.
  - intros Hall.
    destruct (aggregate_by_player_id_records _ _ _ Hall) as (res & Hres & _).
    by exists res.
Qed.

Lemma sum_list_split {A : Type} `{EqDecision A} (g : A -> Z) (x : A)
  (l : list A) :
  NoDup l ->
  sum_list (map g l)
  = (if decide (x ∈ l) then g x else 0)
    + sum_list (map g (filter (fun y => y <> x) l)).
Proof.
  induction 1 as [|y l Hy Hnd IH].
  - destruct (decide (x ∈ [])) as [Hin|_]; [by apply elem_of_nil in Hin|].
    reflexivity.
  - rewrite filter_cons. cbn [map]. change (sum_list (?a :: ?r)) with (a + sum_list r).
    rewrite IH.
    destruct (decide (y = x)) as [->|Hne].
    + rewrite (decide_False (P := x <> x)) by (intros H; by apply H).
      rewrite (decide_True (P := x ∈ x :: l)) by (by left).
      rewrite (decide_False (P := x ∈ l)) by done. lia.
    + rewrite (decide_True (P := y <> x)) by done. cbn [map].
      change (sum_list (?a :: ?r)) with (a + sum_list r).
      destruct (decide (x ∈ l)) as [Hin|Hnin].
      * rewrite (decide_True (P := x ∈ y :: l)) by (by right). lia.
      * rewrite (decide_False (P := x ∈ y :: l)); [lia|].
        rewrite elem_of_cons. naive_solver.
Qed.

(** The sums of the players add up to the sum over all the rows. *)
Lemma field_sum_partition (statistics : list (gmap string pyval))
  (playerid field : string) :
  Forall (fun stat => is_Some (stat !! playerid)) statistics ->
  sum_list (map (fun pid => field_sum statistics playerid pid field)
              (first_seen (player_ids statistics playerid)))
  = field_total statistics field.
Proof.
  induction 1 as [|stat stats [pid Hpid] Hall IH]; [reflexivity|].
  assert (Hcons : forall p,
             field_sum (stat :: stats) playerid p field
             = (if decide (pid = p) then int_field stat field else 0)
               + field_sum stats playerid p field).
  { intros p. unfold field_sum, rows_of. rewrite filter_cons.
    destruct (decide (pid = p)) as [->|Hne].
    - by rewrite decide_True.
    - by rewrite decide_False by congruence. }
  unfold player_ids. cbn [omap list_omap]. rewrite Hpid.
  fold (player_ids stats playerid). cbn [first_seen map].
  change (sum_list (?a :: ?r)) with (a + sum_list r).
  rewrite Hcons, decide_True by done.
  unfold field_total. cbn [map].
  change (sum_list (?a :: ?r)) with (a + sum_list r).
  fold (field_total stats field). rewrite <- IH.
  rewrite (sum_list_split (fun p => field_sum stats playerid p field) pid
             (first_seen (player_ids stats playerid)))
    by apply first_seen_NoDup.
  assert (Hrest :
            map (fun p => field_sum (stat :: stats) playerid p field)
              (filter (fun y => y <> pid) (first_seen (player_ids stats playerid)))
            = map (fun p => field_sum stats playerid p field)
                (filter (fun y => y <> pid) (first_seen (player_ids stats playerid)))).
  { apply map_ext_in. intros p Hp. apply list_elem_of_In in Hp.
    apply list_elem_of_filter in Hp as [Hne _].
    rewrite Hcons. by rewrite decide_False by congruence. }
  rewrite Hrest.
  destruct (decide (pid ∈ first_seen (player_ids stats playerid))) as [Hin|Hnin].
  - lia.
  - rewrite first_seen_elem in Hnin.
    unfold field_sum at 1. rewrite rows_of_absent by done. simpl. lia.
Qed.

(** X15.  Aggregation loses and invents nothing: for distinct field
    names, the values of a named field in the returned records add up
    to the sum of the field over all the rows. *)
Theorem aggregate_by_player_id_total (statistics : list (gmap string pyval))
  (playerid : string) (fields : list string) (field : string) :
  NoDup fields ->
  Forall (summable playerid fields) statistics ->
  field ∈ fields ->
  exists res,
    aggregate_by_player_id statistics playerid fields = Ok res /\
    sum_list (map (fun entry => held_int entry.2 field) res)
    = field_total statistics field.
Proof.
  intros Hnd Hall Hf.
  destruct (aggregate_by_player_id_records _ _ _ Hall) as (res & Hres & Hkeys & Hrec).
  exists res. split; [exact Hres|].
  rewrite <- (field_sum_partition statistics playerid field).
  2:{ eapply Forall_impl; [exact Hall|]. by intros stat [Hp _]. }
  rewrite <- Hkeys.
  assert (Hnk : NoDup res.*1) by (rewrite Hkeys; apply first_seen_NoDup).
  rewrite <- list_fmap_compose. f_equal.
  apply map_ext_in. intros [pid record] Hin. apply list_elem_of_In in Hin.
  destruct (Hrec pid record (od_lookup_elem _ _ _ Hnk Hin)) as (_ & Hsum & _).
  simpl. unfold held_int. rewrite (Hsum _ Hf).
  rewrite times_named_NoDup by done. lia.
Qed.

Lemma aggregate_by_player_id_total_witness :
  NoDup ["AB"; "H"]%string /\
  Forall (summable "playerID" ["AB"; "H"]) sample_batting /\
  "H" ∈ ["AB"; "H"]%string /\
  field_total sample_batting "H" = 710 /\
  exists res,
    aggregate_by_player_id sample_batting "playerID" ["AB"; "H"] = Ok res /\
    sum_list (map (fun entry => held_int entry.2 "H") res)
    = field_total sample_batting "H".
Proof.
  assert (Hin : "H" ∈ ["AB"; "H"]%string) by (right; left).
  split; [exact sample_fields_NoDup|]. split; [exact sample_summable|].
  split; [exact Hin|]. split; [vm_compute; reflexivity|].
  exact (aggregate_by_player_id_total _ _ _ _
           sample_fields_NoDup sample_summable Hin).
Defined.

(** X16.  Career statistics are summed as integers before they are
    converted: on a record returned by [aggregate_by_player_id] for
    distinct field names that include the hits and at-bats columns,
    [batting_average] converts the player's total hits and total
    at-bats to floats, tests the total at-bats against the threshold
    and divides the totals. *)
Theorem batting_average_of_aggregate (statistics : list (gmap string pyval))
  (playerid : string) (fields : list string) info (hits_column ab_column : string) :
  NoDup fields ->
  Forall (summable playerid fields) statistics ->
  info !! "hits" = Some hits_column ->
  info !! "atbats" = Some ab_column ->
  hits_column ∈ fields ->
  ab_column ∈ fields ->
  exists res,
    aggregate_by_player_id statistics playerid fields = Ok res /\
    forall pid record,
      (pid, record) ∈ res ->
      batting_average info record
      = (hits ← float_of_int (field_sum statistics playerid pid hits_column);
         at_bats ← float_of_int (field_sum statistics playerid pid ab_column);
         if num_ge (NFloat at_bats) (NInt MINIMUM_AB)
         then NFloat <$> truediv hits at_bats
         else Ok (NInt 0)).
Proof.
  intros Hnd Hall Hh Hab Hhf Habf.
  destruct (aggregate_by_player_id_records _ _ _ Hall) as (res & Hres & Hkeys & Hrec).
  exists res. split; [exact Hres|].
  intros pid record Hin.
  assert (Hlook : od_lookup res pid = Some record).
  { apply od_lookup_elem; [|exact Hin]. rewrite Hkeys. apply first_seen_NoDup. }
  destruct (Hrec _ _ Hlook) as (_ & Hsum & _).
  assert (Hstat : forall role column,
             info !! role = Some column -> column ∈ fields ->
             stat_float info record role
             = float_of_int (field_sum statistics playerid pid column)).
  { intros role column Hrole Hc. unfold stat_float.
    apply getitem_Ok in Hrole. rewrite Hrole; simpl.
    pose proof (Hsum _ Hc) as Hv. rewrite times_named_NoDup in Hv by done.
    apply getitem_Ok in Hv. rewrite Hv; simpl. f_equal. lia. }
  unfold batting_average.
  by rewrite (Hstat _ _ Hh Hhf), (Hstat _ _ Hab Habf).
Qed.

Lemma batting_average_of_aggregate_witness :
  NoDup ["AB"; "H"]%string /\
  Forall (summable "playerID" ["AB"; "H"]) sample_batting /\
  sample_info !! "hits" = Some "H" /\
  sample_info !! "atbats" = Some "AB" /\
  exists res,
    aggregate_by_player_id sample_batting "playerID" ["AB"; "H"] = Ok res /\
    forall pid record,
      (pid, record) ∈ res ->
      batting_average sample_info record
      = (hits ← float_of_int (field_sum sample_batting "playerID" pid "H");
         at_bats ← float_of_int (field_sum sample_batting "playerID" pid "AB");
         if num_ge (NFloat at_bats) (NInt MINIMUM_AB)
         then NFloat <$> truediv hits at_bats
         else Ok (NInt 0)).
Proof.
  split; [exact sample_fields_NoDup|]. split; [exact sample_summable|].
  split; [vm_compute; reflexivity|]. split; [vm_compute; reflexivity|].
  apply (batting_average_of_aggregate sample_batting "playerID" ["AB"; "H"]
           sample_info "H" "AB" sample_fields_NoDup sample_summable).
  - vm_compute. reflexivity.
  - vm_compute. reflexivity.
  - right. left.
  - left.
Defined.

(** ** The name resolver, further *)

Lemma for_fold_snoc_inv {A B : Type} (f : list B -> A -> result (list B))
  (R : A -> B -> Prop) (xs : list A) (acc out : list B) :
  (forall acc x acc', f acc x = Ok acc' -> exists y, acc' = acc ++ [y] /\ R x y) ->
  for_fold f acc xs = Ok out ->
  exists ys, out = acc ++ ys /\ Forall2 R xs ys.
Proof.
  intros Hf. revert acc. induction xs as [|x xs IH]; intros acc; simpl.
  - intros [= <-]. exists []. split; [by rewrite app_nil_r|constructor].
  - destruct (f acc x) as [acc'|] eqn:E; simpl; [|discriminate].
    destruct (Hf _ _ _ E) as (y & -> & Hy).
    intros Hout. apply IH in Hout as (ys & -> & Hys).
    exists (y :: ys). split; [by rewrite <- app_assoc|by constructor].
Qed.

(** What a successful call of [lookup_player_names] has done. *)
Lemma lookup_player_names_inv reader info ranked lines :
  lookup_player_names reader info ranked = Ok lines ->
  exists filename keyfield separator quote master,
    info !! "masterfile" = Some filename /\
    info !! "playerid" = Some keyfield /\
    info !! "separator" = Some separator /\
    info !! "quote" = Some quote /\
    read_csv_as_nested_dict reader filename keyfield separator quote = Ok master /\
    Forall2 (fun entry line =>
               exists fcol lcol,
                 info !! "firstname" = Some fcol /\
                 info !! "lastname" = Some lcol /\
                 line_of master fcol lcol entry line)
            ranked lines.
Proof.
  unfold lookup_player_names. intros H.
  apply bind_Ok in H as (filename & Hfile & H).
  apply bind_Ok in H as (keyfield & Hkey & H).
  apply bind_Ok in H as (separator & Hsep & H).
  apply bind_Ok in H as (quote & Hquote & H).
  apply bind_Ok in H as (master & Hmaster & H).
  exists filename, keyfield, separator, quote, master.
  apply getitem_Ok in Hfile, Hkey, Hsep, Hquote.
  repeat (split; [assumption|]).
  eapply for_fold_snoc_inv in H as (ys & -> & Hys); [exact Hys|].
  intros acc [pid stat] acc' Hstep.
  apply bind_Ok in Hstep as (names & Hn & Hstep).
  apply bind_Ok in Hstep as (fcol & Hfc & Hstep).
  apply bind_Ok in Hstep as (first & Hf & Hstep).
  apply bind_Ok in Hstep as (names' & Hn' & Hstep).
  apply bind_Ok in Hstep as (lcol & Hlc & Hstep).
  apply bind_Ok in Hstep as (last & Hl & Hstep).
  apply bind_Ok in Hstep as (shown & Hs & Hstep).
  injection Hstep as <-.
  assert (names' = names) as -> by congruence.
  apply getitem_Ok in Hn, Hfc, Hf, Hlc, Hl.
  eexists. split; [reflexivity|].
  exists fcol, lcol. split; [exact Hfc|]. split; [exact Hlc|].
  exists names, first, last, shown. auto.
Qed.

(** X17.  Whenever [lookup_player_names] returns, it has loaded the
    name lookup table from the master file the Field Map names, and it
    returns one line per ranked entry, in order, each being the line of
    its entry; in particular every ranked identifier is in the table. *)
Theorem lookup_player_names_returned reader info ranked lines :
  lookup_player_names reader info ranked = Ok lines ->
  exists filename keyfield separator quote master,
    info !! "masterfile" = Some filename /\
    info !! "playerid" = Some keyfield /\
    info !! "separator" = Some separator /\
    info !! "quote" = Some quote /\
    read_csv_as_nested_dict reader filename keyfield separator quote = Ok master /\
    length lines = length ranked /\
    Forall (fun entry : pyval * pynum => is_Some (master !! entry.1)) ranked /\
    Forall2 (fun entry line =>
               exists fcol lcol,
                 info !! "firstname" = Some fcol /\
                 info !! "lastname" = Some lcol /\
                 line_of master fcol lcol entry line)
            ranked lines.
Proof.
  intros H.
  apply lookup_player_names_inv in H
    as (filename & keyfield & separator & quote & master
        & Hfile & Hkey & Hsep & Hquote & Hmaster & Hlines).
  exists filename, keyfield, separator, quote, master.
  repeat (split; [assumption|]).
  split; [symmetry; by eapply Forall2_length|].
  split; [|exact Hlines].
  clear -Hlines. induction Hlines as [|entry line ranked lines Hl _ IH];
    constructor; [|exact IH].
  destruct Hl as (fcol & lcol & _ & _ & names & first & last & shown & Hn & _).
  by exists names.
Qed.

Lemma lookup_player_names_returned_witness :
  lookup_player_names sample_reader sample_info sample_ranked
  = Ok ["0.333 --- Ann Lee"; "0.200 --- Cy Orr"; "0.000 --- Bo Ray"] /\
  length ["0.333 --- Ann Lee"; "0.200 --- Cy Orr"; "0.000 --- Bo Ray"]%string
  = length sample_ranked.
Proof.
  assert (H : lookup_player_names sample_reader sample_info sample_ranked
              = Ok ["0.333 --- Ann Lee"; "0.200 --- Cy Orr"; "0.000 --- Bo Ray"])
    by (vm_compute; reflexivity).
  split; [exact H|].
  destruct (lookup_player_names_returned _ _ _ _ H)
    as (_ & _ & _ & _ & _ & _ & _ & _ & _ & _ & Hlen & _).
  exact Hlen.
Defined.

(** X18.  When the master file lists an identifier several times, the
    names of its last row are shown: each line [lookup_player_names]
    returns carries the names of the last row of the master file whose
    key column holds the entry's identifier. *)
Theorem lookup_player_names_last_row reader info
  (filename keyfield separator quote : string)
  (rows : list (gmap string pyval)) ranked lines :
  info !! "masterfile" = Some filename ->
  info !! "playerid" = Some keyfield ->
  info !! "separator" = Some separator ->
  info !! "quote" = Some quote ->
  reader filename separator quote = Ok rows ->
  lookup_player_names reader info ranked = Ok lines ->
  Forall2 (fun (entry : pyval * pynum) line =>
             exists names fcol lcol name_first name_last shown,
               last (rows_keyed keyfield entry.1 rows) = Some names /\
               info !! "firstname" = Some fcol /\
               info !! "lastname" = Some lcol /\
               names !! fcol = Some name_first /\
               names !! lcol = Some name_last /\
               format_3f entry.2 = Ok shown /\
               line = (shown ++ " --- " ++ to_str name_first ++ " "
                       ++ to_str name_last)%string)
          ranked lines.
Proof.
  intros Hfile Hkey Hsep Hquote Hread H.
  apply lookup_player_names_inv in H
    as (filename' & keyfield' & separator' & quote' & master
        & Hfile' & Hkey' & Hsep' & Hquote' & Hmaster & Hlines).
  assert (filename' = filename) as -> by congruence.
  assert (keyfield' = keyfield) as -> by congruence.
  assert (separator' = separator) as -> by congruence.
  assert (quote' = quote) as -> by congruence.
  assert (Htable : forall key,
             master !! key = last (rows_keyed keyfield key rows)).
  { unfold read_csv_as_nested_dict in Hmaster. rewrite Hread in Hmaster.
    simpl in Hmaster.
    assert (Hall : Forall (fun row => is_Some (row !! keyfield)) rows).
    { revert Hmaster. apply for_fold_Ok_Forall. intros acc row acc' Hstep.
      apply bind_Ok in Hstep as (key & Hk & _). exists key.
      by apply getitem_Ok. }
    destruct (nested_dict_loop keyfield rows Hall) as (table & Ht & Hlast).
    rewrite Ht in Hmaster. by injection Hmaster as <-. }
  eapply Forall2_impl; [exact Hlines|].
  intros entry line
    (fcol & lcol & Hfc & Hlc & names & name_first & name_last & shown
     & Hn & Hf & Hl & Hs & ->).
  exists names, fcol, lcol, name_first, name_last, shown.
  rewrite <- Htable. auto 10.
Qed.

Lemma lookup_player_names_last_row_witness :
  lookup_player_names repeated_reader sample_info [(VStr "p1", NInt 0)]
  = Ok ["0.000 --- Anna Leigh"] /\
  Forall2 (fun (entry : pyval * pynum) line =>
             exists names fcol lcol name_first name_last shown,
               last (rows_keyed "playerID" entry.1 repeated_master) = Some names /\
               sample_info !! "firstname" = Some fcol /\
               sample_info !! "lastname" = Some lcol /\
               names !! fcol = Some name_first /\
               names !! lcol = Some name_last /\
               format_3f entry.2 = Ok shown /\
               line = (shown ++ " --- " ++ to_str name_first ++ " "
                       ++ to_str name_last)%string)
          [(VStr "p1", NInt 0)] ["0.000 --- Anna Leigh"].
Proof.
  assert (H : lookup_player_names repeated_reader sample_info [(VStr "p1", NInt 0)]
              = Ok ["0.000 --- Anna Leigh"]) by (vm_compute; reflexivity).
  split; [exact H|].
  apply (lookup_player_names_last_row repeated_reader sample_info
           "Master.csv" "playerID" "," "'" repeated_master);
    first [exact H | vm_compute; reflexivity].
Defined.

(** ** The orchestrators *)

Lemma top_player_ids_inv info stats formula n ranked :
  top_player_ids info stats formula n = Ok ranked ->
  exists pid_field scored,
    info !! "playerid" = Some pid_field /\
    Forall2 (scored_as info formula pid_field) stats scored /\
    ranked = slice_to (sort_reverse snd scored) n.
Proof.
  unfold top_player_ids. intros H.
  apply bind_Ok in H as (pid_field & Hi & H).
  apply bind_Ok in H as (out & Hout & H).
  apply scoring_loop_inv in Hout as (scored & Hall & ->).
  injection H as <-.
  exists pid_field, scored. split; [by apply getitem_Ok|]. by split.
Qed.

Lemma top_player_ids_length_inv info stats formula n ranked :
  top_player_ids info stats formula n = Ok ranked ->
  0 <= n ->
  Z.of_nat (length ranked) = Z.min n (Z.of_nat (length stats)).
Proof.
  intros H Hn. apply top_player_ids_inv in H as (pid_field & scored & _ & Hall & ->).
  apply Forall2_length in Hall.
  unfold slice_to. destruct (Z.leb_spec 0 n); [|lia].
  rewrite length_take, length_sort_reverse. lia.
Qed.

(** X19.  The season operation is the composition of its stages:
    whenever [compute_top_stats_year] returns for a count [n >= 0], it
    has read the batting file the Field Map names, and it returns
    [min n k] lines, [k] being the number of rows of the file whose
    year is the target year. *)
Theorem compute_top_stats_year_lines reader info formula n year lines :
  compute_top_stats_year reader info formula n year = Ok lines ->
  0 <= n ->
  exists filename separator quote yearid stats,
    info !! "battingfile" = Some filename /\
    info !! "separator" = Some separator /\
    info !! "quote" = Some quote /\
    info !! "yearid" = Some yearid /\
    reader filename separator quote = Ok stats /\
    Z.of_nat (length lines)
    = Z.min n (Z.of_nat (length (filter (fun stat => year_of yearid stat = Ok year)
                                   stats))).
Proof.
  unfold compute_top_stats_year, read_csv_as_list_dict. intros H Hn.
  apply bind_Ok in H as (filename & Hfile & H).
  apply bind_Ok in H as (separator & Hsep & H).
  apply bind_Ok in H as (quote & Hquote & H).
  apply bind_Ok in H as (stats & Hstats & H).
  apply bind_Ok in Hstats as (rows & Hrows & Hstats).
  rewrite list_dict_loop in Hstats. injection Hstats as <-.
  apply bind_Ok in H as (yearid & Hyear & H).
  apply bind_Ok in H as (yearly & Hyearly & H).
  apply bind_Ok in H as (top_ids & Htop & H).
  apply getitem_Ok in Hfile, Hsep, Hquote, Hyear.
  exists filename, separator, quote, yearid, rows.
  repeat (split; [assumption|]).
  apply lookup_player_names_inv in H
    as (mfile & mkey & msep & mquote & master & _ & _ & _ & _ & _ & Hlines).
  apply Forall2_length in Hlines. rewrite <- Hlines.
  rewrite (top_player_ids_length_inv _ _ _ _ _ Htop Hn).
  by rewrite (filter_by_year_inv _ _ _ _ Hyearly).
Qed.

Lemma compute_top_stats_year_lines_witness :
  compute_top_stats_year sample_reader sample_info batting_average 2 2001
  = Ok ["0.333 --- Ann Lee"; "0.200 --- Cy Orr"] /\
  0 <= 2 /\
  exists filename separator quote yearid stats,
    sample_info !! "battingfile" = Some filename /\
    sample_info !! "separator" = Some separator /\
    sample_info !! "quote" = Some quote /\
    sample_info !! "yearid" = Some yearid /\
    sample_reader filename separator quote = Ok stats /\
    Z.of_nat (length ["0.333 --- Ann Lee"; "0.200 --- Cy Orr"]%string)
    = Z.min 2 (Z.of_nat (length (filter (fun stat => year_of yearid stat = Ok 2001)
                                   stats))).
Proof.
  assert (H : compute_top_stats_year sample_reader sample_info batting_average
                2 2001
              = Ok ["0.333 --- Ann Lee"; "0.200 --- Cy Orr"])
    by (vm_compute; reflexivity).
  split; [exact H|]. split; [lia|].
  apply (compute_top_stats_year_lines _ _ _ _ _ _ H). lia.
Defined.

(** X20.  The career operation ranks players, not rows: whenever
    [compute_top_stats_career] returns for a count [n >= 0], it has
    read the batting file the Field Map names, and it returns [min n k]
    lines, [k] being the number of distinct player identifiers in the
    file. *)
Theorem compute_top_stats_career_lines reader info battingfields formula n lines :
  compute_top_stats_career reader info battingfields formula n = Ok lines ->
  0 <= n ->
  exists filename separator quote pid stats,
    info !! "battingfile" = Some filename /\
    info !! "separator" = Some separator /\
    info !! "quote" = Some quote /\
    info !! "playerid" = Some pid /\
    reader filename separator quote = Ok stats /\
    Z.of_nat (length lines)
    = Z.min n (Z.of_nat (size (list_to_set (C := gset pyval)
                                 (player_ids stats pid)))).
Proof.
  unfold compute_top_stats_career, read_csv_as_list_dict. intros H Hn.
  apply bind_Ok in H as (filename & Hfile & H).
  apply bind_Ok in H as (separator & Hsep & H).
  apply bind_Ok in H as (quote & Hquote & H).
  apply bind_Ok in H as (stats & Hstats & H).
  apply bind_Ok in Hstats as (rows & Hrows & Hstats).
  rewrite list_dict_loop in Hstats. injection Hstats as <-.
  apply bind_Ok in H as (pid & Hpid & H).
  apply bind_Ok in H as (agg & Hagg & H).
  apply bind_Ok in H as (top_ids & Htop & H).
  apply getitem_Ok in Hfile, Hsep, Hquote, Hpid.
  exists filename, separator, quote, pid, rows.
  repeat (split; [assumption|]).
  apply lookup_player_names_inv in H
    as (mfile & mkey & msep & mquote & master & _ & _ & _ & _ & _ & Hlines).
  apply Forall2_length in Hlines. rewrite <- Hlines.
  rewrite (top_player_ids_length_inv _ _ _ _ _ Htop Hn).
  pose proof (aggregate_by_player_id_summable _ _ _ _ Hagg) as Hall.
  destruct (aggregate_by_player_id_records _ _ _ Hall) as (res & Hres & Hkeys & _).
  assert (res = agg) as -> by congruence.
  rewrite length_map, <- first_seen_length, <- Hkeys, length_fmap.
  reflexivity.
Qed.

Lemma compute_top_stats_career_lines_witness :
  compute_top_stats_career sample_reader sample_info ["AB"; "H"]
    batting_average 5
  = Ok ["0.333 --- Ann Lee"; "0.200 --- Cy Orr"; "0.000 --- Bo Ray"] /\
  0 <= 5 /\
  exists filename separator quote pid stats,
    sample_info !! "battingfile" = Some filename /\
    sample_info !! "separator" = Some separator /\
    sample_info !! "quote" = Some quote /\
    sample_info !! "playerid" = Some pid /\
    sample_reader filename separator quote = Ok stats /\
    Z.of_nat (length ["0.333 --- Ann Lee"; "0.200 --- Cy Orr";
                      "0.000 --- Bo Ray"]%string)
    = Z.min 5 (Z.of_nat (size (list_to_set (C := gset pyval)
                                 (player_ids stats pid)))).
Proof.
  assert (H : compute_top_stats_career sample_reader sample_info ["AB"; "H"]
                batting_average 5
              = Ok ["0.333 --- Ann Lee"; "0.200 --- Cy Orr"; "0.000 --- Bo Ray"])
    by (vm_compute; reflexivity).
  split; [exact H|]. split; [lia|].
  apply (compute_top_stats_career_lines _ _ _ _ _ _ H). lia.
Defined.

(** ** Relations between the formulas *)

Lemma fsub_zero_r (x w : float) :
  is_zero w = true -> x <> S754_zero true -> fsub x w = x.
Proof.
  destruct w as [sw| | |]; try discriminate. intros _ Hx.
  destruct x as [[]|sx| |sx mx ex]; try reflexivity; [congruence|].
  by destruct sw.
Qed.

Lemma fmul_lit_zero (k : Z) (w : float) :
  k = 2 \/ k = 3 \/ k = 4 ->
  is_zero w = true -> is_zero (fmul (float_lit k) w) = true.
Proof.
  destruct w as [sw| | |]; try discriminate. intros Hk _.
  destruct Hk as [->|[->| ->]]; reflexivity.
Qed.

(** X21.  A batter with singles only slugs his batting average: when
    the parsed doubles, triples and home runs are zero and the parsed
    hits are not the float -0.0, [slugging_percentage] returns what
    [batting_average] returns, score or error. *)
Theorem slugging_of_singles info row hits doubles triples home_runs :
  stat_float info row "hits" = Ok hits ->
  stat_float info row "doubles" = Ok doubles ->
  stat_float info row "triples" = Ok triples ->
  stat_float info row "homeruns" = Ok home_runs ->
  is_zero doubles = true ->
  is_zero triples = true ->
  is_zero home_runs = true ->
  hits <> S754_zero true ->
  slugging_percentage info row = batting_average info row.
Proof.
  intros Hh Hd Ht Hr Zd Zt Zr Hneg.
  unfold slugging_percentage, batting_average.
  rewrite Hh, Hd, Ht, Hr.
  cbn -[fsub fadd fmul fdiv float_lit truediv num_ge].
  destruct (stat_float info row "atbats") as [at_bats|];
    cbn -[fsub fadd fmul fdiv float_lit truediv num_ge]; [|reflexivity].
  destruct (num_ge (NFloat at_bats) (NInt MINIMUM_AB)); [|reflexivity].
  rewrite (fsub_zero_r hits doubles), (fsub_zero_r hits triples),
    (fsub_zero_r hits home_runs) by done.
  rewrite (fadd_zero_r hits (fmul (float_lit 2) doubles)),
    (fadd_zero_r hits (fmul (float_lit 3) triples)),
    (fadd_zero_r hits (fmul (float_lit 4) home_runs))
    by (first [done | apply fmul_lit_zero; auto]).
  reflexivity.
Qed.

Lemma slugging_of_singles_witness :
  stat_float sample_info
    (batting_row "p2" "2001" "700" "300" "40" "0" "0" "0") "hits"
  = Ok (float_lit 300) /\
  slugging_percentage sample_info
    (batting_row "p2" "2001" "700" "300" "40" "0" "0" "0")
  = batting_average sample_info
      (batting_row "p2" "2001" "700" "300" "40" "0" "0" "0").
Proof.
  assert (Hh : stat_float sample_info
                 (batting_row "p2" "2001" "700" "300" "40" "0" "0" "0") "hits"
               = Ok (float_lit 300)) by (vm_compute; reflexivity).
  assert (Hz : forall role,
             role = "doubles"%string \/ role = "triples"%string
             \/ role = "homeruns"%string ->
             stat_float sample_info
               (batting_row "p2" "2001" "700" "300" "40" "0" "0" "0") role
             = Ok (S754_zero false)).
  { intros role [->|[->| ->]]; vm_compute; reflexivity. }
  split; [exact Hh|].
  apply (slugging_of_singles _ _ _ (S754_zero false) (S754_zero false)
           (S754_zero false) Hh);
    first [apply Hz; tauto | reflexivity | (vm_compute; discriminate)].
Defined.

(** ** Aggregating twice *)

Lemma first_seen_NoDup_id (l : list pyval) : NoDup l -> first_seen l = l.
Proof.
  induction 1 as [|x l Hx Hnd IH]; [reflexivity|].
  cbn [first_seen]. rewrite IH. f_equal.
  clear IH Hnd. induction l as [|y l IH]; [reflexivity|].
  apply not_elem_of_cons in Hx as [Hne Hx].
  rewrite filter_cons_True by congruence. f_equal. by apply IH.
Qed.

Lemma od_ext {V : Type} (d d' : list (pyval * V)) :
  NoDup d.*1 -> d.*1 = d'.*1 ->
  (forall k, od_lookup d k = od_lookup d' k) ->
  d = d'.
Proof.
  revert d'. induction d as [|[k v] d IH]; intros [|[k' v'] d'] Hnd Hkeys Hlook;
    try discriminate; [reflexivity|].
  rewrite !fmap_cons in Hnd, Hkeys. simpl in Hnd, Hkeys.
  injection Hkeys as <- Hkeys. apply NoDup_cons in Hnd as [Hk Hnd].
  pose proof (Hlook k) as Hk0. simpl in Hk0.
  rewrite !decide_True in Hk0 by done. injection Hk0 as <-.
  f_equal. apply IH; auto.
  intros k0. specialize (Hlook k0). simpl in Hlook.
  destruct (decide (k = k0)) as [<-|Hne]; [|exact Hlook].
  assert (H1 : od_lookup d k = None) by (by apply od_lookup_None).
  assert (H2 : od_lookup d' k = None).
  { apply od_lookup_None. change (d.*1 = d'.*1) in Hkeys.
    by rewrite <- Hkeys. }
  by rewrite H1, H2.
Qed.

Lemma od_lookup_Some_elem {V : Type} (d : list (pyval * V)) k v :
  od_lookup d k = Some v -> (k, v) ∈ d.
Proof.
  induction d as [|[k0 v0] d IH]; simpl; [discriminate|].
  destruct (decide (k0 = k)) as [->|Hne].
  - intros [= ->]. by left.
  - intros H. right. by apply IH.
Qed.

Lemma player_ids_cons (stat : gmap string pyval)
  (stats : list (gmap string pyval)) (playerid : string) (pid : pyval) :
  stat !! playerid = Some pid ->
  player_ids (stat :: stats) playerid = pid :: player_ids stats playerid.
Proof. intros H. unfold player_ids. cbn [omap list_omap]. by rewrite H. Qed.

Lemma keyed_records (playerid : string)
  (res : list (pyval * gmap string pyval)) :
  NoDup res.*1 ->
  Forall (fun entry : pyval * gmap string pyval =>
            entry.2 !! playerid = Some entry.1) res ->
  player_ids res.*2 playerid = res.*1 /\
  forall pid record,
    (pid, record) ∈ res -> rows_of res.*2 playerid pid = [record].
Proof.
  intros Hnd Hall. induction Hall as [|[k r] res Hk Hall IH].
  - split; [reflexivity|]. intros pid record Hin. by apply elem_of_nil in Hin.
  - rewrite fmap_cons in Hnd. apply NoDup_cons in Hnd as [Hnk Hnd].
    cbn [fst snd] in Hk, Hnk. destruct (IH Hnd) as [IH1 IH2].
    rewrite !fmap_cons. cbn [fst snd]. split.
    + rewrite (player_ids_cons _ _ _ _ Hk). by rewrite IH1.
    + intros pid record Hin. unfold rows_of. rewrite filter_cons.
      apply elem_of_cons in Hin as [[= -> ->]|Hin].
      * rewrite decide_True by done. f_equal.
        apply rows_of_absent. by rewrite IH1.
      * rewrite decide_False; [by apply IH2|].
        rewrite Hk. intros [= ->]. apply Hnk.
        apply list_elem_of_fmap. by exists (pid, record).
Qed.

(** X22.  Aggregating is idempotent: for distinct field names that do
    not include the player column, aggregating the records that
    [aggregate_by_player_id] returned returns the same records in the
    same order. *)
Theorem aggregate_by_player_id_again (statistics : list (gmap string pyval))
  (playerid : string) (fields : list string)
  (res : list (pyval * gmap string pyval)) :
  NoDup fields ->
  playerid ∉ fields ->
  aggregate_by_player_id statistics playerid fields = Ok res ->
  aggregate_by_player_id res.*2 playerid fields = Ok res.
Proof.
  intros Hnd Hpf Hres.
  pose proof (aggregate_by_player_id_summable _ _ _ _ Hres) as Hall.
  destruct (aggregate_by_player_id_records _ _ _ Hall) as (res0 & Hres0 & Hkeys & Hrec).
  assert (res0 = res) as -> by congruence.
  assert (Hnk : NoDup res.*1) by (rewrite Hkeys; apply first_seen_NoDup).
  assert (Hrecs : forall pid record,
             (pid, record) ∈ res ->
             dom record = {[playerid]} ∪ list_to_set fields /\
             (forall field, field ∈ fields ->
                            record !! field
                            = Some (VInt (field_sum statistics playerid pid field))) /\
             record !! playerid = Some pid).
  { intros pid record Hin.
    destruct (Hrec _ _ (od_lookup_elem _ _ _ Hnk Hin)) as (Hdom & Hsum & Hid).
    split; [exact Hdom|]. split; [|by apply Hid].
    intros f Hf. rewrite (Hsum _ Hf), times_named_NoDup by done.
    do 2 f_equal; lia. }
  assert (Hkeyed : Forall (fun entry : pyval * gmap string pyval =>
                             entry.2 !! playerid = Some entry.1) res).
  { apply Forall_forall. intros [pid record] Hin. by apply Hrecs. }
  destruct (keyed_records playerid res Hnk Hkeyed) as [Hids Hrows].
  assert (Hall' : Forall (summable playerid fields) res.*2).
  { apply Forall_forall. intros record Hin.
    apply list_elem_of_fmap in Hin as ([pid record'] & -> & Hin). simpl.
    destruct (Hrecs _ _ Hin) as (_ & Hsum & Hid).
    split; [by exists pid|].
    apply Forall_forall. intros f Hf. eexists _, _.
    split; [by apply Hsum|reflexivity]. }
  destruct (aggregate_by_player_id_records _ _ _ Hall')
    as (res' & Hres' & Hkeys' & Hrec').
  rewrite Hres'. f_equal.
  rewrite Hids, first_seen_NoDup_id in Hkeys' by done.
  assert (Hnk' : NoDup res'.*1) by (by rewrite Hkeys').
  apply od_ext; auto.
  intros pid. destruct (od_lookup res pid) as [record|] eqn:E.
  - destruct (od_lookup res' pid) as [record'|] eqn:E'.
    2:{ apply od_lookup_None in E'. rewrite Hkeys' in E'.
        apply od_lookup_Some_elem in E. exfalso. apply E'.
        apply list_elem_of_fmap. by exists (pid, record). }
    f_equal. apply od_lookup_Some_elem in E as Hin.
    destruct (Hrecs _ _ Hin) as (Hdom & Hsum & Hid).
    destruct (Hrec' _ _ E') as (Hdom' & Hsum' & Hid').
    apply map_eq. intros key.
    destruct (decide (key ∈ fields)) as [Hf|Hnf].
    + rewrite (Hsum' _ Hf), (Hsum _ Hf), times_named_NoDup by done.
      unfold field_sum at 1. rewrite (Hrows _ _ Hin). simpl.
      unfold int_field. rewrite (Hsum _ Hf). simpl. do 2 f_equal; lia.
    + destruct (decide (key = playerid)) as [->|Hne].
      * by rewrite Hid', Hid.
      * assert (Hout : key ∉ dom record) by (rewrite Hdom; set_solver).
        assert (Hout' : key ∉ dom record') by (rewrite Hdom'; set_solver).
        apply not_elem_of_dom in Hout, Hout'. by rewrite Hout, Hout'.
  - apply od_lookup_None in E. rewrite <- Hkeys' in E.
    by apply od_lookup_None in E.
Qed.

Lemma aggregate_by_player_id_again_witness :
  NoDup ["AB"; "H"]%string /\
  ("playerID" ∉ ["AB"; "H"]%string) /\
  ((res ← aggregate_by_player_id sample_batting "playerID" ["AB"; "H"];
    aggregate_by_player_id (snd <$> res) "playerID" ["AB"; "H"])
   = aggregate_by_player_id sample_batting "playerID" ["AB"; "H"]).
Proof.
  assert (Hnin : "playerID" ∉ ["AB"; "H"]%string).
  { apply (bool_decide_unpack _). vm_compute. exact I. }
  split; [exact sample_fields_NoDup|]. split; [exact Hnin|].
  destruct (aggregate_by_player_id sample_batting "playerID" ["AB"; "H"])
    as [res|] eqn:E; simpl; [|reflexivity].
  exact (aggregate_by_player_id_again _ _ _ _ sample_fields_NoDup Hnin E).
Defined.
